(** * Texture manager of 0 A.D. (source/graphics/TextureManager.cpp)

    A shallow embedding of [CTextureManagerImpl] and of the [CTexture]
    methods defined in the same file, with the properties of the texture
    cache, of the loading state machine, of the cache validity policy, of
    the loose cache path and of the hotload index.

    Conventions of the embedding.
    - A [CTexturePtr] (shared pointer) and a [boost::weak_ptr<CTexture>]
      are both an address [ptr]; the objects live in the store [heap] of
      the manager. A weak pointer is expired when its address is not in
      the store, and [lock] is the lookup in the store.
    - A [VfsPath] is the list of its components, a wide string is a
      [string]; [operator/] appends, [branch_path] drops the last
      component and [leaf] returns it.
    - The virtual file system, the GL resource layer, the settings parser
      and the conversion worker are outside this file: what they answer at
      the time of a call is a [World].
    - The reference counts kept by the handle manager ([h_add_ref],
      [ogl_tex_free]) and the log ([LOGERROR]) live outside the manager
      and are not part of the state. *)

From Stdlib Require Import ZArith String Ascii List Lia Sorted.
From stdpp Require Import gmap strings list fin_maps.

Local Open Scope Z_scope.

(** ** Data *)

Definition ptr := nat.
Definition Handle := Z.
Definition VfsPath := list string.

Definition branch_path (p : VfsPath) : VfsPath := removelast p.
Definition leaf (p : VfsPath) : string := List.last p EmptyString.

(** [CTexture::m_State]. *)
Inductive State : Set :=
  | UNLOADED
  | PREFETCH_NEEDS_LOADING
  | PREFETCH_NEEDS_CONVERTING
  | PREFETCH_IS_CONVERTING
  | HIGH_NEEDS_CONVERTING
  | HIGH_IS_CONVERTING
  | LOADED.

#[global] Instance State_eq_dec : EqDecision State.
Proof. solve_decision. Defined.

(** Modelled from the spec: the fields of [CTextureProperties] are declared
    in TextureManager.h, which is not part of the sources at hand; the
    data model of the specification gives a path, two enumerations and an
    integer anisotropy, each with its usual total order. *)
Record CTextureProperties : Set := mkProps {
  m_Path : VfsPath;
  m_Filter : Z;
  m_Wrap : Z;
  m_Aniso : Z
}.

Record CTexture : Set := mkTexture {
  m_Handle : Handle;
  m_BaseColour : Z;
  m_State : State;
  m_Properties : CTextureProperties;
  m_Self : option ptr
}.

Definition set_Handle (h : Handle) (t : CTexture) : CTexture :=
  mkTexture h (m_BaseColour t) (m_State t) (m_Properties t) (m_Self t).
Definition set_BaseColour (c : Z) (t : CTexture) : CTexture :=
  mkTexture (m_Handle t) c (m_State t) (m_Properties t) (m_Self t).
Definition set_State (st : State) (t : CTexture) : CTexture :=
  mkTexture (m_Handle t) (m_BaseColour t) st (m_Properties t) (m_Self t).
Definition set_Self (p : option ptr) (t : CTexture) : CTexture :=
  mkTexture (m_Handle t) (m_BaseColour t) (m_State t) (m_Properties t) p.

(** [CTexture::CTexture(handle, props, textureManager)]. *)
Definition CTexture_new (handle : Handle) (props : CTextureProperties) : CTexture :=
  mkTexture handle 0 UNLOADED props None.

(** [CTexture::SetHandle]. *)
Definition SetHandle (handle : Handle) (t : CTexture) : CTexture :=
  if decide (handle = m_Handle t) then t else set_Handle handle t.

(** ** Orders *)

(** [operator<] of wide strings. *)
Definition wstring_lt (a b : string) : bool :=
  match String.compare a b with Lt => true | _ => false end.

(** [operator<] of paths: lexicographic over the components. *)
Fixpoint VfsPath_lt (a b : VfsPath) : bool :=
  match a, b with
  | _, [] => false
  | [], _ :: _ => true
  | x :: a', y :: b' =>
      if wstring_lt x y then true
      else if wstring_lt y x then false
      else VfsPath_lt a' b'
  end.

(** [TextureCacheCmp::operator()] on properties. *)
Definition TextureCacheCmp (a b : CTextureProperties) : bool :=
  if VfsPath_lt (m_Path a) (m_Path b) then true
  else if VfsPath_lt (m_Path b) (m_Path a) then false
  else if m_Filter a <? m_Filter b then true
  else if m_Filter b <? m_Filter a then false
  else if m_Wrap a <? m_Wrap b then true
  else if m_Wrap b <? m_Wrap a then false
  else if m_Aniso a <? m_Aniso b then true
  else if m_Aniso b <? m_Aniso a then false
  else false.

(** Two keys are equivalent for an ordered set when neither is below the
    other. *)
Definition equivalent (a b : CTextureProperties) : bool :=
  negb (TextureCacheCmp a b) && negb (TextureCacheCmp b a).

(** ** Ordered sets, as the sorted list of their elements *)

Section OrderedSet.
Context {A : Type} (lt : A -> A -> bool).

(** [std::set::find]: the first element not below the key, when the key
    is not below it either. *)
Fixpoint set_find (x : A) (l : list A) : option A :=
  match l with
  | [] => None
  | y :: l' =>
      if lt y x then set_find x l'
      else if lt x y then None
      else Some y
  end.

(** [std::set::insert]: nothing when an equivalent element is there. *)
Fixpoint set_insert (x : A) (l : list A) : list A :=
  match l with
  | [] => [x]
  | y :: l' =>
      if lt y x then y :: set_insert x l'
      else if lt x y then x :: y :: l'
      else y :: l'
  end.
End OrderedSet.

(** The order of [std::set<boost::weak_ptr<CTexture>>]: by owner. *)
Definition weak_lt (a b : ptr) : bool := Nat.ltb a b.

(** ** Numbers and their text *)

Definition u8 (x : Z) : Z := x mod 256.
Definition u64 (x : Z) : Z := x mod 2 ^ 64.
Definition u32 (x : Z) : Z := x mod 2 ^ 32.

(** The bytes of an object of [n] bytes, lowest first. *)
Fixpoint raw_bytes (n : nat) (x : Z) : list Z :=
  match n with
  | O => []
  | S n' => (x mod 256) :: raw_bytes n' (x / 256)
  end.

Definition hex_digit (d : Z) : ascii :=
  match d with
  | 0 => "0" | 1 => "1" | 2 => "2" | 3 => "3" | 4 => "4" | 5 => "5"
  | 6 => "6" | 7 => "7" | 8 => "8" | 9 => "9" | 10 => "a" | 11 => "b"
  | 12 => "c" | 13 => "d" | 14 => "e" | _ => "f"
  end%char.

(** [std::hex] output of a non-negative [int]. *)
Fixpoint hex_digits (fuel : nat) (v : Z) (acc : string) : string :=
  match fuel with
  | O => acc
  | S fuel' =>
      let acc' := String (hex_digit (v mod 16)) acc in
      if v / 16 =? 0 then acc' else hex_digits fuel' (v / 16) acc'
  end.

Fixpoint fill (n : nat) (c : ascii) (s : string) : string :=
  match n with
  | O => s
  | S n' => String c (fill n' c s)
  end.

(** [setfill(c) << setw(w)]: pad on the left up to [w] characters. *)
Definition setw (w : nat) (c : ascii) (s : string) : string :=
  fill (w - String.length s) c s.

Definition hex_byte (v : Z) : string := setw 2 "0"%char (hex_digits 8 v EmptyString).

Definition is_hex (c : ascii) : bool :=
  existsb (Ascii.eqb c) (list_ascii_of_string "0123456789abcdef").

Fixpoint string_forallb (f : ascii -> bool) (s : string) : bool :=
  match s with
  | EmptyString => true
  | String c s' => f c && string_forallb f s'
  end.

(** ** GL constants used by [LoadTexture] *)

Definition GL_NEAREST : Z := 0x2600.
Definition GL_LINEAR : Z := 0x2601.
Definition GL_NEAREST_MIPMAP_NEAREST : Z := 0x2700.
Definition GL_LINEAR_MIPMAP_NEAREST : Z := 0x2701.
Definition GL_NEAREST_MIPMAP_LINEAR : Z := 0x2702.
Definition GL_LINEAR_MIPMAP_LINEAR : Z := 0x2703.

(** ** The manager *)

Record FileInfo : Set := mkFileInfo { MTime : Z; Size : Z }.

(** Declared in graphics/TextureConverter.h, maths/MD5.h and
    lib/tex/tex.h, outside this file: the settings types, the folding of
    settings files, the bytes [Settings::Hash] feeds to the hash, the
    digest function and the mipmap flag. *)
Class Collaborators : Type := {
  SettingsFile : Type;
  Settings : Type;
  ComputeSettings : string -> list SettingsFile -> Settings;
  Settings_Hash : Settings -> list Z;
  MD5 : list Z -> list Z;
  TEX_MIPMAPS : Z
}.

Section Manager.

Context {C : Collaborators}.

(** What the collaborators answer during one call. [None] stands for a
    negative [LibError]. *)
Record World : Type := mkWorld {
  GetFilePriority : VfsPath -> option N;
  GetFileInfo : VfsPath -> option FileInfo;
  ogl_tex_load : VfsPath -> Handle;
  ogl_tex_get_format : Handle -> Z;
  ogl_tex_get_average_colour : Handle -> Z -> Z;
  (* handle, then the wrap, anisotropy and filter set on it *)
  ogl_tex_upload : Handle -> Z -> Z -> Z -> Z;
  LoadSettings : VfsPath -> option SettingsFile;
  (* has the worker finished the job in flight, and how *)
  worker_result : option bool
}.

Record Job : Type := mkJob {
  job_texture : ptr;
  job_src : VfsPath;
  job_dest : VfsPath;
  job_settings : Settings
}.

Record Manager : Type := mkManager {
  m_DisableGL : bool;
  m_TextureConverter : list Job;
  m_DefaultHandle : Handle;
  m_ErrorHandle : Handle;
  m_ErrorTexture : option ptr;
  m_TextureCache : list ptr;
  m_HotloadFiles : gmap VfsPath (list ptr);
  m_SettingsFiles : gmap VfsPath (option SettingsFile);
  heap : gmap ptr CTexture
}.

Definition set_converter (c : list Job) (s : Manager) : Manager :=
  mkManager (m_DisableGL s) c (m_DefaultHandle s) (m_ErrorHandle s)
    (m_ErrorTexture s) (m_TextureCache s) (m_HotloadFiles s)
    (m_SettingsFiles s) (heap s).
Definition set_cache (c : list ptr) (s : Manager) : Manager :=
  mkManager (m_DisableGL s) (m_TextureConverter s) (m_DefaultHandle s)
    (m_ErrorHandle s) (m_ErrorTexture s) c (m_HotloadFiles s)
    (m_SettingsFiles s) (heap s).
Definition set_hotload (h : gmap VfsPath (list ptr)) (s : Manager) : Manager :=
  mkManager (m_DisableGL s) (m_TextureConverter s) (m_DefaultHandle s)
    (m_ErrorHandle s) (m_ErrorTexture s) (m_TextureCache s) h
    (m_SettingsFiles s) (heap s).
Definition set_settings (f : gmap VfsPath (option SettingsFile)) (s : Manager) : Manager :=
  mkManager (m_DisableGL s) (m_TextureConverter s) (m_DefaultHandle s)
    (m_ErrorHandle s) (m_ErrorTexture s) (m_TextureCache s)
    (m_HotloadFiles s) f (heap s).
Definition set_heap (h : gmap ptr CTexture) (s : Manager) : Manager :=
  mkManager (m_DisableGL s) (m_TextureConverter s) (m_DefaultHandle s)
    (m_ErrorHandle s) (m_ErrorTexture s) (m_TextureCache s)
    (m_HotloadFiles s) (m_SettingsFiles s) h.

(** [weak_ptr::lock], and the dereference of a shared pointer. *)
Definition lock (s : Manager) (p : ptr) : option CTexture := heap s !! p.

(** An assignment through a pointer: [p->field = ...]. *)
Definition upd (p : ptr) (f : CTexture -> CTexture) (s : Manager) : Manager :=
  set_heap (alter f p (heap s)) s.

(** [p->m_Properties], [p->m_State] and [p->m_Handle]. A shared pointer
    is never dangling; the default key and [None] stand for an address
    with no object, which the manager never dereferences. *)
Definition props_of (s : Manager) (p : ptr) : CTextureProperties :=
  from_option m_Properties (mkProps [] 0 0 0) (lock s p).
Definition path_of (s : Manager) (p : ptr) : VfsPath := m_Path (props_of s p).
Definition state_of (s : Manager) (p : ptr) : option State := m_State <$> lock s p.
Definition handle_of (s : Manager) (p : ptr) : option Handle := m_Handle <$> lock s p.

(** [TextureCacheCmp::operator()] on pointers. *)
Definition cache_lt (s : Manager) (a b : ptr) : bool :=
  TextureCacheCmp (props_of s a) (props_of s b).

(** [m_HotloadFiles[path].insert(texture)]. *)
Definition hotload_insert (path : VfsPath) (texture : ptr) (s : Manager) : Manager :=
  set_hotload
    (<[path := set_insert weak_lt texture (default [] (m_HotloadFiles s !! path))]>
       (m_HotloadFiles s)) s.

(** The constructor. [hDefault] and [hError] are the handles
    [ogl_tex_wrap] returned for the two 1x1 textures, [errorProps] is
    [CTextureProperties(L"(error texture)")]. *)
Definition CTextureManagerImpl (disableGL : bool) (hDefault hError : Handle)
    (errorProps : CTextureProperties) : Manager :=
  if disableGL then mkManager true [] 0 0 None [] ∅ ∅ ∅
  else
    let e : ptr := fresh (∅ : gset ptr) in
    mkManager false [] hDefault hError (Some e) [] ∅ ∅
      {[ e := set_Self (Some e) (set_State LOADED (CTexture_new hError errorProps)) ]}.

Definition GetErrorTexture (s : Manager) : option ptr := m_ErrorTexture s.

(** [CreateTexture]. The search key is a texture of its own, built at a
    free address and destroyed again when an entry is found. *)
Definition CreateTexture (s : Manager) (props : CTextureProperties) : ptr * Manager :=
  let texture : ptr := fresh (dom (heap s)) in
  let s1 := set_heap (<[texture := CTexture_new (m_DefaultHandle s) props]> (heap s)) s in
  match set_find (cache_lt s1) texture (m_TextureCache s1) with
  | Some it => (it, set_heap (delete texture (heap s1)) s1)
  | None =>
      let s2 := upd texture (set_Self (Some texture)) s1 in
      let s3 := set_cache (set_insert (cache_lt s2) texture (m_TextureCache s2)) s2 in
      (texture, hotload_insert (m_Path props) texture s3)
  end.

(** The filter [LoadTexture] passes to [ogl_tex_set_filter]. *)
Definition upload_filter (flags filter : Z) : Z :=
  if Z.land flags TEX_MIPMAPS =? 0 then
    if (filter =? GL_NEAREST_MIPMAP_NEAREST) || (filter =? GL_NEAREST_MIPMAP_LINEAR)
    then GL_NEAREST
    else if (filter =? GL_LINEAR_MIPMAP_NEAREST) || (filter =? GL_LINEAR_MIPMAP_LINEAR)
    then GL_LINEAR
    else filter
  else filter.

(** [LoadTexture] once GL is known to be enabled, on the object [texture]
    points to. The wrap, the anisotropy and the filter set on the handle
    reach the world with the upload. *)
Definition LoadTexture_obj (w : World) (hError : Handle) (path : VfsPath)
    (t : CTexture) : CTexture :=
  let h := ogl_tex_load w path in
  if h <=? 0 then SetHandle hError t
  else
    let flags := ogl_tex_get_format w h in
    let t1 := set_BaseColour (ogl_tex_get_average_colour w h (m_BaseColour t)) t in
    let filter := upload_filter flags (m_Filter (m_Properties t1)) in
    if ogl_tex_upload w h (m_Wrap (m_Properties t1)) (m_Aniso (m_Properties t1)) filter <? 0
    then SetHandle hError t1
    else SetHandle h t1.

(** [LoadTexture]: nothing at all when GL is disabled. *)
Definition LoadTexture (w : World) (s : Manager) (texture : ptr) (path : VfsPath) : Manager :=
  if m_DisableGL s then s
  else upd texture (LoadTexture_obj w (m_ErrorHandle s) path) s.

(** [CanUseArchiveCache]. [difftime] of two integral time stamps is
    their difference. *)
Definition CanUseArchiveCache (w : World) (sourcePath archiveCachePath : VfsPath) : bool :=
  match GetFilePriority w archiveCachePath with
  | None => false
  | Some archiveCachePriority =>
      match GetFilePriority w sourcePath with
      | None => true
      | Some sourcePriority =>
          if (archiveCachePriority <? sourcePriority)%N then false
          else
            match GetFileInfo w sourcePath, GetFileInfo w archiveCachePath with
            | Some sourceInfo, Some archiveCacheInfo =>
                let howMuchNewer := MTime sourceInfo - MTime archiveCacheInfo in
                let threshold := 2 in
                if threshold <? howMuchNewer then false else true
            | _, _ => true
            end
      end
  end.

(** [GetSettingsFile]. *)
Definition GetSettingsFile (w : World) (s : Manager) (path : VfsPath)
    : option SettingsFile * Manager :=
  match m_SettingsFiles s !! path with
  | Some f => (f, s)
  | None =>
      match GetFileInfo w path with
      | Some _ =>
          let settings := LoadSettings w path in
          (settings, set_settings (<[path := settings]> (m_SettingsFiles s)) s)
      | None => (None, set_settings (<[path := None]> (m_SettingsFiles s)) s)
      end
  end.

(** The loop of [GetConverterSettings] over the components that are
    left, [p] being the directory reached. *)
Fixpoint GetConverterSettings_loop (w : World) (texture : ptr) (its : list string)
    (p : VfsPath) (files : list SettingsFile) (s : Manager)
    : list SettingsFile * Manager :=
  match its with
  | [] => (files, s)
  | it :: rest =>
      let settingsPath := p ++ ["textures.xml"%string] in
      let s1 := hotload_insert settingsPath texture s in
      let '(f, s2) := GetSettingsFile w s1 settingsPath in
      let files' := match f with Some f => files ++ [f] | None => files end in
      GetConverterSettings_loop w texture rest (p ++ [it]) files' s2
  end.

Definition GetConverterSettings (w : World) (s : Manager) (texture : ptr)
    : Settings * Manager :=
  let srcPath := path_of s texture in
  let '(files, s') := GetConverterSettings_loop w texture srcPath [] [] s in
  (ComputeSettings (leaf srcPath) files, s').

(** The text [LooseCachePath] builds from the first eight bytes of the
    digest array. *)
Definition digestPrefix (digest : list Z) : string :=
  foldr (fun i acc => (hex_byte (u8 (nth i digest 0)) +:+ acc)%string) EmptyString
    (seq 0 8).

(** The bytes [LooseCachePath] feeds to the hash: [mtime], [size] and
    [version] as they lie in memory, then the settings. [~1] is the [int]
    -2, converted to [u64] for the conjunction. *)
Definition loose_hash_input (fileInfo : FileInfo) (settings : Settings) : list Z :=
  let mtime := Z.land (u64 (MTime fileInfo)) (u64 (Z.lnot 1)) in
  let size := u64 (Size fileInfo) in
  let version := 0 in
  raw_bytes 8 mtime ++ raw_bytes 8 size ++ raw_bytes 4 version ++ Settings_Hash settings.

(** [LooseCachePath]. The empty path is [VfsPath()], returned after the
    warning when the source has disappeared. *)
Definition LooseCachePath (w : World) (s : Manager) (texture : ptr) : VfsPath * Manager :=
  let sourcePath := path_of s texture in
  match GetFileInfo w sourcePath with
  | None => ([], s)
  | Some fileInfo =>
      let '(settings, s1) := GetConverterSettings w s texture in
      let digest := MD5 (loose_hash_input fileInfo settings) in
      let sourceDir := branch_path sourcePath in
      let sourceName := leaf sourcePath in
      (["cache"%string] ++ sourceDir
         ++ [(sourceName +:+ "." +:+ digestPrefix digest +:+ ".dds")%string], s1)
  end.

(** [TryLoadingCached]. *)
Definition TryLoadingCached (w : World) (s : Manager) (texture : ptr) : bool * Manager :=
  let sourcePath := path_of s texture in
  let sourceDir := branch_path sourcePath in
  let sourceName := leaf sourcePath in
  let archiveCachePath := sourceDir ++ [(sourceName +:+ ".dds")%string] in
  if CanUseArchiveCache w sourcePath archiveCachePath
  then (true, LoadTexture w s texture archiveCachePath)
  else
    match GetFileInfo w sourcePath with
    | None => (true, upd texture (SetHandle (m_ErrorHandle s)) s)
    | Some _ =>
        let '(looseCachePath, s1) := LooseCachePath w s texture in
        match GetFileInfo w looseCachePath with
        | Some _ => (true, LoadTexture w s1 texture looseCachePath)
        | None => (false, s1)
        end
    end.

(** Modelled from the spec: [CTextureConverter] is defined in
    graphics/TextureConverter.cpp, which is not part of the sources at
    hand. Following the Conversion Scheduler of the specification, the
    converter is the queue of the jobs submitted and not yet returned by
    [Poll]; [Poll] returns at most one finished job, the oldest, and the
    converter is busy while a job is in flight. *)
Definition Converter_Poll (w : World) (c : list Job)
    : option (ptr * VfsPath * bool) * list Job :=
  match c, worker_result w with
  | j :: c', Some ok => (Some (job_texture j, job_dest j, ok), c')
  | _, _ => (None, c)
  end.

Definition Converter_IsBusy (c : list Job) : bool :=
  match c with [] => false | _ :: _ => true end.

Definition Converter_ConvertTexture (c : list Job) (texture : ptr)
    (src dest : VfsPath) (settings : Settings) : list Job :=
  c ++ [mkJob texture src dest settings].

(** [CTextureManagerImpl::ConvertTexture]. *)
Definition ConvertTexture (w : World) (s : Manager) (texture : ptr) : Manager :=
  let sourcePath := path_of s texture in
  let '(looseCachePath, s1) := LooseCachePath w s texture in
  let '(settings, s2) := GetConverterSettings w s1 texture in
  set_converter
    (Converter_ConvertTexture (m_TextureConverter s2) texture sourcePath
       looseCachePath settings) s2.

(** The scans of [MakeProgress]: the first entry of the cache, in its
    order, that is in state [st]. *)
Definition scan (s : Manager) (st : State) : option ptr :=
  List.find (fun it => bool_decide (state_of s it = Some st)) (m_TextureCache s).

(** [MakeProgress]. *)
Definition MakeProgress (w : World) (s : Manager) : bool * Manager :=
  match Converter_Poll w (m_TextureConverter s) with
  | (Some (texture, dest, ok), c') =>
      let s0 := set_converter c' s in
      let s1 :=
        if ok then LoadTexture w s0 texture dest
        else upd texture (SetHandle (m_ErrorHandle s0)) s0 in
      (true, upd texture (set_State LOADED) s1)
  | (None, c') =>
      let s0 := set_converter c' s in
      let converterBusy := Converter_IsBusy (m_TextureConverter s0) in
      match (if converterBusy then None else scan s0 HIGH_NEEDS_CONVERTING) with
      | Some it =>
          (true, ConvertTexture w (upd it (set_State HIGH_IS_CONVERTING) s0) it)
      | None =>
          match scan s0 PREFETCH_NEEDS_LOADING with
          | Some it =>
              let '(ok, s1) := TryLoadingCached w s0 it in
              (true,
               upd it (set_State (if ok then LOADED else PREFETCH_NEEDS_CONVERTING)) s1)
          | None =>
              match (if converterBusy then None
                     else scan s0 PREFETCH_NEEDS_CONVERTING) with
              | Some it =>
                  (true,
                   ConvertTexture w (upd it (set_State PREFETCH_IS_CONVERTING) s0) it)
              | None => (false, s0)
              end
          end
      end
  end.

(** [ReloadChangedFile]; its result is always [INFO::OK]. *)
Definition reload_one (s : Manager) (it : ptr) : Manager :=
  match lock s it with
  | Some _ =>
      upd it (SetHandle (m_DefaultHandle s)) (upd it (set_State UNLOADED) s)
  | None => s
  end.

Definition ReloadChangedFile (s : Manager) (path : VfsPath) : Manager :=
  let s1 := set_settings (delete path (m_SettingsFiles s)) s in
  match m_HotloadFiles s1 !! path with
  | Some files => foldl reload_one s1 files
  | None => s1
  end.

(** [m_Self.lock()]: the pointer, when the object is still there. *)
Definition weak_lock (s : Manager) (wp : option ptr) : option ptr :=
  match wp with
  | Some p => match lock s p with Some _ => Some p | None => None end
  | None => None
  end.

(** [CTexture::TryLoad], called on the object at [this] (a method is
    called on an object that is alive; with no object nothing happens). *)
Definition TryLoad (w : World) (s : Manager) (this : ptr) : bool * Manager :=
  match lock s this with
  | None => (false, s)
  | Some t =>
      let s' :=
        if bool_decide (m_State t = UNLOADED)
           || bool_decide (m_State t = PREFETCH_NEEDS_LOADING)
           || bool_decide (m_State t = PREFETCH_NEEDS_CONVERTING)
        then
          match weak_lock s (m_Self t) with
          | Some self =>
              if bool_decide (m_State t = PREFETCH_NEEDS_CONVERTING)
              then upd this (set_State HIGH_NEEDS_CONVERTING) s
              else
                let '(ok, s1) := TryLoadingCached w s self in
                if ok then upd this (set_State LOADED) s1
                else upd this (set_State HIGH_NEEDS_CONVERTING) s1
          | None => s
          end
        else s in
      (bool_decide (state_of s' this = Some LOADED), s')
  end.

(** [CTexture::Prefetch]. *)
Definition Prefetch (s : Manager) (this : ptr) : Manager :=
  match lock s this with
  | None => s
  | Some t =>
      if bool_decide (m_State t = UNLOADED) then
        match weak_lock s (m_Self t) with
        | Some _ => upd this (set_State PREFETCH_NEEDS_LOADING) s
        | None => s
        end
      else s
  end.

(** [CTexture::IsLoaded]. *)
Definition IsLoaded (s : Manager) (this : ptr) : bool :=
  bool_decide (state_of s this = Some LOADED).

(** ** Runs of the manager *)

Inductive Op : Type :=
  | OpCreateTexture (props : CTextureProperties)
  | OpTryLoad (w : World) (this : ptr)
  | OpPrefetch (this : ptr)
  | OpMakeProgress (w : World)
  | OpReloadChangedFile (path : VfsPath).

Definition step (s : Manager) (op : Op) : Manager :=
  match op with
  | OpCreateTexture props => snd (CreateTexture s props)
  | OpTryLoad w this => snd (TryLoad w s this)
  | OpPrefetch this => Prefetch s this
  | OpMakeProgress w => snd (MakeProgress w s)
  | OpReloadChangedFile path => ReloadChangedFile s path
  end.

Definition run (s : Manager) (ops : list Op) : Manager := foldl step s ops.

(** The states a manager goes through, from its construction on. *)
Inductive reachable : Manager -> Prop :=
  | reachable_new disableGL hDefault hError errorProps :
      reachable (CTextureManagerImpl disableGL hDefault hError errorProps)
  | reachable_step s op : reachable s -> reachable (step s op).

End Manager.

(** ** The vocabulary of the properties *)

Record StrictTotal {A : Type} (lt : A -> A -> bool) : Prop := {
  st_irrefl : forall a, lt a a = false;
  st_trans : forall a b c, lt a b = true -> lt b c = true -> lt a c = true;
  st_total : forall a b, lt a b = false -> lt b a = false -> a = b
}.

(** One level of a lexicographic comparison on the field [f]. *)
Definition lex_step {A B : Type} (f : A -> B) (ltB : B -> B -> bool)
    (rest : A -> A -> bool) (a b : A) : bool :=
  if ltB (f a) (f b) then true else if ltB (f b) (f a) then false else rest a b.

(** The part of a texture no method of this file assigns, and the part
    only the state machine assigns. *)
Definition ident (t : CTexture) : CTextureProperties * option ptr :=
  (m_Properties t, m_Self t).
Definition skel_of (t : CTexture) : State * (CTextureProperties * option ptr) :=
  (m_State t, ident t).

(** The text of a byte is two hexadecimal digits. *)
Definition hex_pair (v : Z) : bool :=
  match hex_byte v with
  | String c1 (String c2 EmptyString) => is_hex c1 && is_hex c2
  | _ => false
  end.

(** Reading a text of hexadecimal digits back: the value of a lower-case
    digit, and the bytes of a text, two digits a byte, the high digit
    first. The manager has no such function; it says what the text of
    [digestPrefix] stands for. *)
Fixpoint digit_index (c : ascii) (digits : list ascii) (i : Z) : option Z :=
  match digits with
  | [] => None
  | d :: digits' => if Ascii.eqb c d then Some i else digit_index c digits' (i + 1)
  end.

Definition hex_value (c : ascii) : option Z :=
  digit_index c (list_ascii_of_string "0123456789abcdef") 0.

Fixpoint bytes_of_hex (s : string) : option (list Z) :=
  match s with
  | EmptyString => Some []
  | String c1 (String c2 r) =>
      match hex_value c1, hex_value c2, bytes_of_hex r with
      | Some hi, Some lo, Some bytes => Some (16 * hi + lo :: bytes)
      | _, _, _ => None
      end
  | String _ EmptyString => None
  end.

Section Predicates.
Context {C : Collaborators}.

Definition agree {X : Type} (view : CTexture -> X) (s s' : Manager) : Prop :=
  view <$> heap s' = view <$> heap s.

Record rest_eq (s s' : Manager) : Prop := mk_rest_eq {
  re_cache : m_TextureCache s' = m_TextureCache s;
  re_err : m_ErrorTexture s' = m_ErrorTexture s;
  re_hd : m_DefaultHandle s' = m_DefaultHandle s;
  re_he : m_ErrorHandle s' = m_ErrorHandle s;
  re_gl : m_DisableGL s' = m_DisableGL s
}.

(** Kept by the helpers: states, keys, self references, the cache, the
    placeholders and the converter. *)
Definition iframe (s s' : Manager) : Prop :=
  agree skel_of s s' /\ rest_eq s s' /\ m_TextureConverter s' = m_TextureConverter s.

(** Kept by every operation but [CreateTexture]. *)
Definition frame (s s' : Manager) : Prop :=
  agree ident s s' /\ rest_eq s s'.

(** Kept by the settings resolver and the path deriver: every texture. *)
Definition cfg_only (s s' : Manager) : Prop :=
  heap s' = heap s /\ rest_eq s s' /\ m_TextureConverter s' = m_TextureConverter s.

(** Kept also when the converter changes. *)
Definition sframe (s s' : Manager) : Prop := agree skel_of s s' /\ rest_eq s s'.

(** At most the state of [p] differs. *)
Definition one_change (p : ptr) (s s' : Manager) : Prop :=
  frame s s' /\ forall q, q <> p -> state_of s' q = state_of s q.

(** [ReloadChangedFile]: what one notification does to a texture. *)
Definition reset (hDefault : Handle) (t : CTexture) : CTexture :=
  SetHandle hDefault (set_State UNLOADED t).

(** Everything but the textures is the same. *)
Record nonheap_eq (s s' : Manager) : Prop := mk_nonheap_eq {
  nh_rest : rest_eq s s';
  nh_conv : m_TextureConverter s' = m_TextureConverter s;
  nh_hotload : m_HotloadFiles s' = m_HotloadFiles s;
  nh_settings : m_SettingsFiles s' = m_SettingsFiles s
}.

Definition cache_below (s : Manager) (a b : ptr) : Prop := cache_lt s a b = true.

Record Inv (s : Manager) : Prop := mk_Inv {
  (* every texture alive refers to itself *)
  inv_self : forall p t, lock s p = Some t -> m_Self t = Some p;
  (* the cache owns its textures *)
  inv_live : forall p, p ∈ m_TextureCache s -> is_Some (lock s p);
  (* the cache is an ordered set for [TextureCacheCmp] *)
  inv_sorted : StronglySorted (cache_below s) (m_TextureCache s);
  (* at most one conversion in flight *)
  inv_jobs : (length (m_TextureConverter s) <= 1)%nat
}.

(** The cache only grows, and a texture keeps its key. *)
Definition ext (s s' : Manager) : Prop :=
  (forall q, q ∈ m_TextureCache s -> q ∈ m_TextureCache s') /\
  (forall q, is_Some (lock s q) -> is_Some (lock s' q) /\ props_of s' q = props_of s q).

(** [TryLoad] on a texture that is alive and refers to itself. *)
Definition TryLoad_next (w : World) (s : Manager) (this : ptr) (st : State) : Manager :=
  match st with
  | UNLOADED | PREFETCH_NEEDS_LOADING =>
      let c := TryLoadingCached w s this in
      upd this (set_State (if fst c then LOADED else HIGH_NEEDS_CONVERTING)) (snd c)
  | PREFETCH_NEEDS_CONVERTING => upd this (set_State HIGH_NEEDS_CONVERTING) s
  | _ => s
  end.

(** The load of [path] for the texture [t] fails: [ogl_tex_load] returns
    no handle, or [ogl_tex_upload] reports an error. *)
Definition load_fails (w : World) (t : CTexture) (path : VfsPath) : Prop :=
  let h := ogl_tex_load w path in
  h <= 0 \/
  ogl_tex_upload w h (m_Wrap (m_Properties t)) (m_Aniso (m_Properties t))
    (upload_filter (ogl_tex_get_format w h) (m_Filter (m_Properties t))) < 0.

Definition is_reload (op : Op) : bool :=
  match op with OpReloadChangedFile _ => true | _ => false end.

(** The jobs of the converter that are for the texture [p]. *)
Definition jobs_for (p : ptr) (c : list Job) : nat :=
  length (filter (fun j => job_texture j = p) c).

(** Some entry of the cache is in state [st]. *)
Definition waiting (s : Manager) (st : State) : Prop :=
  exists p, p ∈ m_TextureCache s /\ state_of s p = Some st.

(** Every reference of the hotload index is to a texture that is alive. *)
Definition hot_live (s : Manager) : Prop :=
  forall path files p,
    m_HotloadFiles s !! path = Some files -> p ∈ files -> is_Some (lock s p).

(** The index gained at most references to [p]. *)
Definition hot_grow (p : ptr) (s s' : Manager) : Prop :=
  forall path files q,
    m_HotloadFiles s' !! path = Some files -> q ∈ files ->
    q = p \/ exists files0, m_HotloadFiles s !! path = Some files0 /\ q ∈ files0.

End Predicates.

(** ** The rest of the interface *)

Section Interface.
Context {C : Collaborators}.

(** [CTexture::Bind]: [TryLoad], then [ogl_tex_bind(m_Handle, unit)]. The
    result is the handle that is bound. *)
Definition Bind (w : World) (s : Manager) (this : ptr) : option Handle * Manager :=
  let s' := snd (TryLoad w s this) in
  (handle_of s' this, s').

(** [CTexture::GetBaseColour]. *)
Definition GetBaseColour (s : Manager) (this : ptr) : option Z :=
  m_BaseColour <$> lock s this.

End Interface.

(** ** The transitions of the state machine *)

Section Transitions.
Context {C : Collaborators}.

Definition tryload_moves (a b : State) : bool :=
  match a, b with
  | UNLOADED, LOADED | UNLOADED, HIGH_NEEDS_CONVERTING
  | PREFETCH_NEEDS_LOADING, LOADED | PREFETCH_NEEDS_LOADING, HIGH_NEEDS_CONVERTING
  | PREFETCH_NEEDS_CONVERTING, HIGH_NEEDS_CONVERTING => true
  | _, _ => false
  end.

Definition prefetch_moves (a b : State) : bool :=
  match a, b with
  | UNLOADED, PREFETCH_NEEDS_LOADING => true
  | _, _ => false
  end.

Definition progress_moves (a b : State) : bool :=
  match a, b with
  | _, LOADED
  | HIGH_NEEDS_CONVERTING, HIGH_IS_CONVERTING
  | PREFETCH_NEEDS_LOADING, PREFETCH_NEEDS_CONVERTING
  | PREFETCH_NEEDS_CONVERTING, PREFETCH_IS_CONVERTING => true
  | _, _ => false
  end.

Definition reload_moves (a b : State) : bool :=
  match b with UNLOADED => true | _ => false end.

(** The changes of state a call can make. *)
Definition moves (op : Op) : State -> State -> bool :=
  match op with
  | OpCreateTexture _ => fun _ _ => false
  | OpTryLoad _ _ => tryload_moves
  | OpPrefetch _ => prefetch_moves
  | OpMakeProgress _ => progress_moves
  | OpReloadChangedFile _ => reload_moves
  end.

Definition converting (st : State) : bool :=
  match st with
  | HIGH_IS_CONVERTING | PREFETCH_IS_CONVERTING => true
  | _ => false
  end.

Definition is_mipmap_filter (f : Z) : bool :=
  (f =? GL_NEAREST_MIPMAP_NEAREST) || (f =? GL_NEAREST_MIPMAP_LINEAR)
  || (f =? GL_LINEAR_MIPMAP_NEAREST) || (f =? GL_LINEAR_MIPMAP_LINEAR).

End Transitions.

(** ** What a call may do to a texture *)

Section Effects.
Context {C : Collaborators}.

(** What the loading code may make of the texture [t]: the key and the
    self reference stay; the state becomes [LOADED], or the texture was
    not loaded and keeps its handle; and a new handle is the error handle
    or, with GL enabled, a loaded one. *)
Definition advances (s : Manager) (t t' : CTexture) : Prop :=
  ident t' = ident t /\
  (m_State t' = LOADED \/ (m_State t <> LOADED /\ m_Handle t' = m_Handle t)) /\
  (m_Handle t' = m_Handle t \/ m_Handle t' = m_ErrorHandle s \/ m_DisableGL s = false).

(** The textures after a call: as before, or one texture advanced, which
    was not loaded yet or is the one of a job in flight. *)
Definition effect (s s' : Manager) : Prop :=
  heap s' = heap s \/
  exists p g,
    heap s' = alter g p (heap s) /\
    (forall t, lock s p = Some t -> advances s t (g t)) /\
    ((exists t, lock s p = Some t /\ m_State t <> LOADED) \/
     (exists j, j ∈ m_TextureConverter s /\ job_texture j = p)).

(** Who owns what: a texture that is alive is an entry of the cache or the
    error texture; the error texture is there exactly when GL is enabled,
    is no entry of the cache, is [LOADED] and bound to the error handle;
    the hotload index and the converter refer to entries of the cache. *)
Record Owns (s : Manager) : Prop := mk_Owns {
  own_alive : forall p, is_Some (lock s p) ->
                p ∈ m_TextureCache s \/ m_ErrorTexture s = Some p;
  own_error : forall e, m_ErrorTexture s = Some e ->
                (e ∉ m_TextureCache s) /\
                exists t, lock s e = Some t /\ m_State t = LOADED /\
                          m_Handle t = m_ErrorHandle s;
  own_gl : m_ErrorTexture s = None <-> m_DisableGL s = true;
  own_hot : forall path files p,
                m_HotloadFiles s !! path = Some files -> p ∈ files -> p ∈ m_TextureCache s;
  own_jobs : forall j, j ∈ m_TextureConverter s -> job_texture j ∈ m_TextureCache s
}.

(** A texture that is not loaded shows the default placeholder. *)
Definition placeholder_inv (s : Manager) : Prop :=
  forall p t, lock s p = Some t -> m_State t <> LOADED -> m_Handle t = m_DefaultHandle s.

(** With GL disabled there are no handles at all. *)
Definition headless_inv (s : Manager) : Prop :=
  m_DisableGL s = true ->
  m_DefaultHandle s = 0 /\ m_ErrorHandle s = 0 /\
  forall p t, lock s p = Some t -> m_Handle t = 0.

(** A texture that is being converted has its job in the converter. *)
Definition converting_inv (s : Manager) : Prop :=
  forall p st, state_of s p = Some st -> converting st = true ->
    exists j, j ∈ m_TextureConverter s /\ job_texture j = p.

(** Every entry of the cache is registered under its own source path. *)
Definition registered_inv (s : Manager) : Prop :=
  forall p, p ∈ m_TextureCache s -> p ∈ default [] (m_HotloadFiles s !! path_of s p).

(** The index never loses a reference. *)
Definition hot_mono (s s' : Manager) : Prop :=
  forall path p, p ∈ default [] (m_HotloadFiles s !! path) ->
                 p ∈ default [] (m_HotloadFiles s' !! path).

End Effects.

(** ** What loading may do to a texture *)

Section Loading.
Context {C : Collaborators}.

(** What [LoadTexture] and [SetHandle] do to an object: the state, the key
    and the self reference stay, and a new handle is the error handle or,
    with GL enabled, a loaded one. *)
Definition loads (s : Manager) (g : CTexture -> CTexture) : Prop :=
  forall t, skel_of (g t) = skel_of t /\
            (m_Handle (g t) = m_Handle t \/ m_Handle (g t) = m_ErrorHandle s \/
             m_DisableGL s = false).

End Loading.

(** ** The settings files above a texture *)

Section Ancestors.
Context {C : Collaborators}.

(** The [textures.xml] the loop of [GetConverterSettings] reaches in its
    round [k]: the one of the directory made of the first [k] components
    of the path. *)
Definition settings_path (src : VfsPath) (k : nat) : VfsPath :=
  take k src ++ ["textures.xml"%string].

(** [p] is registered in the index under [path]. *)
Definition registered (s : Manager) (path : VfsPath) (p : ptr) : Prop :=
  p ∈ default [] (m_HotloadFiles s !! path).

(** The states in which the settings of a texture have been looked up. *)
Definition settings_known (st : State) : bool :=
  match st with
  | HIGH_NEEDS_CONVERTING | HIGH_IS_CONVERTING
  | PREFETCH_NEEDS_CONVERTING | PREFETCH_IS_CONVERTING => true
  | _ => false
  end.

End Ancestors.

(** ** Textures whose settings were looked up *)

Section Known.
Context {C : Collaborators}.

(** A texture whose settings have been looked up is registered under the
    [textures.xml] of every directory above it. *)
Definition known_inv (s : Manager) : Prop :=
  forall p a, state_of s p = Some a -> settings_known a = true ->
    forall k, (k < length (path_of s p))%nat ->
      registered s (settings_path (path_of s p) k) p.

End Known.

(** ** A small installation, for the examples *)

(** Stand-ins for the collaborators: a settings file is a number, the
    settings are the numbers of the files found, and the digest adds the
    bytes up. *)
Definition ex_collab : Collaborators := {|
  SettingsFile := Z;
  Settings := list Z;
  ComputeSettings := fun _ files => files;
  Settings_Hash := fun settings => settings;
  MD5 := fun bytes => map (fun i => fold_right Z.add (Z.of_nat i) bytes) (seq 1 16);
  TEX_MIPMAPS := 0x100
|}.

Definition ex_src : VfsPath := ["art"; "skin.png"]%string.
Definition ex_archive : VfsPath := ["art"; "skin.png.dds"]%string.
Definition ex_key : CTextureProperties := mkProps ex_src GL_LINEAR_MIPMAP_LINEAR 0x2901 1.
Definition ex_key_aniso : CTextureProperties := mkProps ex_src GL_LINEAR_MIPMAP_LINEAR 0x2901 2.
Definition ex_errprops : CTextureProperties :=
  mkProps ["(error texture)"%string] GL_LINEAR_MIPMAP_LINEAR 0x2901 1.

(** A file system given by its files, with [load] the answer of
    [ogl_tex_load] and [result] the state of the worker. *)
Definition ex_world (files : list (VfsPath * (N * FileInfo))) (load : Handle)
    (result : option bool) : World (C := ex_collab) :=
  let find p := snd <$> List.find (fun f => bool_decide (fst f = p)) files in
  mkWorld (C := ex_collab)
    (fun p => fst <$> find p)
    (fun p => snd <$> find p)
    (fun _ => load)
    (fun _ => 0)
    (fun _ c => c)
    (fun _ _ _ _ => 0)
    (fun _ => None)
    result.

Definition ex_w_absent : World (C := ex_collab) := ex_world [] 7 None.
Definition ex_w_source (mtime : Z) (result : option bool) : World (C := ex_collab) :=
  ex_world [(ex_src, (1%N, mkFileInfo mtime 5))] 7 result.
Definition ex_w_both (srcPrio arcPrio : N) (srcTime arcTime : Z) (load : Handle)
    : World (C := ex_collab) :=
  ex_world [(ex_src, (srcPrio, mkFileInfo srcTime 5));
            (ex_archive, (arcPrio, mkFileInfo arcTime 9))] load None.

Definition ex_new : Manager (C := ex_collab) := CTextureManagerImpl false 1 2 ex_errprops.
Definition ex_created : Manager (C := ex_collab) := step ex_new (OpCreateTexture ex_key).
Definition ex_needs : Manager (C := ex_collab) :=
  step ex_created (OpTryLoad (ex_w_source 100 None) 1%nat).
Definition ex_converting : Manager (C := ex_collab) :=
  step ex_needs (OpMakeProgress (ex_w_source 100 None)).
Definition ex_loaded : Manager (C := ex_collab) :=
  step ex_converting (OpMakeProgress (ex_w_source 100 (Some true))).
Definition ex_texture (st : State) (h : Handle) : CTexture :=
  mkTexture h 0 st ex_key (Some 1%nat).

(** Two entries: the first of the cache was prefetched and missed its
    cache, the second was asked for on demand and missed it too. *)
Definition ex_two : Manager (C := ex_collab) :=
  run ex_new
    [OpCreateTexture ex_key; OpCreateTexture ex_key_aniso; OpPrefetch 1%nat;
     OpMakeProgress (ex_w_source 100 None); OpTryLoad (ex_w_source 100 None) 2%nat].

(** A manager built by hand, whose index holds a reference to a texture
    that is gone. *)
Definition ex_stale : Manager (C := ex_collab) :=
  mkManager (C := ex_collab) false [] 1 2 None [] {[ ex_src := [5%nat] ]} ∅ ∅.

Definition ex_ops : list (Op (C := ex_collab)) :=
  [OpPrefetch 1%nat; OpMakeProgress (ex_w_source 100 None); OpReloadChangedFile ex_src].

(** A manager without GL, with one entry that was asked for. *)
Definition ex_headless : Manager (C := ex_collab) :=
  run (CTextureManagerImpl true 7 8 ex_errprops)
    [OpCreateTexture ex_key; OpTryLoad (ex_w_source 100 None) 0%nat].

(** * Properties *)

(** ** The orders of the cache key *)

Lemma st_asym {A : Type} (lt : A -> A -> bool) (a b : A) :
  StrictTotal lt -> lt a b = true -> lt b a = false.
Proof.
  intros Hst Hab. destruct (lt b a) eqn:Hba; [|reflexivity].
  rewrite <- (st_irrefl lt Hst a). symmetry. eapply st_trans; eauto.
Qed.

Lemma Zltb_strict : StrictTotal Z.ltb.
Proof. split; intros; lia. Qed.

Lemma weak_lt_strict : StrictTotal weak_lt.
Proof.
  unfold weak_lt. split.
  - intros a. apply Nat.ltb_irrefl.
  - intros a b c. rewrite !Nat.ltb_lt. lia.
  - intros a b. rewrite !Nat.ltb_ge. lia.
Qed.

Lemma ascii_compare_lt_trans (a b c : ascii) :
  Ascii.compare a b = Lt -> Ascii.compare b c = Lt -> Ascii.compare a c = Lt.
Proof.
  unfold Ascii.compare. rewrite !N.compare_lt_iff. apply N.lt_trans.
Qed.

Lemma ascii_compare_refl (a : ascii) : Ascii.compare a a = Eq.
Proof. unfold Ascii.compare. apply N.compare_refl. Qed.

Lemma string_compare_refl (a : string) : String.compare a a = Eq.
Proof.
  induction a as [|c a IH]; simpl; [reflexivity|].
  now rewrite ascii_compare_refl.
Qed.

Lemma string_compare_lt_trans (a b c : string) :
  String.compare a b = Lt -> String.compare b c = Lt -> String.compare a c = Lt.
Proof.
  revert b c. induction a as [|x a IH]; intros [|y b] [|z c]; simpl; try congruence.
  destruct (Ascii.compare x y) eqn:Hxy; try discriminate.
  - apply Ascii.compare_eq_iff in Hxy. subst y.
    destruct (Ascii.compare x z); [apply IH|trivial|trivial].
  - intros _. destruct (Ascii.compare y z) eqn:Hyz; try discriminate.
    + apply Ascii.compare_eq_iff in Hyz. subst z. now rewrite Hxy.
    + now rewrite (ascii_compare_lt_trans _ _ _ Hxy Hyz).
Qed.

Lemma wstring_lt_strict : StrictTotal wstring_lt.
Proof.
  unfold wstring_lt. split.
  - intros a. now rewrite string_compare_refl.
  - intros a b c Hab Hbc.
    destruct (String.compare a b) eqn:H1; try discriminate.
    destruct (String.compare b c) eqn:H2; try discriminate.
    now rewrite (string_compare_lt_trans _ _ _ H1 H2).
  - intros a b Hab Hba. apply String.compare_eq_iff.
    rewrite String.compare_antisym in Hab |- *.
    destruct (String.compare b a); simpl in *; congruence.
Qed.

Lemma VfsPath_lt_strict : StrictTotal VfsPath_lt.
Proof.
  pose proof wstring_lt_strict as Hs. split.
  - intros a. induction a as [|x a IH]; simpl; [reflexivity|].
    now rewrite (st_irrefl _ Hs).
  - intros a. induction a as [|x a IH]; intros [|y b] [|z c]; simpl; try congruence.
    destruct (wstring_lt x y) eqn:Hxy.
    + intros _. destruct (wstring_lt y z) eqn:Hyz.
      * now rewrite (st_trans _ Hs _ _ _ Hxy Hyz).
      * destruct (wstring_lt z y) eqn:Hzy; [discriminate|].
        rewrite <- (st_total _ Hs _ _ Hyz Hzy). now rewrite Hxy.
    + destruct (wstring_lt y x) eqn:Hyx; [discriminate|].
      rewrite <- (st_total _ Hs _ _ Hxy Hyx).
      destruct (wstring_lt x z); [reflexivity|].
      destruct (wstring_lt z x); [congruence|]. apply IH.
  - intros a. induction a as [|x a IH]; intros [|y b]; simpl; try congruence.
    destruct (wstring_lt x y) eqn:Hxy; [discriminate|].
    destruct (wstring_lt y x) eqn:Hyx; [discriminate|].
    intros H1 H2. f_equal; [apply (st_total _ Hs _ _ Hxy Hyx)|now apply IH].
Qed.

Lemma TextureCacheCmp_lex (a b : CTextureProperties) :
  TextureCacheCmp a b =
  lex_step m_Path VfsPath_lt
    (lex_step m_Filter Z.ltb
       (lex_step m_Wrap Z.ltb
          (lex_step m_Aniso Z.ltb (fun _ _ => false)))) a b.
Proof. reflexivity. Qed.

Section LexStep.
Context {A B : Type} (f : A -> B) (ltB : B -> B -> bool) (rest : A -> A -> bool).
Hypothesis HB : StrictTotal ltB.

Lemma lex_step_irrefl :
  (forall a, rest a a = false) -> forall a, lex_step f ltB rest a a = false.
Proof. intros Hr a. unfold lex_step. now rewrite (st_irrefl _ HB). Qed.

Lemma lex_step_trans :
  (forall a b c, rest a b = true -> rest b c = true -> rest a c = true) ->
  forall a b c, lex_step f ltB rest a b = true -> lex_step f ltB rest b c = true ->
                lex_step f ltB rest a c = true.
Proof.
  intros Hr a b c. unfold lex_step.
  destruct (ltB (f a) (f b)) eqn:Hab.
  - intros _. destruct (ltB (f b) (f c)) eqn:Hbc.
    + now rewrite (st_trans _ HB _ _ _ Hab Hbc).
    + destruct (ltB (f c) (f b)) eqn:Hcb; [discriminate|].
      rewrite <- (st_total _ HB _ _ Hbc Hcb). now rewrite Hab.
  - destruct (ltB (f b) (f a)) eqn:Hba; [discriminate|].
    rewrite <- (st_total _ HB _ _ Hab Hba).
    destruct (ltB (f a) (f c)); [reflexivity|].
    destruct (ltB (f c) (f a)); [congruence|]. apply Hr.
Qed.

Lemma lex_step_equiv (a b : A) :
  lex_step f ltB rest a b = false -> lex_step f ltB rest b a = false ->
  f a = f b /\ rest a b = false /\ rest b a = false.
Proof.
  unfold lex_step.
  destruct (ltB (f a) (f b)) eqn:Hab; [discriminate|].
  destruct (ltB (f b) (f a)) eqn:Hba; [discriminate|].
  intros H1 H2. split; [apply (st_total _ HB _ _ Hab Hba)|tauto].
Qed.
End LexStep.

Lemma TextureCacheCmp_irrefl (a : CTextureProperties) : TextureCacheCmp a a = false.
Proof.
  rewrite TextureCacheCmp_lex.
  repeat (apply lex_step_irrefl; [first [apply VfsPath_lt_strict | apply Zltb_strict]|intros]).
  reflexivity.
Qed.

Lemma TextureCacheCmp_trans (a b c : CTextureProperties) :
  TextureCacheCmp a b = true -> TextureCacheCmp b c = true -> TextureCacheCmp a c = true.
Proof.
  rewrite !TextureCacheCmp_lex. revert a b c.
  repeat (apply lex_step_trans; [first [apply VfsPath_lt_strict | apply Zltb_strict]|]).
  discriminate.
Qed.

Lemma TextureCacheCmp_total (a b : CTextureProperties) :
  TextureCacheCmp a b = false -> TextureCacheCmp b a = false -> a = b.
Proof.
  rewrite !TextureCacheCmp_lex. intros H1 H2.
  destruct (lex_step_equiv _ _ _ VfsPath_lt_strict _ _ H1 H2) as (Hp & H3 & H4).
  destruct (lex_step_equiv _ _ _ Zltb_strict _ _ H3 H4) as (Hf & H5 & H6).
  destruct (lex_step_equiv _ _ _ Zltb_strict _ _ H5 H6) as (Hw & H7 & H8).
  destruct (lex_step_equiv _ _ _ Zltb_strict _ _ H7 H8) as (Ha & _ & _).
  destruct a, b; simpl in *; congruence.
Qed.

Lemma TextureCacheCmp_strict : StrictTotal TextureCacheCmp.
Proof.
  split; [apply TextureCacheCmp_irrefl|apply TextureCacheCmp_trans|apply TextureCacheCmp_total].
Qed.

Lemma equivalent_eq (a b : CTextureProperties) : equivalent a b = true <-> a = b.
Proof.
  unfold equivalent. rewrite andb_true_iff, !negb_true_iff. split.
  - intros [H1 H2]. now apply TextureCacheCmp_total.
  - intros ->. now rewrite TextureCacheCmp_irrefl.
Qed.

(** ** Ordered sets *)

Section OrderedSetFacts.
Context {A K : Type} (key : A -> K) (ltK : K -> K -> bool).
Hypothesis HK : StrictTotal ltK.

Let lt (a b : A) : bool := ltK (key a) (key b).
Let below (a b : A) : Prop := lt a b = true.

Lemma set_find_Some (x y : A) (l : list A) :
  set_find lt x l = Some y -> y ∈ l /\ key y = key x.
Proof.
  induction l as [|z l IH]; simpl; [discriminate|].
  destruct (lt z x) eqn:Hzx.
  - intros H. destruct (IH H) as [H1 H2]. split; [now right|exact H2].
  - destruct (lt x z) eqn:Hxz; [discriminate|].
    intros [= ->]. split; [now left|]. apply (st_total _ HK); assumption.
Qed.

Lemma set_find_None (x : A) (l : list A) :
  StronglySorted below l -> set_find lt x l = None ->
  forall y, y ∈ l -> key y <> key x.
Proof.
  induction 1 as [|z l Hs IH Hz]; simpl; intros Hf y Hy.
  - inversion Hy.
  - destruct (lt z x) eqn:Hzx.
    + apply elem_of_cons in Hy as [->|Hy]; [|now apply IH].
      intros Heq. unfold lt in Hzx. rewrite Heq, (st_irrefl _ HK) in Hzx. discriminate.
    + destruct (lt x z) eqn:Hxz; [|discriminate].
      intros Heq. apply elem_of_cons in Hy as [->|Hy].
      * unfold lt in Hxz. rewrite Heq, (st_irrefl _ HK) in Hxz. discriminate.
      * rewrite Forall_forall in Hz. specialize (Hz y Hy).
        unfold below, lt in Hz, Hzx. rewrite Heq in Hz. congruence.
Qed.

Lemma sorted_key_inj (l : list A) :
  StronglySorted below l ->
  forall y z, y ∈ l -> z ∈ l -> key y = key z -> y = z.
Proof.
  induction 1 as [|a l Hs IH Ha]; intros y z Hy Hz Heq.
  - inversion Hy.
  - rewrite Forall_forall in Ha.
    apply elem_of_cons in Hy as [->|Hy]; apply elem_of_cons in Hz as [->|Hz];
      [reflexivity| | |now apply IH].
    + specialize (Ha z Hz). unfold below, lt in Ha.
      rewrite Heq, (st_irrefl _ HK) in Ha. discriminate.
    + specialize (Ha y Hy). unfold below, lt in Ha.
      rewrite Heq, (st_irrefl _ HK) in Ha. discriminate.
Qed.

Lemma set_find_elem (x y : A) (l : list A) :
  StronglySorted below l -> y ∈ l -> key y = key x -> set_find lt x l = Some y.
Proof.
  intros Hs Hy Heq. destruct (set_find lt x l) as [z|] eqn:Hf.
  - destruct (set_find_Some _ _ _ Hf) as [Hz Hk].
    f_equal. apply (sorted_key_inj l Hs); congruence.
  - exfalso. exact (set_find_None _ _ Hs Hf y Hy Heq).
Qed.

Lemma set_insert_elem (x z : A) (l : list A) :
  set_find lt x l = None -> z ∈ set_insert lt x l <-> z = x \/ z ∈ l.
Proof.
  induction l as [|y l IH]; simpl.
  - intros _. rewrite list_elem_of_singleton, elem_of_nil. tauto.
  - destruct (lt y x) eqn:Hyx.
    + intros Hf. rewrite !elem_of_cons, (IH Hf). tauto.
    + destruct (lt x y) eqn:Hxy; [|discriminate].
      intros _. rewrite !elem_of_cons. tauto.
Qed.

Lemma set_insert_sorted (x : A) (l : list A) :
  StronglySorted below l -> StronglySorted below (set_insert lt x l).
Proof.
  induction 1 as [|y l Hs IH Hy]; simpl.
  - repeat constructor.
  - destruct (lt y x) eqn:Hyx.
    + constructor; [exact IH|].
      rewrite Forall_forall in Hy |- *. intros z Hz.
      assert (Hcase : z = x \/ z ∈ l).
      { clear -Hz. induction l as [|a l IHl]; simpl in Hz.
        - apply list_elem_of_singleton in Hz. now left.
        - destruct (lt a x).
          + apply elem_of_cons in Hz as [->|Hz]; [right; now left|].
            destruct (IHl Hz); [now left|right; now right].
          + destruct (lt x a).
            * apply elem_of_cons in Hz as [->|Hz]; [now left|now right].
            * now right. }
      destruct Hcase as [->|Hz']; [exact Hyx|now apply Hy].
    + destruct (lt x y) eqn:Hxy.
      * constructor; [now constructor|].
        constructor; [exact Hxy|].
        rewrite Forall_forall in Hy |- *. intros z Hz.
        unfold below, lt in *. eapply (st_trans _ HK); [exact Hxy|now apply Hy].
      * now constructor.
Qed.
End OrderedSetFacts.

(** ** What a call leaves alone *)

Section Frames.
Context {C : Collaborators}.

Lemma agree_refl {X} (view : CTexture -> X) s : agree view s s.
Proof. reflexivity. Qed.

Lemma agree_trans {X} (view : CTexture -> X) s1 s2 s3 :
  agree view s1 s2 -> agree view s2 s3 -> agree view s1 s3.
Proof. unfold agree. congruence. Qed.

Lemma agree_lookup {X} (view : CTexture -> X) s s' p :
  agree view s s' -> view <$> lock s' p = view <$> lock s p.
Proof.
  unfold agree, lock. intros H. rewrite <- !lookup_fmap. now rewrite H.
Qed.

Lemma agree_upd {X} (view : CTexture -> X) (f : CTexture -> CTexture) p s :
  (forall t, view (f t) = view t) -> agree view s (upd p f s).
Proof.
  intros Hf. unfold agree, upd. simpl. apply map_eq. intros i.
  rewrite !lookup_fmap, lookup_alter. case_decide; [subst|reflexivity].
  destruct (heap s !! i); simpl; [now rewrite Hf|reflexivity].
Qed.

Lemma agree_skel_ident s s' : agree skel_of s s' -> agree ident s s'.
Proof.
  unfold agree. intros H.
  change ident with (snd ∘ skel_of). rewrite !map_fmap_compose. now rewrite H.
Qed.

Lemma rest_eq_refl s : rest_eq s s.
Proof. now split. Qed.

Lemma rest_eq_trans s1 s2 s3 : rest_eq s1 s2 -> rest_eq s2 s3 -> rest_eq s1 s3.
Proof. intros [] []. split; congruence. Qed.

Lemma iframe_refl s : iframe s s.
Proof. split; [apply agree_refl|split; [apply rest_eq_refl|reflexivity]]. Qed.

Lemma iframe_trans s1 s2 s3 : iframe s1 s2 -> iframe s2 s3 -> iframe s1 s3.
Proof.
  intros (A1 & R1 & C1) (A2 & R2 & C2). split; [|split].
  - eapply agree_trans; eauto.
  - eapply rest_eq_trans; eauto.
  - congruence.
Qed.

Lemma frame_refl s : frame s s.
Proof. split; [apply agree_refl|apply rest_eq_refl]. Qed.

Lemma frame_trans s1 s2 s3 : frame s1 s2 -> frame s2 s3 -> frame s1 s3.
Proof.
  intros (A1 & R1) (A2 & R2). split.
  - eapply agree_trans; eauto.
  - eapply rest_eq_trans; eauto.
Qed.

Lemma iframe_frame s s' : iframe s s' -> frame s s'.
Proof. intros (A & R & _). split; [now apply agree_skel_ident|exact R]. Qed.

Lemma iframe_state s s' p : iframe s s' -> state_of s' p = state_of s p.
Proof.
  intros (A & _). pose proof (agree_lookup _ _ _ p A) as H.
  unfold state_of, skel_of in *. destruct (lock s' p), (lock s p); simpl in *; congruence.
Qed.

Lemma frame_props s s' p : frame s s' -> props_of s' p = props_of s p.
Proof.
  intros (A & _). pose proof (agree_lookup _ _ _ p A) as H.
  unfold props_of, ident in *. destruct (lock s' p), (lock s p); simpl in *; congruence.
Qed.

Lemma frame_live s s' p : frame s s' -> is_Some (lock s' p) <-> is_Some (lock s p).
Proof.
  intros (A & _). pose proof (agree_lookup _ _ _ p A) as H.
  destruct (lock s' p), (lock s p); simpl in *; try discriminate;
    split; intros [? ?]; try discriminate; eauto.
Qed.

Lemma frame_self s s' p t' :
  frame s s' -> lock s' p = Some t' ->
  exists t, lock s p = Some t /\ m_Self t = m_Self t' /\ m_Properties t = m_Properties t'.
Proof.
  intros (A & _) Hl. pose proof (agree_lookup _ _ _ p A) as H. rewrite Hl in H.
  destruct (lock s p) as [t|]; simpl in *; [|discriminate].
  exists t. unfold ident in H. split; [reflexivity|]. split; congruence.
Qed.

Lemma iframe_upd p f s : (forall t, skel_of (f t) = skel_of t) -> iframe s (upd p f s).
Proof. intros Hf. split; [now apply agree_upd|split; [now split|reflexivity]]. Qed.

Lemma frame_upd p f s : (forall t, ident (f t) = ident t) -> frame s (upd p f s).
Proof. intros Hf. split; [now apply agree_upd|now split]. Qed.

Lemma skel_SetHandle h t : skel_of (SetHandle h t) = skel_of t.
Proof. unfold SetHandle. now case_decide. Qed.

Lemma skel_LoadTexture_obj w h path t : skel_of (LoadTexture_obj w h path t) = skel_of t.
Proof.
  unfold LoadTexture_obj.
  repeat match goal with |- context [if ?b then _ else _] => destruct b end;
    now rewrite ?skel_SetHandle.
Qed.

Lemma ident_set_State st t : ident (set_State st t) = ident t.
Proof. reflexivity. Qed.

Lemma iframe_LoadTexture w s texture path : iframe s (LoadTexture w s texture path).
Proof.
  unfold LoadTexture. destruct (m_DisableGL s); [apply iframe_refl|].
  apply iframe_upd. intros t. apply skel_LoadTexture_obj.
Qed.

Lemma cfg_only_refl s : cfg_only s s.
Proof. split; [reflexivity|split; [apply rest_eq_refl|reflexivity]]. Qed.

Lemma cfg_only_trans s1 s2 s3 : cfg_only s1 s2 -> cfg_only s2 s3 -> cfg_only s1 s3.
Proof.
  intros (A1 & R1 & C1) (A2 & R2 & C2). split; [|split].
  - congruence.
  - eapply rest_eq_trans; eauto.
  - congruence.
Qed.

Lemma cfg_only_iframe s s' : cfg_only s s' -> iframe s s'.
Proof. intros (A & R & Hc). split; [unfold agree; now rewrite A|now split]. Qed.

Lemma cfg_only_lock s s' p : cfg_only s s' -> lock s' p = lock s p.
Proof. intros (A & _). unfold lock. now rewrite A. Qed.

Lemma cfg_only_hotload_insert path texture s : cfg_only s (hotload_insert path texture s).
Proof. split; [reflexivity|split; [now split|reflexivity]]. Qed.

Lemma cfg_only_GetSettingsFile w s path : cfg_only s (snd (GetSettingsFile w s path)).
Proof.
  unfold GetSettingsFile. destruct (m_SettingsFiles s !! path); [apply cfg_only_refl|].
  destruct (GetFileInfo w path); split; try reflexivity; split; try reflexivity; now split.
Qed.

Lemma cfg_only_GetConverterSettings_loop w texture its :
  forall p files s, cfg_only s (snd (GetConverterSettings_loop w texture its p files s)).
Proof.
  induction its as [|it rest IH]; intros p files s; simpl; [apply cfg_only_refl|].
  destruct (GetSettingsFile w (hotload_insert (p ++ ["textures.xml"%string]) texture s)
              (p ++ ["textures.xml"%string])) as [f s2] eqn:E.
  eapply cfg_only_trans; [|apply IH].
  eapply cfg_only_trans; [apply cfg_only_hotload_insert|].
  change s2 with (snd (f, s2)). rewrite <- E. apply cfg_only_GetSettingsFile.
Qed.

Lemma cfg_only_GetConverterSettings w s texture :
  cfg_only s (snd (GetConverterSettings w s texture)).
Proof.
  unfold GetConverterSettings.
  pose proof (cfg_only_GetConverterSettings_loop w texture (path_of s texture) [] [] s) as H.
  destruct (GetConverterSettings_loop w texture (path_of s texture) [] [] s). exact H.
Qed.

Lemma cfg_only_LooseCachePath w s texture : cfg_only s (snd (LooseCachePath w s texture)).
Proof.
  unfold LooseCachePath. destruct (GetFileInfo w (path_of s texture)); [|apply cfg_only_refl].
  pose proof (cfg_only_GetConverterSettings w s texture) as H.
  destruct (GetConverterSettings w s texture). exact H.
Qed.

Lemma iframe_LooseCachePath w s texture : iframe s (snd (LooseCachePath w s texture)).
Proof. apply cfg_only_iframe, cfg_only_LooseCachePath. Qed.

Lemma iframe_TryLoadingCached w s texture : iframe s (snd (TryLoadingCached w s texture)).
Proof.
  unfold TryLoadingCached.
  destruct (CanUseArchiveCache _ _ _); [apply iframe_LoadTexture|].
  destruct (GetFileInfo w (path_of s texture)).
  - pose proof (iframe_LooseCachePath w s texture) as H.
    destruct (LooseCachePath w s texture) as [lp s1]. simpl in H.
    destruct (GetFileInfo w lp); simpl; [|exact H].
    eapply iframe_trans; [exact H|apply iframe_LoadTexture].
  - apply iframe_upd. intros t. apply skel_SetHandle.
Qed.

Lemma sframe_refl s : sframe s s.
Proof. split; [apply agree_refl|apply rest_eq_refl]. Qed.

Lemma sframe_trans s1 s2 s3 : sframe s1 s2 -> sframe s2 s3 -> sframe s1 s3.
Proof.
  intros (A1 & R1) (A2 & R2). split.
  - eapply agree_trans; eauto.
  - eapply rest_eq_trans; eauto.
Qed.

Lemma iframe_sframe s s' : iframe s s' -> sframe s s'.
Proof. intros (A & R & _). now split. Qed.

Lemma sframe_frame s s' : sframe s s' -> frame s s'.
Proof. intros (A & R). split; [now apply agree_skel_ident|exact R]. Qed.

Lemma sframe_set_converter c s : sframe s (set_converter c s).
Proof. split; [reflexivity|now split]. Qed.

Lemma sframe_state s s' p : sframe s s' -> state_of s' p = state_of s p.
Proof.
  intros (A & _). pose proof (agree_lookup _ _ _ p A) as H.
  unfold state_of, skel_of in *. destruct (lock s' p), (lock s p); simpl in *; congruence.
Qed.

Lemma set_converter_id s : set_converter (m_TextureConverter s) s = s.
Proof. now destruct s. Qed.

Lemma lock_upd p f s q :
  lock (upd p f s) q = if decide (p = q) then f <$> lock s p else lock s q.
Proof. unfold lock, upd. simpl. apply lookup_alter. Qed.

Lemma lock_upd_eq p f s : lock (upd p f s) p = f <$> lock s p.
Proof. rewrite lock_upd. now case_decide. Qed.

Lemma lock_upd_ne p f s q : p <> q -> lock (upd p f s) q = lock s q.
Proof. intros H. rewrite lock_upd. now case_decide. Qed.

Lemma state_of_upd_ne p f s q : p <> q -> state_of (upd p f s) q = state_of s q.
Proof. intros H. unfold state_of. now rewrite lock_upd_ne. Qed.

Lemma state_of_upd_set p st s :
  state_of (upd p (set_State st) s) p = (fun _ => st) <$> state_of s p.
Proof. unfold state_of. rewrite lock_upd_eq. now destruct (lock s p). Qed.

Lemma state_of_lock s p t : lock s p = Some t -> state_of s p = Some (m_State t).
Proof. unfold state_of. now intros ->. Qed.

Lemma ConvertTexture_spec w s texture :
  exists s2 job,
    cfg_only s s2 /\ job_texture job = texture /\
    ConvertTexture w s texture = set_converter (m_TextureConverter s ++ [job]) s2.
Proof.
  unfold ConvertTexture.
  pose proof (cfg_only_LooseCachePath w s texture) as H1.
  destruct (LooseCachePath w s texture) as [lp s1]. simpl in H1.
  pose proof (cfg_only_GetConverterSettings w s1 texture) as H2.
  destruct (GetConverterSettings w s1 texture) as [st s2]. simpl in H2.
  exists s2, (mkJob texture (path_of s texture) lp st).
  split; [eapply cfg_only_trans; eauto|]. split; [reflexivity|].
  unfold Converter_ConvertTexture.
  destruct H1 as (_ & _ & E1), H2 as (_ & _ & E2). now rewrite E2, E1.
Qed.

Lemma sframe_ConvertTexture w s texture : sframe s (ConvertTexture w s texture).
Proof.
  destruct (ConvertTexture_spec w s texture) as (s2 & job & H & _ & ->).
  eapply sframe_trans; [apply iframe_sframe, cfg_only_iframe, H|].
  apply sframe_set_converter.
Qed.

(** The scans. *)
Lemma scan_Some s st it :
  scan s st = Some it -> it ∈ m_TextureCache s /\ state_of s it = Some st.
Proof.
  unfold scan. intros H. apply find_some in H as [H1 H2].
  split; [now apply list_elem_of_In|now apply bool_decide_eq_true in H2].
Qed.

Lemma scan_None s st :
  scan s st = None -> forall p, p ∈ m_TextureCache s -> state_of s p <> Some st.
Proof.
  unfold scan. intros H p Hp.
  apply list_elem_of_In in Hp. pose proof (find_none _ _ H p Hp) as H2.
  now apply bool_decide_eq_false in H2.
Qed.

Lemma scan_is_Some s st p :
  p ∈ m_TextureCache s -> state_of s p = Some st -> is_Some (scan s st).
Proof.
  intros Hp Hst. destruct (scan s st) eqn:E; [eauto|].
  exfalso. exact (scan_None _ _ E p Hp Hst).
Qed.

Lemma one_change_upd p st s s1 :
  sframe s s1 -> one_change p s (upd p (set_State st) s1).
Proof.
  intros H. split.
  - eapply frame_trans; [apply sframe_frame, H|]. apply frame_upd. reflexivity.
  - intros q Hq. rewrite state_of_upd_ne by congruence. now apply sframe_state.
Qed.

Lemma one_change_sframe p s s' : sframe s s' -> one_change p s s'.
Proof.
  intros H. split; [now apply sframe_frame|]. intros q _. now apply sframe_state.
Qed.

Lemma one_change_after p s s1 s2 :
  one_change p s s1 -> sframe s1 s2 -> one_change p s s2.
Proof.
  intros [F H] S. split.
  - eapply frame_trans; [exact F|now apply sframe_frame].
  - intros q Hq. rewrite (sframe_state _ _ q S). now apply H.
Qed.

Lemma MakeProgress_one_change w s : exists p, one_change p s (snd (MakeProgress w s)).
Proof.
  unfold MakeProgress.
  destruct (Converter_Poll w (m_TextureConverter s)) as [[[[texture dest] ok]|] c'].
  - exists texture. simpl. apply one_change_upd.
    eapply sframe_trans; [apply sframe_set_converter|].
    destruct ok.
    + apply iframe_sframe, iframe_LoadTexture.
    + apply iframe_sframe, iframe_upd. intros t. apply skel_SetHandle.
  - set (s0 := set_converter c' s).
    assert (H0 : sframe s s0) by apply sframe_set_converter.
    destruct (if Converter_IsBusy (m_TextureConverter s0) then None
              else scan s0 HIGH_NEEDS_CONVERTING) as [it|].
    { exists it. simpl. eapply one_change_after; [|apply sframe_ConvertTexture].
      now apply one_change_upd. }
    destruct (scan s0 PREFETCH_NEEDS_LOADING) as [it|].
    { exists it. pose proof (iframe_TryLoadingCached w s0 it) as H.
      destruct (TryLoadingCached w s0 it) as [ok s1]. simpl in *.
      apply one_change_upd. eapply sframe_trans; [exact H0|now apply iframe_sframe]. }
    destruct (if Converter_IsBusy (m_TextureConverter s0) then None
              else scan s0 PREFETCH_NEEDS_CONVERTING) as [it|].
    { exists it. simpl. eapply one_change_after; [|apply sframe_ConvertTexture].
      now apply one_change_upd. }
    exists O. simpl. now apply one_change_sframe.
Qed.

Lemma TryLoad_one_change w s this : one_change this s (snd (TryLoad w s this)).
Proof.
  unfold TryLoad. destruct (lock s this) as [t|]; simpl;
    [|apply one_change_sframe, sframe_refl].
  destruct (_ || _); [|apply one_change_sframe, sframe_refl].
  destruct (weak_lock s (m_Self t)) as [self|]; [|apply one_change_sframe, sframe_refl].
  destruct (bool_decide (m_State t = PREFETCH_NEEDS_CONVERTING)).
  - apply one_change_upd, sframe_refl.
  - pose proof (iframe_TryLoadingCached w s self) as H.
    destruct (TryLoadingCached w s self) as [ok s1]. simpl in H.
    destruct ok; apply one_change_upd; now apply iframe_sframe.
Qed.

Lemma Prefetch_one_change s this : one_change this s (Prefetch s this).
Proof.
  unfold Prefetch. destruct (lock s this) as [t|]; [|apply one_change_sframe, sframe_refl].
  destruct (bool_decide _); [|apply one_change_sframe, sframe_refl].
  destruct (weak_lock s (m_Self t)); [|apply one_change_sframe, sframe_refl].
  apply one_change_upd, sframe_refl.
Qed.

Lemma conv_TryLoad w s this :
  m_TextureConverter (snd (TryLoad w s this)) = m_TextureConverter s.
Proof.
  unfold TryLoad. destruct (lock s this) as [t|]; simpl; [|reflexivity].
  destruct (_ || _); [|reflexivity].
  destruct (weak_lock s (m_Self t)) as [self|]; [|reflexivity].
  destruct (bool_decide (m_State t = PREFETCH_NEEDS_CONVERTING)); [reflexivity|].
  pose proof (iframe_TryLoadingCached w s self) as (_ & _ & H).
  destruct (TryLoadingCached w s self) as [ok s1]. simpl in H. now destruct ok.
Qed.

Lemma conv_Prefetch s this : m_TextureConverter (Prefetch s this) = m_TextureConverter s.
Proof.
  unfold Prefetch. destruct (lock s this) as [t|]; [|reflexivity].
  destruct (bool_decide _); [|reflexivity].
  now destruct (weak_lock s (m_Self t)).
Qed.

Lemma Converter_Poll_None w c c' : Converter_Poll w c = (None, c') -> c' = c.
Proof.
  unfold Converter_Poll. destruct c as [|j c0]; [congruence|].
  destruct (worker_result w); congruence.
Qed.

Lemma Converter_IsBusy_false c : Converter_IsBusy c = false <-> c = [].
Proof. destruct c; simpl; split; congruence. Qed.

(** The five ways through [MakeProgress]. *)
Lemma MakeProgress_cases w s :
  let c := m_TextureConverter s in
  (exists texture dest ok c',
      Converter_Poll w c = (Some (texture, dest, ok), c') /\
      MakeProgress w s =
        (true,
         upd texture (set_State LOADED)
           (if ok then LoadTexture w (set_converter c' s) texture dest
            else upd texture (SetHandle (m_ErrorHandle s)) (set_converter c' s))))
  \/ (Converter_Poll w c = (None, c) /\
      ((c = [] /\
        exists it, scan s HIGH_NEEDS_CONVERTING = Some it /\
          MakeProgress w s =
            (true, ConvertTexture w (upd it (set_State HIGH_IS_CONVERTING) s) it))
       \/ ((c <> [] \/ scan s HIGH_NEEDS_CONVERTING = None) /\
           exists it, scan s PREFETCH_NEEDS_LOADING = Some it /\
             MakeProgress w s =
               (true,
                upd it
                  (set_State (if fst (TryLoadingCached w s it) then LOADED
                              else PREFETCH_NEEDS_CONVERTING))
                  (snd (TryLoadingCached w s it))))
       \/ (c = [] /\ scan s HIGH_NEEDS_CONVERTING = None /\
           scan s PREFETCH_NEEDS_LOADING = None /\
           exists it, scan s PREFETCH_NEEDS_CONVERTING = Some it /\
             MakeProgress w s =
               (true, ConvertTexture w (upd it (set_State PREFETCH_IS_CONVERTING) s) it))
       \/ ((c <> [] \/ scan s HIGH_NEEDS_CONVERTING = None) /\
           scan s PREFETCH_NEEDS_LOADING = None /\
           (c <> [] \/ scan s PREFETCH_NEEDS_CONVERTING = None) /\
           MakeProgress w s = (false, s)))).
Proof.
  intros c. unfold MakeProgress. fold c.
  destruct (Converter_Poll w c) as [[[[texture dest] ok]|] c'] eqn:EP.
  { left. exists texture, dest, ok, c'. split; [reflexivity|]. reflexivity. }
  right. apply Converter_Poll_None in EP as Hc. subst c'. split; [reflexivity|].
  unfold c. rewrite set_converter_id. fold c.
  destruct (Converter_IsBusy c) eqn:EB.
  - assert (Hne : c <> []).
    { intros E. apply Converter_IsBusy_false in E. congruence. }
    destruct (scan s PREFETCH_NEEDS_LOADING) as [it|] eqn:E2.
    + right. left. split; [now left|]. exists it. split; [reflexivity|].
      now destruct (TryLoadingCached w s it).
    + right. right. right. repeat split; auto.
  - apply Converter_IsBusy_false in EB.
    destruct (scan s HIGH_NEEDS_CONVERTING) as [it|] eqn:E1.
    { left. split; [exact EB|]. exists it. now split. }
    destruct (scan s PREFETCH_NEEDS_LOADING) as [it|] eqn:E2.
    { right. left. split; [now right|]. exists it. split; [reflexivity|].
      now destruct (TryLoadingCached w s it). }
    destruct (scan s PREFETCH_NEEDS_CONVERTING) as [it|] eqn:E3.
    { right. right. left. repeat split; auto. exists it. now split. }
    right. right. right. repeat split; auto.
Qed.

Lemma conv_ConvertTexture w s texture :
  exists job, job_texture job = texture /\
    m_TextureConverter (ConvertTexture w s texture) = m_TextureConverter s ++ [job].
Proof.
  destruct (ConvertTexture_spec w s texture) as (s2 & job & _ & Hj & ->).
  exists job. now split.
Qed.

Lemma Converter_Poll_Some w c r c' :
  Converter_Poll w c = (Some r, c') -> exists j, c = j :: c'.
Proof.
  unfold Converter_Poll. destruct c as [|j c0]; [congruence|].
  destruct (worker_result w); [|congruence]. intros [= _ <-]. now exists j.
Qed.

Lemma conv_LoadTexture w s texture path :
  m_TextureConverter (LoadTexture w s texture path) = m_TextureConverter s.
Proof. now destruct (iframe_LoadTexture w s texture path) as (_ & _ & H). Qed.

Lemma conv_MakeProgress w s :
  (length (m_TextureConverter s) <= 1)%nat ->
  (length (m_TextureConverter (snd (MakeProgress w s))) <= 1)%nat.
Proof.
  intros Hlen.
  destruct (MakeProgress_cases w s)
    as [(texture & dest & ok & c' & HP & ->)
       |(_ & [(Hc & it & _ & ->)|[(_ & it & _ & ->)|[(Hc & _ & _ & it & _ & ->)
                                                    |(_ & _ & _ & ->)]]])]; simpl.
  - apply Converter_Poll_Some in HP as [j Hj]. rewrite Hj in Hlen. simpl in Hlen.
    destruct ok; [rewrite conv_LoadTexture|]; simpl; lia.
  - destruct (conv_ConvertTexture w (upd it (set_State HIGH_IS_CONVERTING) s) it)
      as (job & _ & ->). simpl. now rewrite Hc.
  - pose proof (iframe_TryLoadingCached w s it) as (_ & _ & ->). exact Hlen.
  - destruct (conv_ConvertTexture w (upd it (set_State PREFETCH_IS_CONVERTING) s) it)
      as (job & _ & ->). simpl. now rewrite Hc.
  - exact Hlen.
Qed.

Lemma reset_idem h t : reset h (reset h t) = reset h t.
Proof.
  unfold reset, SetHandle. destruct t as [h0 c st pr sf]. simpl.
  repeat (case_decide; simpl in *); try reflexivity; congruence.
Qed.

Lemma reset_spec h t :
  m_State (reset h t) = UNLOADED /\ m_Handle (reset h t) = h /\
  ident (reset h t) = ident t /\ m_BaseColour (reset h t) = m_BaseColour t.
Proof. unfold reset, SetHandle. case_decide; simpl; auto. Qed.

Lemma nonheap_eq_refl s : nonheap_eq s s.
Proof. split; auto using rest_eq_refl. Qed.

Lemma nonheap_eq_trans s1 s2 s3 : nonheap_eq s1 s2 -> nonheap_eq s2 s3 -> nonheap_eq s1 s3.
Proof. intros [] []. split; [eapply rest_eq_trans; eauto|congruence..]. Qed.

Lemma nonheap_eq_upd p f s : nonheap_eq s (upd p f s).
Proof. split; [now split|reflexivity..]. Qed.

Lemma reload_one_nonheap s it : nonheap_eq s (reload_one s it).
Proof.
  unfold reload_one. destruct (lock s it); [|apply nonheap_eq_refl].
  eapply nonheap_eq_trans; apply nonheap_eq_upd.
Qed.

Lemma reload_one_lock s it q :
  lock (reload_one s it) q =
  if decide (q = it) then reset (m_DefaultHandle s) <$> lock s q else lock s q.
Proof.
  unfold reload_one. destruct (decide (q = it)) as [->|Hne].
  - destruct (lock s it) as [t|] eqn:E; [|now rewrite E].
    rewrite !lock_upd_eq, E. reflexivity.
  - destruct (lock s it) as [t|] eqn:E; [|reflexivity].
    rewrite !lock_upd_ne by congruence. reflexivity.
Qed.

Lemma reload_fold l : forall s,
  nonheap_eq s (foldl reload_one s l) /\
  forall q, lock (foldl reload_one s l) q =
            if decide (q ∈ l) then reset (m_DefaultHandle s) <$> lock s q else lock s q.
Proof.
  induction l as [|it l IH]; intros s.
  - split; [apply nonheap_eq_refl|]. intros q.
    destruct (decide (q ∈ [])) as [H|H]; [now apply elem_of_nil in H|reflexivity].
  - change (foldl reload_one s (it :: l)) with (foldl reload_one (reload_one s it) l).
    destruct (IH (reload_one s it)) as [N L].
    pose proof (reload_one_nonheap s it) as N1.
    split; [eapply nonheap_eq_trans; eauto|].
    intros q. rewrite L, reload_one_lock.
    destruct N1 as [[_ _ Hd _ _] _ _ _]. rewrite Hd.
    destruct (decide (q ∈ l)) as [H1|H1], (decide (q = it)) as [H2|H2],
      (decide (q ∈ it :: l)) as [H3|H3];
      try reflexivity;
      try (exfalso; rewrite elem_of_cons in H3; tauto).
    destruct (lock s q); simpl; [now rewrite reset_idem|reflexivity].
Qed.

Lemma ReloadChangedFile_spec s path :
  let s' := ReloadChangedFile s path in
  rest_eq s s' /\ m_TextureConverter s' = m_TextureConverter s /\
  m_HotloadFiles s' = m_HotloadFiles s /\
  m_SettingsFiles s' = delete path (m_SettingsFiles s) /\
  forall q, lock s' q =
            if decide (q ∈ default [] (m_HotloadFiles s !! path))
            then reset (m_DefaultHandle s) <$> lock s q else lock s q.
Proof.
  unfold ReloadChangedFile. simpl.
  destruct (m_HotloadFiles s !! path) as [files|] eqn:E; simpl.
  - destruct (reload_fold files (set_settings (delete path (m_SettingsFiles s)) s))
      as [[R Hc Hh Hs] L].
    repeat split; try apply R; auto.
  - repeat split; auto.
Qed.

Lemma frame_ReloadChangedFile s path : frame s (ReloadChangedFile s path).
Proof.
  destruct (ReloadChangedFile_spec s path) as (R & _ & _ & _ & L).
  split; [|exact R]. unfold agree. apply map_eq. intros q.
  rewrite !lookup_fmap. fold (lock (ReloadChangedFile s path) q) (lock s q).
  rewrite L. case_decide; [|reflexivity].
  destruct (lock s q) as [t|]; simpl; [|reflexivity].
  f_equal. apply reset_spec.
Qed.

(** ** The invariant of the manager *)

Lemma sorted_ext {A : Type} (R R' : A -> A -> Prop) (l : list A) :
  (forall a b, a ∈ l -> b ∈ l -> R a b -> R' a b) ->
  StronglySorted R l -> StronglySorted R' l.
Proof.
  intros H Hs. induction Hs as [|a l Hs IH Ha]; constructor.
  - apply IH. intros x y Hx Hy. apply H; now right.
  - rewrite Forall_forall in Ha |- *. intros x Hx.
    apply H; [now left|now right|now apply Ha].
Qed.

Lemma set_find_ext {A : Type} (lt lt' : A -> A -> bool) x l :
  (forall a b, lt a b = lt' a b) -> set_find lt x l = set_find lt' x l.
Proof.
  intros H. induction l as [|y l IH]; simpl; [reflexivity|]. now rewrite !H, IH.
Qed.

Lemma set_insert_ext {A : Type} (lt lt' : A -> A -> bool) x l :
  (forall a b, lt a b = lt' a b) -> set_insert lt x l = set_insert lt' x l.
Proof.
  intros H. induction l as [|y l IH]; simpl; [reflexivity|]. now rewrite !H, IH.
Qed.

Lemma Inv_frame s s' :
  Inv s -> frame s s' -> (length (m_TextureConverter s') <= 1)%nat -> Inv s'.
Proof.
  intros [Hself Hlive Hsorted Hjobs] F Hlen.
  pose proof F as (_ & [Hc _ _ _ _]). split.
  - intros p t' Hl. destruct (frame_self _ _ _ _ F Hl) as (t & Ht & Hs & _).
    rewrite <- Hs. now apply Hself.
  - intros p Hp. rewrite Hc in Hp. apply (frame_live _ _ p F). now apply Hlive.
  - rewrite Hc. eapply sorted_ext; [|exact Hsorted].
    intros a b _ _. unfold cache_below, cache_lt. now rewrite !(frame_props _ _ _ F).
  - exact Hlen.
Qed.

Lemma ext_refl s : ext s s.
Proof. split; auto. Qed.

Lemma ext_trans s1 s2 s3 : ext s1 s2 -> ext s2 s3 -> ext s1 s3.
Proof.
  intros [C1 P1] [C2 P2]. split; [auto|].
  intros q Hq. destruct (P1 q Hq) as [L1 E1]. destruct (P2 q L1) as [L2 E2].
  split; [exact L2|congruence].
Qed.

Lemma frame_ext s s' : frame s s' -> ext s s'.
Proof.
  intros F. pose proof F as (_ & [Hc _ _ _ _]). split.
  - intros q. now rewrite Hc.
  - intros q Hq. split; [now apply (frame_live _ _ q F)|now apply frame_props].
Qed.

Lemma set_manager_heap_id s : set_heap (heap s) s = s.
Proof. now destruct s. Qed.

Lemma props_of_upd p f s q :
  (forall t, m_Properties (f t) = m_Properties t) ->
  props_of (upd p f s) q = props_of s q.
Proof.
  intros Hf. unfold props_of. rewrite lock_upd. case_decide; [subst|reflexivity].
  destruct (lock s q); simpl; [apply Hf|reflexivity].
Qed.

(** The two ways through [CreateTexture]. *)
Lemma CreateTexture_cases s props :
  let np := fresh (dom (heap s)) in
  let probe := CTexture_new (m_DefaultHandle s) props in
  let s1 := set_heap (<[np := probe]> (heap s)) s in
  lock s np = None /\
  ((exists it, set_find (cache_lt s1) np (m_TextureCache s) = Some it /\
               CreateTexture s props = (it, s))
   \/ (set_find (cache_lt s1) np (m_TextureCache s) = None /\
       exists s', CreateTexture s props = (np, s') /\
         heap s' = <[np := set_Self (Some np) probe]> (heap s) /\
         m_TextureCache s' = set_insert (cache_lt s1) np (m_TextureCache s) /\
         m_TextureConverter s' = m_TextureConverter s /\
         m_SettingsFiles s' = m_SettingsFiles s /\
         m_ErrorTexture s' = m_ErrorTexture s /\
         m_DefaultHandle s' = m_DefaultHandle s /\
         m_ErrorHandle s' = m_ErrorHandle s /\
         m_DisableGL s' = m_DisableGL s /\
         m_HotloadFiles s' = m_HotloadFiles (hotload_insert (m_Path props) np s))).
Proof.
  intros np probe s1.
  assert (Hfresh : lock s np = None).
  { unfold lock. apply not_elem_of_dom. apply is_fresh. }
  split; [exact Hfresh|].
  unfold CreateTexture. fold np. fold probe. fold s1.
  change (m_TextureCache s1) with (m_TextureCache s).
  destruct (set_find (cache_lt s1) np (m_TextureCache s)) as [it|] eqn:E.
  - left. exists it. split; [reflexivity|]. f_equal.
    unfold s1. simpl. unfold set_heap at 1. simpl.
    rewrite delete_insert_id by exact Hfresh. now destruct s.
  - right. split; [reflexivity|]. eexists. split; [reflexivity|].
    simpl. rewrite alter_insert_eq. split; [reflexivity|].
    split; [|repeat split].
    apply set_insert_ext. intros a b. unfold cache_lt.
    now rewrite !props_of_upd by reflexivity.
Qed.

Lemma props_of_probe s np probe q :
  lock s np = None ->
  props_of (set_heap (<[np := probe]> (heap s)) s) q =
  if decide (q = np) then m_Properties probe else props_of s q.
Proof.
  intros Hf. unfold props_of, lock. simpl. case_decide.
  - subst. now rewrite lookup_insert_eq.
  - now rewrite lookup_insert_ne by congruence.
Qed.

Lemma live_ne_fresh s p np : lock s np = None -> is_Some (lock s p) -> p <> np.
Proof. intros Hf [t Ht] ->. congruence. Qed.

Lemma props_of_probe_new s np probe :
  lock s np = None ->
  props_of (set_heap (<[np := probe]> (heap s)) s) np = m_Properties probe.
Proof. intros Hf. rewrite props_of_probe by exact Hf. now case_decide. Qed.

Lemma props_of_probe_old s np probe q :
  lock s np = None -> is_Some (lock s q) ->
  props_of (set_heap (<[np := probe]> (heap s)) s) q = props_of s q.
Proof.
  intros Hf Hq. rewrite props_of_probe by exact Hf.
  case_decide; [|reflexivity]. exfalso. eapply live_ne_fresh; eauto.
Qed.

Lemma probe_sorted s np probe :
  Inv s -> lock s np = None ->
  StronglySorted (cache_below (set_heap (<[np := probe]> (heap s)) s)) (m_TextureCache s).
Proof.
  intros HI Hf. eapply sorted_ext; [|apply (inv_sorted _ HI)].
  intros a b Ha Hb. unfold cache_below, cache_lt.
  rewrite !props_of_probe_old by eauto using inv_live. tauto.
Qed.

Lemma CreateTexture_found s props p :
  Inv s -> p ∈ m_TextureCache s -> props_of s p = props ->
  CreateTexture s props = (p, s).
Proof.
  intros HI Hp Hprops.
  destruct (CreateTexture_cases s props) as [Hf HC].
  set (np := fresh (dom (heap s))) in *.
  set (probe := CTexture_new (m_DefaultHandle s) props) in *.
  pose proof (probe_sorted s np probe HI Hf) as Hs.
  set (s1 := set_heap (<[np := probe]> (heap s)) s) in *.
  assert (Hk : props_of s1 p = props_of s1 np).
  { unfold s1. rewrite props_of_probe_new by exact Hf.
    rewrite props_of_probe_old by eauto using inv_live. exact Hprops. }
  destruct HC as [(it & E & ->)|(E & _)].
  - f_equal.
    pose proof (set_find_elem (props_of s1) TextureCacheCmp TextureCacheCmp_strict
                  np p (m_TextureCache s) Hs Hp Hk) as H.
    unfold cache_lt in E. congruence.
  - exfalso.
    exact (set_find_None (props_of s1) TextureCacheCmp TextureCacheCmp_strict
             np (m_TextureCache s) Hs E p Hp Hk).
Qed.

Lemma CreateTexture_spec s props :
  Inv s ->
  let r := CreateTexture s props in
  Inv (snd r) /\ ext s (snd r) /\
  fst r ∈ m_TextureCache (snd r) /\ props_of (snd r) (fst r) = props.
Proof.
  intros HI.
  destruct (CreateTexture_cases s props) as [Hf HC].
  set (np := fresh (dom (heap s))) in *.
  set (probe := CTexture_new (m_DefaultHandle s) props) in *.
  pose proof (probe_sorted s np probe HI Hf) as Hs.
  set (s1 := set_heap (<[np := probe]> (heap s)) s) in *.
  assert (Hp1 : forall q, props_of s1 q = if decide (q = np) then props else props_of s q).
  { intros q. unfold s1. now rewrite props_of_probe by exact Hf. }
  destruct HC as [(it & E & ->)
                 |(E & s' & -> & Hh & Hc & Hv & _ & _ & _ & _ & _)]; simpl.
  - split; [exact HI|]. split; [apply ext_refl|].
    apply (set_find_Some (props_of s1) TextureCacheCmp TextureCacheCmp_strict) in E
      as [Hin Hk].
    split; [exact Hin|].
    unfold s1 in Hk. rewrite props_of_probe_new in Hk by exact Hf.
    rewrite props_of_probe_old in Hk by eauto using inv_live. exact Hk.
  - assert (Hlock : forall q, lock s' q =
              if decide (q = np) then Some (set_Self (Some np) probe) else lock s q).
    { intros q. unfold lock. rewrite Hh. case_decide.
      - subst. now rewrite lookup_insert_eq.
      - now rewrite lookup_insert_ne by congruence. }
    assert (Hprops : forall q, props_of s' q =
              if decide (q = np) then props else props_of s q).
    { intros q. unfold props_of. rewrite Hlock. now case_decide. }
    assert (Hmem : forall q, q ∈ m_TextureCache s' <-> q = np \/ q ∈ m_TextureCache s).
    { intros q. rewrite Hc.
      apply (set_insert_elem (props_of s1) TextureCacheCmp).
      exact E. }
    split; [|split; [|split]].
    + split.
      * intros p t. rewrite Hlock. case_decide; [subst; now intros [= <-]|].
        apply (inv_self _ HI).
      * intros p Hp. rewrite Hlock. case_decide; [eauto|].
        apply (inv_live _ HI). apply Hmem in Hp. tauto.
      * rewrite Hc.
        pose proof (set_insert_sorted (props_of s1) TextureCacheCmp TextureCacheCmp_strict
                      np _ Hs) as Hs'.
        eapply sorted_ext; [|exact Hs'].
        intros a b _ _. unfold cache_below, cache_lt.
        rewrite !Hprops, !Hp1. tauto.
      * rewrite Hv. apply (inv_jobs _ HI).
    + split.
      * intros q Hq. apply Hmem. now right.
      * intros q Hq. rewrite Hlock, Hprops.
        pose proof (live_ne_fresh s q np Hf Hq) as Hne.
        destruct (decide (q = np)); [contradiction|now split].
    + apply Hmem. now left.
    + rewrite Hprops. now rewrite decide_True.
Qed.

Lemma step_Inv_ext s op : Inv s -> Inv (step s op) /\ ext s (step s op).
Proof.
  intros HI. destruct op as [props|w this|this|w|path]; simpl.
  - destruct (CreateTexture_spec s props HI) as (H1 & H2 & _). now split.
  - destruct (TryLoad_one_change w s this) as [F _].
    split; [|now apply frame_ext].
    apply (Inv_frame s); [exact HI|exact F|]. rewrite conv_TryLoad. apply (inv_jobs _ HI).
  - destruct (Prefetch_one_change s this) as [F _].
    split; [|now apply frame_ext].
    apply (Inv_frame s); [exact HI|exact F|]. rewrite conv_Prefetch. apply (inv_jobs _ HI).
  - destruct (MakeProgress_one_change w s) as [p [F _]].
    split; [|now apply frame_ext].
    apply (Inv_frame s); [exact HI|exact F|]. apply conv_MakeProgress, (inv_jobs _ HI).
  - pose proof (frame_ReloadChangedFile s path) as F.
    split; [|now apply frame_ext].
    apply (Inv_frame s); [exact HI|exact F|].
    destruct (ReloadChangedFile_spec s path) as (_ & -> & _). apply (inv_jobs _ HI).
Qed.

Lemma run_Inv_ext ops : forall s, Inv s -> Inv (run s ops) /\ ext s (run s ops).
Proof.
  induction ops as [|op ops IH]; intros s HI.
  - split; [exact HI|apply ext_refl].
  - change (run s (op :: ops)) with (run (step s op) ops).
    destruct (step_Inv_ext s op HI) as [H1 E1].
    destruct (IH _ H1) as [H2 E2]. split; [exact H2|eapply ext_trans; eauto].
Qed.

Lemma Inv_new disableGL hDefault hError errorProps :
  Inv (CTextureManagerImpl disableGL hDefault hError errorProps).
Proof.
  unfold CTextureManagerImpl. destruct disableGL; split; simpl;
    try (intros p Hp; now apply elem_of_nil in Hp); try constructor; try lia.
  - intros p t. unfold lock. simpl. now rewrite lookup_empty.
  - intros p t. unfold lock. simpl. rewrite lookup_singleton_Some.
    now intros [<- <-].
Qed.

Lemma reachable_Inv s : reachable s -> Inv s.
Proof.
  induction 1 as [d hd he ep|s op _ IH]; [apply Inv_new|].
  now apply step_Inv_ext.
Qed.
End Frames.

(** ** The texture cache *)

Section CacheClaims.
Context {C : Collaborators}.

(** C1. From any state the manager reaches, a call of [CreateTexture]
    with the key [k1] and a later call with the key [k2], whatever the
    manager is asked in between, return the same pointer exactly when
    the keys are equivalent for [TextureCacheCmp]; and two keys are
    equivalent exactly when their path, filter, wrap and anisotropy are
    all equal. Keys that differ in one field get distinct entries. *)
Theorem C1_CreateTexture_shares_iff_equivalent
    (s : Manager) (k1 k2 : CTextureProperties) (ops : list Op) :
  reachable s ->
  let r1 := CreateTexture s k1 in
  let r2 := CreateTexture (run (snd r1) ops) k2 in
  (fst r1 = fst r2 <-> equivalent k1 k2 = true) /\
  (equivalent k1 k2 = true <->
     m_Path k1 = m_Path k2 /\ m_Filter k1 = m_Filter k2 /\
     m_Wrap k1 = m_Wrap k2 /\ m_Aniso k1 = m_Aniso k2).
Proof.
  intros Hr r1 r2. pose proof (reachable_Inv s Hr) as HI.
  destruct (CreateTexture_spec s k1 HI) as (HI1 & _ & Hin1 & Hk1).
  fold r1 in HI1, Hin1, Hk1.
  destruct (run_Inv_ext ops (snd r1) HI1) as [HI2 [Hc2 Hp2]].
  pose proof (inv_live _ HI1 _ Hin1) as Hlive1.
  destruct (Hp2 _ Hlive1) as [Hlive2 Hk2]. rewrite Hk1 in Hk2.
  split.
  - rewrite equivalent_eq. split.
    + intros Heq.
      destruct (CreateTexture_spec (run (snd r1) ops) k2 HI2) as (_ & [_ Hp3] & _ & Hk3).
      fold r2 in Hp3, Hk3. rewrite <- Heq in Hk3.
      destruct (Hp3 _ Hlive2) as [_ Hk3']. congruence.
    + intros <-. unfold r2.
      now rewrite (CreateTexture_found (run (snd r1) ops) k1 (fst r1) HI2 (Hc2 _ Hin1) Hk2).
  - rewrite equivalent_eq. split.
    + now intros ->.
    + intros (H1 & H2 & H3 & H4). destruct k1, k2; simpl in *; congruence.
Qed.
End CacheClaims.

(** ** The state machine: prefetch *)

Section PrefetchClaims.
Context {C : Collaborators}.

(** C10. [Prefetch] on an entry whose state is not [UNLOADED] changes
    nothing at all: the manager is the same afterwards, so the state and
    the handle of the entry and the queue of the converter are as they
    were. *)
Theorem C10_Prefetch_only_from_UNLOADED (s : Manager) (this : ptr) :
  state_of s this <> Some UNLOADED ->
  Prefetch s this = s /\
  state_of (Prefetch s this) this = state_of s this /\
  handle_of (Prefetch s this) this = handle_of s this /\
  m_TextureConverter (Prefetch s this) = m_TextureConverter s.
Proof.
  intros Hst.
  assert (E : Prefetch s this = s).
  { unfold Prefetch. unfold state_of in Hst.
    destruct (lock s this) as [t|]; [|reflexivity]. simpl in Hst.
    rewrite bool_decide_eq_false_2; [reflexivity|congruence]. }
  now rewrite E.
Qed.
End PrefetchClaims.

(** ** The cache validity policy *)

Section ValidityClaims.
Context {C : Collaborators}.

(** C3. [CanUseArchiveCache] answers: no when there is no archive cache;
    yes when there is one and no source; no when both are there and the
    priority of the source is strictly higher; no when both are there,
    both file infos are available and the source is newer by strictly
    more than 2 seconds; yes in every other case, in particular when
    the source is newer by exactly 2 seconds. *)
Theorem C3_CanUseArchiveCache_table (w : World) (sourcePath archiveCachePath : VfsPath) :
  let use := CanUseArchiveCache w sourcePath archiveCachePath in
  let archive := GetFilePriority w archiveCachePath in
  let source := GetFilePriority w sourcePath in
  (archive = None -> use = false) /\
  (is_Some archive -> source = None -> use = true) /\
  (forall pa ps, archive = Some pa -> source = Some ps -> (pa < ps)%N -> use = false) /\
  (forall si ai, is_Some archive -> is_Some source ->
      GetFileInfo w sourcePath = Some si -> GetFileInfo w archiveCachePath = Some ai ->
      MTime si - MTime ai > 2 -> use = false) /\
  (forall pa ps, archive = Some pa -> source = Some ps -> (ps <= pa)%N ->
      (forall si ai, GetFileInfo w sourcePath = Some si ->
                     GetFileInfo w archiveCachePath = Some ai ->
                     MTime si - MTime ai <= 2) ->
      use = true) /\
  (forall pa ps si ai, archive = Some pa -> source = Some ps -> (ps <= pa)%N ->
      GetFileInfo w sourcePath = Some si -> GetFileInfo w archiveCachePath = Some ai ->
      MTime si - MTime ai = 2 -> use = true).
Proof.
  intros use archive source. unfold use, archive, source, CanUseArchiveCache.
  repeat split.
  - now intros ->.
  - intros [pa ->] ->. reflexivity.
  - intros pa ps -> -> Hlt. apply N.ltb_lt in Hlt. now rewrite Hlt.
  - intros si ai [pa ->] [ps ->] -> -> Hgap.
    destruct (pa <? ps)%N; [reflexivity|].
    assert (H : (2 <? MTime si - MTime ai) = true) by (apply Z.ltb_lt; lia).
    now rewrite H.
  - intros pa ps -> -> Hle Hinfo.
    assert (H : (pa <? ps)%N = false) by (apply N.ltb_ge; lia). rewrite H.
    destruct (GetFileInfo w sourcePath) as [si|]; [|reflexivity].
    destruct (GetFileInfo w archiveCachePath) as [ai|]; [|reflexivity].
    specialize (Hinfo si ai eq_refl eq_refl).
    assert (H2 : (2 <? MTime si - MTime ai) = false) by (apply Z.ltb_ge; lia).
    now rewrite H2.
  - intros pa ps si ai -> -> Hle -> -> Hgap.
    assert (H : (pa <? ps)%N = false) by (apply N.ltb_ge; lia). rewrite H.
    now rewrite Hgap.
Qed.
End ValidityClaims.

(** ** The state machine: loading on demand *)

Section LoadClaims.
Context {C : Collaborators}.

Lemma SetHandle_handle h t : m_Handle (SetHandle h t) = h.
Proof. unfold SetHandle. case_decide; [congruence|reflexivity]. Qed.

Lemma weak_lock_self s this t :
  lock s this = Some t -> m_Self t = Some this -> weak_lock s (m_Self t) = Some this.
Proof. intros Hl ->. simpl. now rewrite Hl. Qed.

Lemma TryLoad_eq w s this t :
  lock s this = Some t -> m_Self t = Some this ->
  TryLoad w s this =
  (bool_decide (state_of (TryLoad_next w s this (m_State t)) this = Some LOADED),
   TryLoad_next w s this (m_State t)).
Proof.
  intros Hl Hs. unfold TryLoad. rewrite Hl, (weak_lock_self s this t Hl Hs).
  unfold TryLoad_next.
  destruct (m_State t); simpl; try reflexivity;
    destruct (TryLoadingCached w s this) as [[|] s1]; reflexivity.
Qed.

Lemma state_after_set s s1 this st :
  is_Some (lock s this) -> sframe s s1 ->
  state_of (upd this (set_State st) s1) this = Some st.
Proof.
  intros [t Ht] F. rewrite state_of_upd_set, (sframe_state _ _ _ F).
  now rewrite (state_of_lock _ _ _ Ht).
Qed.

(** C5. On an entry of a reachable manager, [TryLoad] in state
    [UNLOADED] or [PREFETCH_NEEDS_LOADING] runs [TryLoadingCached] and
    sets the state to [LOADED] when it reports success and to
    [HIGH_NEEDS_CONVERTING] otherwise; in state
    [PREFETCH_NEEDS_CONVERTING] it only sets the state to
    [HIGH_NEEDS_CONVERTING], nothing else of the manager changes (no
    cache load); in every other state the manager is unchanged; and the
    result is true exactly when the state of the entry is [LOADED]
    afterwards. *)
Theorem C5_TryLoad_transitions (w : World) (s : Manager) (this : ptr) (t : CTexture) :
  reachable s -> lock s this = Some t ->
  let r := TryLoad w s this in
  let c := TryLoadingCached w s this in
  ((m_State t = UNLOADED \/ m_State t = PREFETCH_NEEDS_LOADING) ->
     snd r = upd this (set_State (if fst c then LOADED else HIGH_NEEDS_CONVERTING)) (snd c) /\
     state_of (snd r) this = Some (if fst c then LOADED else HIGH_NEEDS_CONVERTING)) /\
  (m_State t = PREFETCH_NEEDS_CONVERTING ->
     snd r = upd this (set_State HIGH_NEEDS_CONVERTING) s /\
     state_of (snd r) this = Some HIGH_NEEDS_CONVERTING) /\
  (m_State t <> UNLOADED -> m_State t <> PREFETCH_NEEDS_LOADING ->
     m_State t <> PREFETCH_NEEDS_CONVERTING -> snd r = s) /\
  (fst r = true <-> state_of (snd r) this = Some LOADED).
Proof.
  intros Hr Hl r c. pose proof (reachable_Inv s Hr) as HI.
  pose proof (inv_self _ HI _ _ Hl) as Hs.
  unfold r. rewrite (TryLoad_eq w s this t Hl Hs). simpl.
  assert (Hlive : is_Some (lock s this)) by eauto.
  repeat split.
  - destruct H as [-> | ->]; reflexivity.
  - destruct H as [-> | ->]; simpl; fold c;
      apply (state_after_set s); auto; apply iframe_sframe, iframe_TryLoadingCached.
  - now rewrite H.
  - rewrite H. simpl. apply (state_after_set s); auto. apply sframe_refl.
  - intros H1 H2 H3. destruct (m_State t); simpl; congruence.
  - apply bool_decide_eq_true_1.
  - apply bool_decide_eq_true_2.
Qed.

Lemma LoadTexture_fail w s this t path :
  lock s this = Some t -> m_DisableGL s = false -> load_fails w t path ->
  handle_of (LoadTexture w s this path) this = Some (m_ErrorHandle s).
Proof.
  intros Hl Hgl Hf. unfold LoadTexture. rewrite Hgl.
  unfold handle_of. rewrite lock_upd_eq, Hl. simpl. f_equal.
  unfold LoadTexture_obj. unfold load_fails in Hf. simpl in Hf.
  destruct (ogl_tex_load w path <=? 0) eqn:E; [apply SetHandle_handle|].
  destruct Hf as [Hf|Hf]; [apply Z.leb_gt in E; lia|].
  simpl. apply Z.ltb_lt in Hf. rewrite Hf. apply SetHandle_handle.
Qed.

Lemma handle_of_upd_state s this st :
  handle_of (upd this (set_State st) s) this = handle_of s this.
Proof. unfold handle_of. rewrite lock_upd_eq. now destruct (lock s this). Qed.

Lemma path_of_lock s this t : lock s this = Some t -> path_of s this = m_Path (m_Properties t).
Proof. unfold path_of, props_of. now intros ->. Qed.

Lemma TryLoad_absorbs w s this t e :
  lock s this = Some t -> m_Self t = Some this ->
  m_State t = UNLOADED \/ m_State t = PREFETCH_NEEDS_LOADING ->
  fst (TryLoadingCached w s this) = true ->
  handle_of (snd (TryLoadingCached w s this)) this = Some e ->
  fst (TryLoad w s this) = true /\
  state_of (snd (TryLoad w s this)) this = Some LOADED /\
  handle_of (snd (TryLoad w s this)) this = Some e /\
  m_TextureConverter (snd (TryLoad w s this)) = m_TextureConverter s.
Proof.
  intros Hl Hs Hst Hok Hh.
  assert (E : snd (TryLoad w s this)
              = upd this (set_State LOADED) (snd (TryLoadingCached w s this))).
  { rewrite (TryLoad_eq w s this t Hl Hs). simpl.
    destruct Hst as [-> | ->]; simpl; now rewrite Hok. }
  assert (Hst' : state_of (snd (TryLoad w s this)) this = Some LOADED).
  { rewrite E. apply (state_after_set s); [eauto|].
    apply iframe_sframe, iframe_TryLoadingCached. }
  split; [|split; [exact Hst'|split]].
  - rewrite (TryLoad_eq w s this t Hl Hs). simpl.
    rewrite (TryLoad_eq w s this t Hl Hs) in Hst'. simpl in Hst'.
    now apply bool_decide_eq_true_2.
  - rewrite E. now rewrite handle_of_upd_state.
  - apply conv_TryLoad.
Qed.

(** C7. On an entry of a reachable manager: when the archive cache
    cannot be used and the source file is absent, [TryLoadingCached]
    puts the error handle in place and reports success, without touching
    the converter; when [ogl_tex_load] or [ogl_tex_upload] fails,
    [LoadTexture] puts the error handle in place; and in each of these
    cases [TryLoad] from [UNLOADED] or [PREFETCH_NEEDS_LOADING] returns
    true with the entry [LOADED] and bound to the error handle, the
    converter being left as it was. *)
Theorem C7_failures_are_absorbed (w : World) (s : Manager) (this : ptr) (t : CTexture) :
  reachable s -> lock s this = Some t ->
  let src := m_Path (m_Properties t) in
  let archive := branch_path src ++ [(leaf src +:+ ".dds")%string] in
  let usable := CanUseArchiveCache w src archive in
  let loose := fst (LooseCachePath w s this) in
  let r := TryLoad w s this in
  let on_demand := m_State t = UNLOADED \/ m_State t = PREFETCH_NEEDS_LOADING in
  let absorbed :=
    fst r = true /\ state_of (snd r) this = Some LOADED /\
    handle_of (snd r) this = Some (m_ErrorHandle s) /\
    m_TextureConverter (snd r) = m_TextureConverter s in
  (usable = false -> GetFileInfo w src = None ->
     TryLoadingCached w s this = (true, upd this (SetHandle (m_ErrorHandle s)) s) /\
     (on_demand -> absorbed)) /\
  (forall path, m_DisableGL s = false -> load_fails w t path ->
     handle_of (LoadTexture w s this path) this = Some (m_ErrorHandle s)) /\
  (usable = true -> m_DisableGL s = false -> load_fails w t archive ->
     on_demand -> absorbed) /\
  (usable = false -> is_Some (GetFileInfo w src) -> is_Some (GetFileInfo w loose) ->
     m_DisableGL s = false -> load_fails w t loose -> on_demand -> absorbed).
Proof.
  intros Hr Hl src archive usable loose r on_demand absorbed.
  pose proof (reachable_Inv s Hr) as HI.
  pose proof (inv_self _ HI _ _ Hl) as Hs.
  pose proof (path_of_lock s this t Hl) as Hp. fold src in Hp.
  split; [|split; [|split]].
  - intros Hu Hsrc.
    assert (E : TryLoadingCached w s this
                = (true, upd this (SetHandle (m_ErrorHandle s)) s)).
    { unfold TryLoadingCached. rewrite Hp. fold archive. fold usable.
      now rewrite Hu, Hsrc. }
    split; [exact E|]. intros Hst.
    apply (TryLoad_absorbs w s this t); auto; rewrite E; [reflexivity|].
    simpl. unfold handle_of. rewrite lock_upd_eq, Hl. simpl.
    now rewrite SetHandle_handle.
  - intros path Hgl Hf. now apply (LoadTexture_fail w s this t).
  - intros Hu Hgl Hf Hst.
    assert (E : TryLoadingCached w s this = (true, LoadTexture w s this archive)).
    { unfold TryLoadingCached. rewrite Hp. fold archive. fold usable. now rewrite Hu. }
    apply (TryLoad_absorbs w s this t); auto; rewrite E; [reflexivity|].
    simpl. now apply (LoadTexture_fail w s this t).
  - intros Hu [si Hsrc] [li Hloose] Hgl Hf Hst.
    pose proof (cfg_only_LooseCachePath w s this) as Hcfg.
    assert (E : TryLoadingCached w s this
                = (true, LoadTexture w (snd (LooseCachePath w s this)) this loose)).
    { unfold TryLoadingCached. rewrite Hp. fold archive. fold usable.
      rewrite Hu, Hsrc. unfold loose in Hloose |- *.
      destruct (LooseCachePath w s this) as [lp s1]. simpl in *. now rewrite Hloose. }
    pose proof Hcfg as (_ & [_ _ _ Hhe Hg] & _).
    apply (TryLoad_absorbs w s this t); auto; rewrite E; [reflexivity|].
    simpl. rewrite <- Hhe. apply (LoadTexture_fail _ _ this t); auto.
    + now rewrite (cfg_only_lock _ _ _ Hcfg).
    + now rewrite Hg.
Qed.
End LoadClaims.

(** ** The hotload index *)

Section HotloadClaims.
Context {C : Collaborators}.

(** C6. [ReloadChangedFile path] forgets the memoized settings file of
    [path]; every texture registered under [path] that is still alive
    ends up [UNLOADED] and bound to the default handle, whatever its
    state was, and keeps its key, its self reference and its colour; no
    texture is destroyed and the cache keeps its entries; and on a
    reachable manager a following [TryLoad] of such an entry runs
    [TryLoadingCached] and goes to [LOADED] or [HIGH_NEEDS_CONVERTING],
    as from a fresh entry. *)
Theorem C6_ReloadChangedFile_resets (s : Manager) (path : VfsPath) :
  let s' := ReloadChangedFile s path in
  m_SettingsFiles s' !! path = None /\
  (forall files p t,
      m_HotloadFiles s !! path = Some files -> p ∈ files -> lock s p = Some t ->
      exists t', lock s' p = Some t' /\
        m_State t' = UNLOADED /\ m_Handle t' = m_DefaultHandle s /\
        m_Properties t' = m_Properties t /\ m_Self t' = m_Self t /\
        m_BaseColour t' = m_BaseColour t) /\
  (forall p, is_Some (lock s' p) <-> is_Some (lock s p)) /\
  m_TextureCache s' = m_TextureCache s /\
  m_DefaultHandle s' = m_DefaultHandle s /\
  (reachable s ->
   forall files p w,
      m_HotloadFiles s !! path = Some files -> p ∈ files -> is_Some (lock s p) ->
      let c := TryLoadingCached w s' p in
      let st := if fst c then LOADED else HIGH_NEEDS_CONVERTING in
      snd (TryLoad w s' p) = upd p (set_State st) (snd c) /\
      state_of (snd (TryLoad w s' p)) p = Some st).
Proof.
  intros s'. destruct (ReloadChangedFile_spec s path) as (R & _ & _ & Hset & L).
  fold s' in R, Hset, L.
  assert (Hreset : forall files p t,
             m_HotloadFiles s !! path = Some files -> p ∈ files -> lock s p = Some t ->
             lock s' p = Some (reset (m_DefaultHandle s) t)).
  { intros files p t Hf Hp Hl. rewrite L, Hf. simpl.
    rewrite decide_True by exact Hp. now rewrite Hl. }
  split; [|split; [|split; [|split; [|split]]]].
  - rewrite Hset. apply lookup_delete_eq.
  - intros files p t Hf Hp Hl. exists (reset (m_DefaultHandle s) t).
    split; [now apply (Hreset files)|].
    destruct (reset_spec (m_DefaultHandle s) t) as (H1 & H2 & H3 & H4).
    unfold ident in H3. repeat split; congruence.
  - intros p. apply frame_live, frame_ReloadChangedFile.
  - apply R.
  - apply R.
  - intros Hr files p w Hf Hp [t Hl] c st.
    pose proof (Hreset files p t Hf Hp Hl) as Hl'.
    pose proof (inv_self _ (reachable_Inv s Hr) _ _ Hl) as Hs.
    destruct (reset_spec (m_DefaultHandle s) t) as (H1 & _ & H3 & _).
    assert (Hs' : m_Self (reset (m_DefaultHandle s) t) = Some p).
    { unfold ident in H3. congruence. }
    rewrite (TryLoad_eq w s' p _ Hl' Hs'). rewrite H1. simpl. fold c. fold st.
    split; [reflexivity|].
    apply (state_after_set s'); [eauto|]. apply iframe_sframe, iframe_TryLoadingCached.
Qed.
End HotloadClaims.

(** ** The progress tick *)

Section ProgressClaims.
Context {C : Collaborators}.

Lemma waiting_scan s st : waiting s st <-> is_Some (scan s st).
Proof.
  split.
  - intros (p & Hp & Hst). now apply (scan_is_Some s st p).
  - intros [it Hit]. exists it. now apply scan_Some.
Qed.

Lemma not_waiting_scan s st : ~ waiting s st <-> scan s st = None.
Proof.
  rewrite waiting_scan. destruct (scan s st); split; intros H;
    try congruence; try (exfalso; apply H; eauto); try (intros [? ?]; congruence).
Qed.

Lemma jobs_for_cons_le p j c : (jobs_for p c <= jobs_for p (j :: c))%nat.
Proof.
  unfold jobs_for. rewrite filter_cons. case_decide; simpl; lia.
Qed.

Lemma jobs_for_other p job : job_texture job <> p -> jobs_for p [job] = O.
Proof.
  intros H. unfold jobs_for. rewrite filter_cons. now rewrite decide_False.
Qed.

(** What a submission does. *)
Lemma submit_facts w s it st1 :
  is_Some (lock s it) ->
  let s' := ConvertTexture w (upd it (set_State st1) s) it in
  state_of s' it = Some st1 /\
  (forall q, q <> it -> state_of s' q = state_of s q) /\
  exists job, job_texture job = it /\
    m_TextureConverter s' = m_TextureConverter s ++ [job].
Proof.
  intros Hl s'.
  pose proof (sframe_ConvertTexture w (upd it (set_State st1) s) it) as F.
  fold s' in F. split; [|split].
  - rewrite (sframe_state _ _ _ F). apply (state_after_set s); auto. apply sframe_refl.
  - intros q Hq. rewrite (sframe_state _ _ _ F). apply state_of_upd_ne. congruence.
  - destruct (conv_ConvertTexture w (upd it (set_State st1) s) it) as (job & Hj & E).
    exists job. split; [exact Hj|exact E].
Qed.

(** What the cache load of a prefetched entry does. *)
Lemma load_facts w s it :
  is_Some (lock s it) ->
  let c := TryLoadingCached w s it in
  let st := if fst c then LOADED else PREFETCH_NEEDS_CONVERTING in
  let s' := upd it (set_State st) (snd c) in
  state_of s' it = Some st /\
  (forall q, q <> it -> state_of s' q = state_of s q) /\
  m_TextureConverter s' = m_TextureConverter s.
Proof.
  intros Hl c st s'. pose proof (iframe_TryLoadingCached w s it) as F. fold c in F.
  split; [|split].
  - apply (state_after_set s); auto. now apply iframe_sframe.
  - intros q Hq. unfold s'. rewrite state_of_upd_ne by congruence.
    now apply iframe_state.
  - now destruct F as (_ & _ & F).
Qed.

(** What the completion of a job does. *)
Lemma poll_facts w s texture dest ok c' :
  Converter_Poll w (m_TextureConverter s) = (Some (texture, dest, ok), c') ->
  let s1 := if ok then LoadTexture w (set_converter c' s) texture dest
            else upd texture (SetHandle (m_ErrorHandle s)) (set_converter c' s) in
  let s' := upd texture (set_State LOADED) s1 in
  sframe s s1 /\
  state_of s' texture = (fun _ => LOADED) <$> state_of s texture /\
  (forall q, q <> texture -> state_of s' q = state_of s q) /\
  m_TextureConverter s' = c' /\
  exists j, m_TextureConverter s = j :: c'.
Proof.
  intros HP s1 s'.
  assert (F : sframe s s1).
  { eapply sframe_trans; [apply (sframe_set_converter c')|]. unfold s1.
    destruct ok; [apply iframe_sframe, iframe_LoadTexture|].
    apply iframe_sframe, iframe_upd. intros t. apply skel_SetHandle. }
  split; [exact F|]. split; [|split; [|split]].
  - unfold s'. now rewrite state_of_upd_set, (sframe_state _ _ _ F).
  - intros q Hq. unfold s'. rewrite state_of_upd_ne by congruence.
    now apply sframe_state.
  - unfold s', s1. destruct ok; simpl; [now rewrite conv_LoadTexture|reflexivity].
  - now apply Converter_Poll_Some in HP.
Qed.

Lemma TryLoad_LOADED w s this t :
  lock s this = Some t -> m_State t = LOADED -> TryLoad w s this = (true, s).
Proof.
  intros Hl Hst. unfold TryLoad. rewrite Hl, Hst. simpl.
  unfold state_of. rewrite Hl. simpl. rewrite Hst. reflexivity.
Qed.

Lemma Prefetch_not_UNLOADED s this t :
  lock s this = Some t -> m_State t <> UNLOADED -> Prefetch s this = s.
Proof.
  intros Hl Hst. unfold Prefetch. rewrite Hl.
  now rewrite bool_decide_eq_false_2.
Qed.

Lemma state_of_Some s p st :
  state_of s p = Some st -> exists t, lock s p = Some t /\ m_State t = st.
Proof.
  unfold state_of. destruct (lock s p) as [t|]; simpl; [|discriminate].
  intros [= <-]. eauto.
Qed.

(** A loaded entry stays loaded, and gets no new job, as long as no file
    change is notified. *)
Lemma step_keeps_LOADED s op p :
  is_reload op = false -> state_of s p = Some LOADED ->
  state_of (step s op) p = Some LOADED /\
  (jobs_for p (m_TextureConverter (step s op)) <= jobs_for p (m_TextureConverter s))%nat.
Proof.
  intros Hop Hst. destruct (state_of_Some _ _ _ Hst) as (t & Hl & Ht).
  destruct op as [props|w this|this|w|path]; simpl in *; [| | | |discriminate].
  - destruct (CreateTexture_cases s props)
      as [Hf [(it & _ & ->)|(_ & s' & -> & Hh & _ & Hv & _)]]; simpl; [split; auto|].
    split; [|now rewrite Hv].
    unfold state_of, lock. rewrite Hh, lookup_insert_ne.
    + exact Hst.
    + intros E. unfold lock in Hf, Hl. rewrite E in Hf. congruence.
  - rewrite conv_TryLoad. split; [|lia].
    destruct (decide (this = p)) as [->|Hne].
    + now rewrite (TryLoad_LOADED w s p t Hl Ht).
    + destruct (TryLoad_one_change w s this) as [_ H]. rewrite H by congruence. exact Hst.
  - rewrite conv_Prefetch. split; [|lia].
    destruct (decide (this = p)) as [->|Hne].
    + rewrite (Prefetch_not_UNLOADED s p t Hl); [exact Hst|congruence].
    + destruct (Prefetch_one_change s this) as [_ H]. rewrite H by congruence. exact Hst.
  - destruct (MakeProgress_cases w s)
      as [(texture & dest & ok & c' & HP & ->)
         |(_ & [(Hc & it & Hs & ->)|[(_ & it & Hs & ->)|[(Hc & _ & _ & it & Hs & ->)
                                                        |(_ & _ & _ & ->)]]])];
      cbn [snd]; [| | | |split; auto].
    + destruct (poll_facts w s texture dest ok c' HP) as (_ & H1 & H2 & H3 & j & H4).
      split.
      * destruct (decide (p = texture)) as [->|Hne]; [now rewrite H1, Hst|].
        now rewrite H2.
      * rewrite H3, H4. apply jobs_for_cons_le.
    + apply scan_Some in Hs as [Hin Hs].
      destruct (state_of_Some _ _ _ Hs) as (ti & Hli & _).
      destruct (submit_facts w s it HIGH_IS_CONVERTING (ex_intro _ ti Hli))
        as (_ & H2 & job & Hj & H3).
      assert (Hne : p <> it) by (intros ->; congruence).
      split; [now rewrite H2|].
      rewrite H3, Hc. simpl. rewrite jobs_for_other by congruence. lia.
    + apply scan_Some in Hs as [Hin Hs].
      destruct (state_of_Some _ _ _ Hs) as (ti & Hli & _).
      destruct (load_facts w s it (ex_intro _ ti Hli)) as (_ & H2 & H3).
      assert (Hne : p <> it) by (intros ->; congruence).
      split; [now rewrite H2|]. rewrite H3. lia.
    + apply scan_Some in Hs as [Hin Hs].
      destruct (state_of_Some _ _ _ Hs) as (ti & Hli & _).
      destruct (submit_facts w s it PREFETCH_IS_CONVERTING (ex_intro _ ti Hli))
        as (_ & H2 & job & Hj & H3).
      assert (Hne : p <> it) by (intros ->; congruence).
      split; [now rewrite H2|].
      rewrite H3, Hc. simpl. rewrite jobs_for_other by congruence. lia.
Qed.

Lemma run_keeps_LOADED ops : forall s p,
  existsb is_reload ops = false -> state_of s p = Some LOADED ->
  state_of (run s ops) p = Some LOADED /\
  (jobs_for p (m_TextureConverter (run s ops)) <= jobs_for p (m_TextureConverter s))%nat.
Proof.
  induction ops as [|op ops IH]; intros s p Hops Hst; [split; auto|].
  simpl in Hops. apply orb_false_iff in Hops as [Hop Hops].
  change (run s (op :: ops)) with (run (step s op) ops).
  destruct (step_keeps_LOADED s op p Hop Hst) as [H1 H2].
  destruct (IH (step s op) p Hops H1) as [H3 H4]. split; [exact H3|lia].
Qed.

(** C4. When [MakeProgress] polls a finished job for a texture that is
    alive, it returns true and the texture is [LOADED], whether the
    conversion succeeded or not: after a failure the handle is the error
    handle; after a success the texture is what [LoadTexture] of the
    produced file makes of it, with the handle of the loaded file when
    that load succeeds. The job leaves the converter. As long as no file
    change is notified, whatever the manager is asked afterwards, the
    texture stays [LOADED] and no new job is submitted for it. *)
Theorem C4_completion_ends_in_LOADED
    (w : World) (s : Manager) (texture : ptr) (dest : VfsPath) (ok : bool)
    (c' : list Job) (t : CTexture) (ops : list Op) :
  Converter_Poll w (m_TextureConverter s) = (Some (texture, dest, ok), c') ->
  lock s texture = Some t ->
  existsb is_reload ops = false ->
  let r := MakeProgress w s in
  fst r = true /\
  state_of (snd r) texture = Some LOADED /\
  lock (snd r) texture =
    Some (set_State LOADED
            (if ok then (if m_DisableGL s then t
                         else LoadTexture_obj w (m_ErrorHandle s) dest t)
             else SetHandle (m_ErrorHandle s) t)) /\
  (ok = false -> handle_of (snd r) texture = Some (m_ErrorHandle s)) /\
  (ok = true -> m_DisableGL s = false -> ~ load_fails w t dest ->
     handle_of (snd r) texture = Some (ogl_tex_load w dest)) /\
  m_TextureConverter (snd r) = c' /\
  state_of (run (snd r) ops) texture = Some LOADED /\
  (jobs_for texture (m_TextureConverter (run (snd r) ops))
   <= jobs_for texture (m_TextureConverter (snd r)))%nat.
Proof.
  intros HP Hl Hops r.
  assert (Er : r = (true,
              upd texture (set_State LOADED)
                (if ok then LoadTexture w (set_converter c' s) texture dest
                 else upd texture (SetHandle (m_ErrorHandle s)) (set_converter c' s)))).
  { unfold r, MakeProgress. now rewrite HP. }
  destruct (poll_facts w s texture dest ok c' HP) as (F & H1 & _ & H3 & _).
  assert (Hst : state_of (snd r) texture = Some LOADED).
  { rewrite Er. simpl. rewrite H1. now rewrite (state_of_lock _ _ _ Hl). }
  assert (Hlock : lock (snd r) texture =
    Some (set_State LOADED
            (if ok then (if m_DisableGL s then t
                         else LoadTexture_obj w (m_ErrorHandle s) dest t)
             else SetHandle (m_ErrorHandle s) t))).
  { rewrite Er. simpl. rewrite lock_upd_eq. destruct ok.
    - unfold LoadTexture. simpl. destruct (m_DisableGL s).
      + change (lock (set_converter c' s) texture) with (lock s texture). now rewrite Hl.
      + rewrite lock_upd_eq.
        change (lock (set_converter c' s) texture) with (lock s texture). now rewrite Hl.
    - rewrite lock_upd_eq.
      change (lock (set_converter c' s) texture) with (lock s texture). now rewrite Hl. }
  split; [now rewrite Er|]. split; [exact Hst|]. split; [exact Hlock|].
  split; [|split; [|split]].
  - intros ->. unfold handle_of. rewrite Hlock. simpl. now rewrite SetHandle_handle.
  - intros -> Hgl Hnf. unfold handle_of. rewrite Hlock, Hgl. simpl. f_equal.
    unfold load_fails in Hnf. simpl in Hnf. unfold LoadTexture_obj.
    destruct (ogl_tex_load w dest <=? 0) eqn:E1.
    { exfalso. apply Hnf. left. now apply Z.leb_le. }
    simpl.
    destruct (ogl_tex_upload w (ogl_tex_load w dest) (m_Wrap (m_Properties t))
                (m_Aniso (m_Properties t))
                (upload_filter (ogl_tex_get_format w (ogl_tex_load w dest))
                   (m_Filter (m_Properties t))) <? 0) eqn:E2.
    { exfalso. apply Hnf. right. now apply Z.ltb_lt. }
    apply SetHandle_handle.
  - rewrite Er. exact H3.
  - now apply run_keeps_LOADED.
Qed.

Ltac scan_contra :=
  exfalso;
  repeat match goal with
         | H : _ \/ _ |- _ => destruct H
         | H : scan _ _ = None |- _ => apply not_waiting_scan in H
         | H : scan ?s ?st = Some ?it |- _ =>
             assert (waiting s st) by (apply waiting_scan; rewrite H; eauto); clear H
         end;
  first [tauto | congruence].

Lemma app_one_not_self {A : Type} (l : list A) (x : A) : l <> l ++ [x].
Proof.
  intros E. apply (f_equal length) in E. rewrite length_app in E. simpl in E. lia.
Qed.

Lemma cons_not_app_one {A : Type} (l : list A) (j x : A) : l <> (j :: l) ++ [x].
Proof.
  intros E. apply (f_equal length) in E. simpl in E. rewrite length_app in E.
  simpl in E. lia.
Qed.

(** C2. One call of [MakeProgress] changes the state of at most one
    entry, and changes nothing when it returns false. In this order: a
    finished job, when [Poll] returns one, is applied and nothing else
    is done; otherwise, when the converter has no job and an entry of
    the cache is [HIGH_NEEDS_CONVERTING], one such entry becomes
    [HIGH_IS_CONVERTING] and its job is the only one of the converter;
    otherwise, when an entry is [PREFETCH_NEEDS_LOADING], whether the
    converter is busy or not, [TryLoadingCached] is run for one such
    entry, which becomes [LOADED] or [PREFETCH_NEEDS_CONVERTING], and no
    job is submitted; otherwise, when the converter has no job and an
    entry is [PREFETCH_NEEDS_CONVERTING], one such entry becomes
    [PREFETCH_IS_CONVERTING] and its job is the only one of the
    converter; otherwise the call returns false. The converter never
    holds more than one job, and a job submitted while an entry is
    [HIGH_NEEDS_CONVERTING] is for such an entry. *)
Theorem C2_MakeProgress_one_step_by_priority (w : World) (s : Manager) :
  let r := MakeProgress w s in
  let polled := fst (Converter_Poll w (m_TextureConverter s)) in
  let idle := m_TextureConverter s = [] in
  (forall p q, state_of (snd r) p <> state_of s p ->
               state_of (snd r) q <> state_of s q -> p = q) /\
  (fst r = false -> snd r = s) /\
  (forall texture dest ok, polled = Some (texture, dest, ok) ->
      fst r = true /\
      (is_Some (lock s texture) -> state_of (snd r) texture = Some LOADED) /\
      (forall q, q <> texture -> state_of (snd r) q = state_of s q) /\
      exists j, m_TextureConverter s = j :: m_TextureConverter (snd r)) /\
  (polled = None -> idle -> waiting s HIGH_NEEDS_CONVERTING ->
      fst r = true /\
      exists it job,
        it ∈ m_TextureCache s /\ state_of s it = Some HIGH_NEEDS_CONVERTING /\
        state_of (snd r) it = Some HIGH_IS_CONVERTING /\
        (forall q, q <> it -> state_of (snd r) q = state_of s q) /\
        job_texture job = it /\ m_TextureConverter (snd r) = [job]) /\
  (polled = None -> ~ idle \/ ~ waiting s HIGH_NEEDS_CONVERTING ->
   waiting s PREFETCH_NEEDS_LOADING ->
      fst r = true /\
      exists it,
        it ∈ m_TextureCache s /\ state_of s it = Some PREFETCH_NEEDS_LOADING /\
        let c := TryLoadingCached w s it in
        let st := if fst c then LOADED else PREFETCH_NEEDS_CONVERTING in
        snd r = upd it (set_State st) (snd c) /\
        state_of (snd r) it = Some st /\
        (forall q, q <> it -> state_of (snd r) q = state_of s q) /\
        m_TextureConverter (snd r) = m_TextureConverter s) /\
  (polled = None -> idle -> ~ waiting s HIGH_NEEDS_CONVERTING ->
   ~ waiting s PREFETCH_NEEDS_LOADING -> waiting s PREFETCH_NEEDS_CONVERTING ->
      fst r = true /\
      exists it job,
        it ∈ m_TextureCache s /\ state_of s it = Some PREFETCH_NEEDS_CONVERTING /\
        state_of (snd r) it = Some PREFETCH_IS_CONVERTING /\
        (forall q, q <> it -> state_of (snd r) q = state_of s q) /\
        job_texture job = it /\ m_TextureConverter (snd r) = [job]) /\
  (polled = None -> ~ idle \/ ~ waiting s HIGH_NEEDS_CONVERTING ->
   ~ waiting s PREFETCH_NEEDS_LOADING ->
   ~ idle \/ ~ waiting s PREFETCH_NEEDS_CONVERTING ->
      fst r = false) /\
  ((length (m_TextureConverter s) <= 1)%nat ->
   (length (m_TextureConverter (snd r)) <= 1)%nat) /\
  (reachable s -> (length (m_TextureConverter (snd r)) <= 1)%nat) /\
  (forall job, m_TextureConverter (snd r) = m_TextureConverter s ++ [job] ->
      idle /\
      (waiting s HIGH_NEEDS_CONVERTING ->
       state_of s (job_texture job) = Some HIGH_NEEDS_CONVERTING)).
Proof.
  cbv zeta.
  assert (Hbound : (length (m_TextureConverter s) <= 1)%nat ->
                   (length (m_TextureConverter (snd (MakeProgress w s))) <= 1)%nat)
    by apply conv_MakeProgress.
  assert (Hreach : reachable s ->
                   (length (m_TextureConverter (snd (MakeProgress w s))) <= 1)%nat).
  { intros Hr. apply Hbound, inv_jobs, reachable_Inv, Hr. }
  destruct (MakeProgress_cases w s)
    as [(texture & dest & ok & c' & HP & E)
       |(HP & [(Hc & it & Hs & E)|[(Hd & it & Hs & E)|[(Hc & H1 & H2 & it & Hs & E)
                                                      |(Hd & H2 & Hd3 & E)]]])];
    rewrite E in *; rewrite HP; cbn [fst snd] in *; clear E.
  - (* a finished job *)
    destruct (poll_facts w s texture dest ok c' HP) as (_ & F1 & F2 & F3 & j & F4).
    repeat split; try discriminate.
    + intros p q Hp Hq.
      destruct (decide (p = texture)) as [->|Hp']; [|exfalso; now apply Hp, F2].
      destruct (decide (q = texture)) as [->|Hq']; [reflexivity|exfalso; now apply Hq, F2].
    + injection H as <- <- <-. intros [t Ht]. rewrite F1.
      now rewrite (state_of_lock _ _ _ Ht).
    + injection H as <- <- <-. exact F2.
    + injection H as <- <- <-. exists j. now rewrite F3.
    + exact Hbound.
    + exact Hreach.
    + rewrite F3, F4 in H. now apply cons_not_app_one in H.
    + rewrite F3, F4 in H. now apply cons_not_app_one in H.
  - (* a high priority submission *)
    pose proof (scan_Some _ _ _ Hs) as [Hin Hst].
    destruct (state_of_Some _ _ _ Hst) as (ti & Hli & _).
    destruct (submit_facts w s it HIGH_IS_CONVERTING (ex_intro _ ti Hli))
      as (F1 & F2 & job & Hj & F3).
    rewrite Hc in F3. simpl in F3.
    repeat split; try discriminate; try (intros; scan_contra); try exact Hbound;
      try exact Hreach; try exact Hc.
    + intros p q Hp Hq.
      destruct (decide (p = it)) as [->|Hp']; [|exfalso; now apply Hp, F2].
      destruct (decide (q = it)) as [->|Hq']; [reflexivity|exfalso; now apply Hq, F2].
    + exists it, job. repeat split; auto.
    + intros _. rewrite F3, Hc in H. injection H as <-. now rewrite Hj.
  - (* a cache load *)
    pose proof (scan_Some _ _ _ Hs) as [Hin Hst].
    destruct (state_of_Some _ _ _ Hst) as (ti & Hli & _).
    destruct (load_facts w s it (ex_intro _ ti Hli)) as (F1 & F2 & F3).
    repeat split; try discriminate; try (intros; scan_contra); try exact Hbound;
      try exact Hreach.
    + intros p q Hp Hq.
      destruct (decide (p = it)) as [->|Hp']; [|exfalso; now apply Hp, F2].
      destruct (decide (q = it)) as [->|Hq']; [reflexivity|exfalso; now apply Hq, F2].
    + exists it. repeat split; auto.
    + rewrite F3 in H. now apply app_one_not_self in H.
    + rewrite F3 in H. now apply app_one_not_self in H.
  - (* a prefetch submission *)
    pose proof (scan_Some _ _ _ Hs) as [Hin Hst].
    destruct (state_of_Some _ _ _ Hst) as (ti & Hli & _).
    destruct (submit_facts w s it PREFETCH_IS_CONVERTING (ex_intro _ ti Hli))
      as (F1 & F2 & job & Hj & F3).
    rewrite Hc in F3. simpl in F3.
    repeat split; try discriminate; try (intros; scan_contra); try exact Hbound;
      try exact Hreach; try exact Hc.
    + intros p q Hp Hq.
      destruct (decide (p = it)) as [->|Hp']; [|exfalso; now apply Hp, F2].
      destruct (decide (q = it)) as [->|Hq']; [reflexivity|exfalso; now apply Hq, F2].
    + exists it, job. repeat split; auto.
  - (* nothing to do *)
    repeat split; try discriminate; try (intros; scan_contra); try exact Hbound;
      try exact Hreach; try (intros; congruence).
    + now apply app_one_not_self in H.
    + now apply app_one_not_self in H.
Qed.
End ProgressClaims.

(** ** The loose cache path *)

Section PathClaims.
Context {C : Collaborators}.

Lemma hex_pair_table : forallb (fun n => hex_pair (Z.of_nat n)) (seq 0 256) = true.
Proof. vm_compute. reflexivity. Qed.

Lemma hex_byte_u8 (x : Z) :
  exists c1 c2, hex_byte (u8 x) = String c1 (String c2 EmptyString) /\
                is_hex c1 = true /\ is_hex c2 = true.
Proof.
  assert (Hr : 0 <= u8 x < 256) by (unfold u8; apply Z.mod_pos_bound; lia).
  pose proof hex_pair_table as T. rewrite forallb_forall in T.
  specialize (T (Z.to_nat (u8 x))). rewrite Z2Nat.id in T by lia.
  assert (Hin : In (Z.to_nat (u8 x)) (seq 0 256)) by (apply in_seq; lia).
  specialize (T Hin). unfold hex_pair in T.
  destruct (hex_byte (u8 x)) as [|c1 [|c2 [|c3 r]]]; try discriminate.
  apply andb_true_iff in T as [T1 T2]. now exists c1, c2.
Qed.

Lemma digestPrefix_shape (digest : list Z) :
  String.length (digestPrefix digest) = 16%nat /\
  string_forallb is_hex (digestPrefix digest) = true.
Proof.
  unfold digestPrefix. simpl.
  repeat match goal with
         | |- context [hex_byte (u8 ?x)] =>
             let c1 := fresh "c" in
             let c2 := fresh "c" in
             let E := fresh "E" in
             let H1 := fresh "H" in
             let H2 := fresh "H" in
             destruct (hex_byte_u8 x) as (c1 & c2 & E & H1 & H2);
             rewrite E; clear E
         end.
  simpl. split; [reflexivity|].
  repeat match goal with H : is_hex _ = true |- _ => rewrite H; clear H end.
  reflexivity.
Qed.

(** Masking the lowest bit of a 64-bit time stamp forgets that bit only. *)
Lemma masked_mtime_div2 (m1 m2 : Z) :
  m1 / 2 = m2 / 2 ->
  Z.land (u64 m1) (u64 (Z.lnot 1)) = Z.land (u64 m2) (u64 (Z.lnot 1)).
Proof.
  intros H. apply Z.bits_inj'. intros n Hn. rewrite !Z.land_spec. unfold u64.
  destruct (Z.lt_ge_cases n 64) as [Hlt|Hge].
  - rewrite !Z.mod_pow2_bits_low by lia.
    destruct (Z.eq_dec n 0) as [->|Hnz].
    + change (Z.testbit (Z.lnot 1) 0) with false. now rewrite !andb_false_r.
    + f_equal. replace n with (Z.succ (n - 1)) by lia.
      rewrite <- !Z.div2_bits by lia. now rewrite H.
  - rewrite !Z.mod_pow2_bits_high by lia. reflexivity.
Qed.

Lemma LooseCachePath_fst w s texture fileInfo :
  GetFileInfo w (path_of s texture) = Some fileInfo ->
  fst (LooseCachePath w s texture) =
  ["cache"%string] ++ branch_path (path_of s texture)
    ++ [(leaf (path_of s texture) +:+ "." +:+
         digestPrefix
           (MD5 (loose_hash_input fileInfo (fst (GetConverterSettings w s texture))))
         +:+ ".dds")%string].
Proof.
  intros H. unfold LooseCachePath. rewrite H.
  now destruct (GetConverterSettings w s texture).
Qed.

Lemma hex_byte_table :
  forallb (fun n => String.eqb (hex_byte (Z.of_nat n))
                      (String (hex_digit (Z.of_nat n / 16))
                         (String (hex_digit (Z.of_nat n mod 16)) EmptyString)))
          (seq 0 256) = true.
Proof. vm_compute. reflexivity. Qed.

Lemma hex_byte_format (x : Z) :
  hex_byte (u8 x)
  = String (hex_digit (u8 x / 16)) (String (hex_digit (u8 x mod 16)) EmptyString).
Proof.
  assert (Hr : 0 <= u8 x < 256) by (unfold u8; apply Z.mod_pos_bound; lia).
  pose proof hex_byte_table as T. rewrite forallb_forall in T.
  specialize (T (Z.to_nat (u8 x))). rewrite Z2Nat.id in T by lia.
  apply String.eqb_eq, T, in_seq. lia.
Qed.

Lemma hex_digit_table :
  forallb (fun i => forallb (fun j =>
             implb (Ascii.eqb (hex_digit (Z.of_nat i)) (hex_digit (Z.of_nat j)))
                   (Nat.eqb i j)) (seq 0 16)) (seq 0 16) = true.
Proof. vm_compute. reflexivity. Qed.

Lemma hex_digit_inj (a b : Z) :
  0 <= a < 16 -> 0 <= b < 16 -> hex_digit a = hex_digit b -> a = b.
Proof.
  intros Ha Hb E. pose proof hex_digit_table as T. rewrite forallb_forall in T.
  specialize (T (Z.to_nat a) (ltac:(apply in_seq; lia))). rewrite forallb_forall in T.
  specialize (T (Z.to_nat b) (ltac:(apply in_seq; lia))).
  rewrite !Z2Nat.id in T by lia. rewrite E, Ascii.eqb_refl in T. simpl in T.
  apply Nat.eqb_eq in T. lia.
Qed.

Lemma hex_byte_inj (x y : Z) : hex_byte (u8 x) = hex_byte (u8 y) -> u8 x = u8 y.
Proof.
  rewrite !hex_byte_format. intros [= E1 E2].
  assert (Hx : 0 <= u8 x < 256) by (unfold u8; apply Z.mod_pos_bound; lia).
  assert (Hy : 0 <= u8 y < 256) by (unfold u8; apply Z.mod_pos_bound; lia).
  apply hex_digit_inj in E1; [|split; [apply Z.div_pos; lia|apply Z.div_lt_upper_bound; lia]
                              |split; [apply Z.div_pos; lia|apply Z.div_lt_upper_bound; lia]].
  apply hex_digit_inj in E2; [|apply Z.mod_pos_bound; lia|apply Z.mod_pos_bound; lia].
  rewrite (Z.div_mod (u8 x) 16), (Z.div_mod (u8 y) 16) by lia. congruence.
Qed.

Lemma hex_value_table :
  forallb (fun n => match hex_value (hex_digit (Z.of_nat n)) with
                    | Some v => Z.eqb v (Z.of_nat n)
                    | None => false
                    end) (seq 0 16) = true.
Proof. vm_compute. reflexivity. Qed.

Lemma hex_value_digit (d : Z) : 0 <= d < 16 -> hex_value (hex_digit d) = Some d.
Proof.
  intros Hd. pose proof hex_value_table as T. rewrite forallb_forall in T.
  specialize (T (Z.to_nat d) (ltac:(apply in_seq; lia))).
  rewrite Z2Nat.id in T by lia.
  destruct (hex_value (hex_digit d)) as [v|]; [|discriminate].
  apply Z.eqb_eq in T. now subst.
Qed.

Lemma bytes_of_hex_byte (x : Z) (r : string) :
  bytes_of_hex (hex_byte (u8 x) +:+ r) = cons (u8 x) <$> bytes_of_hex r.
Proof.
  assert (Hx : 0 <= u8 x < 256) by (unfold u8; apply Z.mod_pos_bound; lia).
  rewrite hex_byte_format. simpl.
  rewrite !hex_value_digit;
    [|apply Z.mod_pos_bound; lia
     |split; [apply Z.div_pos; lia|apply Z.div_lt_upper_bound; lia]].
  rewrite <- (Z.div_mod (u8 x) 16) by lia.
  change ("" +:+ r)%string with r. now destruct (bytes_of_hex r).
Qed.

Lemma digestPrefix_bytes (digest : list Z) :
  bytes_of_hex (digestPrefix digest)
  = Some (map (fun i => u8 (nth i digest 0)) (seq 0 8)).
Proof.
  unfold digestPrefix. cbn [seq foldr map]. now rewrite !bytes_of_hex_byte.
Qed.

(** Masking with [~1] clears the lowest bit of the 64-bit time stamp. *)
Lemma masked_mtime_even (m : Z) :
  Z.land (u64 m) (u64 (Z.lnot 1)) = 2 * (u64 m / 2).
Proof.
  apply Z.bits_inj'. intros n Hn. rewrite Z.land_spec. unfold u64.
  destruct (Z.eq_dec n 0) as [->|Hnz].
  - rewrite Z.testbit_even_0.
    rewrite (Z.mod_pow2_bits_low (Z.lnot 1)) by lia.
    change (Z.testbit (Z.lnot 1) 0) with false. apply andb_false_r.
  - replace n with (Z.succ (n - 1)) at 3 by lia.
    rewrite Z.testbit_even_succ by lia.
    rewrite Z.div2_bits by lia. replace (Z.succ (n - 1)) with n by lia.
    destruct (Z.lt_ge_cases n 64) as [Hlt|Hge].
    + rewrite (Z.mod_pow2_bits_low (Z.lnot 1)) by lia.
      rewrite Z.lnot_spec by lia.
      replace (Z.testbit 1 n) with false; [apply andb_true_r|].
      symmetry. apply (Z.bits_above_log2 1 n); simpl; lia.
    + rewrite !Z.mod_pow2_bits_high by lia. reflexivity.
Qed.
(** C8. For a source file that exists, the loose cache path is
    [cache/<sourceDir>/<sourceName>.<digestPrefix>.dds]. The digest is
    taken of the modification time with its lowest bit cleared, the size,
    the version 0 and the settings, in this order; [digestPrefix] is
    sixteen lower-case hexadecimal digits, and read back two digits a
    byte they are the first eight bytes of the digest. Two derivations
    for the same source path with the same size, the same resolved
    settings and modification times that are equal once the lowest bit
    is masked (in particular times that differ in the lowest bit only)
    give the same path. *)
Theorem C8_LooseCachePath_deterministic
    (w1 w2 : World) (s1 s2 : Manager) (t1 t2 : ptr) (fi1 fi2 : FileInfo) :
  path_of s1 t1 = path_of s2 t2 ->
  GetFileInfo w1 (path_of s1 t1) = Some fi1 ->
  GetFileInfo w2 (path_of s2 t2) = Some fi2 ->
  Size fi1 = Size fi2 ->
  Z.land (u64 (MTime fi1)) (u64 (Z.lnot 1)) = Z.land (u64 (MTime fi2)) (u64 (Z.lnot 1))
  \/ MTime fi1 / 2 = MTime fi2 / 2 ->
  fst (GetConverterSettings w1 s1 t1) = fst (GetConverterSettings w2 s2 t2) ->
  let src := path_of s1 t1 in
  let settings := fst (GetConverterSettings w1 s1 t1) in
  let digest := MD5 (loose_hash_input fi1 settings) in
  fst (LooseCachePath w1 s1 t1) = fst (LooseCachePath w2 s2 t2) /\
  fst (LooseCachePath w1 s1 t1) =
    ["cache"%string] ++ branch_path src
      ++ [(leaf src +:+ "." +:+ digestPrefix digest +:+ ".dds")%string] /\
  String.length (digestPrefix digest) = 16%nat /\
  string_forallb is_hex (digestPrefix digest) = true /\
  bytes_of_hex (digestPrefix digest)
  = Some (map (fun i => u8 (nth i digest 0)) (seq 0 8)) /\
  loose_hash_input fi1 settings
  = raw_bytes 8 (2 * (u64 (MTime fi1) / 2)) ++ raw_bytes 8 (u64 (Size fi1))
      ++ raw_bytes 4 0 ++ Settings_Hash settings.
Proof.
  intros Hsrc H1 H2 Hsize Hm Hset src settings digest.
  assert (Hmask : Z.land (u64 (MTime fi1)) (u64 (Z.lnot 1))
                  = Z.land (u64 (MTime fi2)) (u64 (Z.lnot 1))).
  { destruct Hm as [Hm|Hm]; [exact Hm|now apply masked_mtime_div2]. }
  rewrite (LooseCachePath_fst w1 s1 t1 fi1 H1), (LooseCachePath_fst w2 s2 t2 fi2 H2).
  split; [|split; [reflexivity|]].
  - rewrite <- Hsrc, <- Hset. unfold loose_hash_input. now rewrite Hmask, Hsize.
  - destruct (digestPrefix_shape digest) as [Hlen Hhex].
    split; [exact Hlen|]. split; [exact Hhex|]. split; [apply digestPrefix_bytes|].
    unfold loose_hash_input. now rewrite masked_mtime_even.
Qed.
End PathClaims.

(** ** No reference expires while the manager lives *)

Section HotloadLive.
Context {C : Collaborators}.

Lemma set_insert_elem_inv {A : Type} (lt : A -> A -> bool) (x z : A) (l : list A) :
  z ∈ set_insert lt x l -> z = x \/ z ∈ l.
Proof.
  induction l as [|a l IH]; simpl.
  - rewrite list_elem_of_singleton. tauto.
  - destruct (lt a x).
    + rewrite !elem_of_cons. intros [->|H]; [tauto|]. destruct (IH H); tauto.
    + destruct (lt x a); rewrite !elem_of_cons; tauto.
Qed.

Lemma hot_grow_refl p s : hot_grow p s s.
Proof. intros path files q H1 H2. right. eauto. Qed.

Lemma hot_grow_trans p s1 s2 s3 : hot_grow p s1 s2 -> hot_grow p s2 s3 -> hot_grow p s1 s3.
Proof.
  intros G1 G2 path files q H1 H2.
  destruct (G2 path files q H1 H2) as [->|(f0 & H3 & H4)]; [now left|].
  exact (G1 path f0 q H3 H4).
Qed.

Lemma hot_grow_same p s s' : m_HotloadFiles s' = m_HotloadFiles s -> hot_grow p s s'.
Proof. intros E path files q H1 H2. right. rewrite E in H1. eauto. Qed.

Lemma hot_grow_hotload_insert path p s : hot_grow p s (hotload_insert path p s).
Proof.
  intros path' files q. unfold hotload_insert. simpl.
  destruct (decide (path = path')) as [<-|Hne].
  - rewrite lookup_insert_eq. intros [= <-] Hq.
    apply set_insert_elem_inv in Hq as [->|Hq]; [now left|right].
    destruct (m_HotloadFiles s !! path) as [f0|]; simpl in Hq; [eauto|].
    now apply elem_of_nil in Hq.
  - rewrite lookup_insert_ne by exact Hne. intros H1 H2. right. eauto.
Qed.

Lemma hot_GetSettingsFile w s path :
  m_HotloadFiles (snd (GetSettingsFile w s path)) = m_HotloadFiles s.
Proof.
  unfold GetSettingsFile. destruct (m_SettingsFiles s !! path); [reflexivity|].
  now destruct (GetFileInfo w path).
Qed.

Lemma hot_grow_GetConverterSettings_loop w texture its :
  forall p files s,
    hot_grow texture s (snd (GetConverterSettings_loop w texture its p files s)).
Proof.
  induction its as [|it rest IH]; intros p files s; simpl; [apply hot_grow_refl|].
  pose proof (hot_GetSettingsFile w
                (hotload_insert (p ++ ["textures.xml"%string]) texture s)
                (p ++ ["textures.xml"%string])) as E.
  destruct (GetSettingsFile w (hotload_insert (p ++ ["textures.xml"%string]) texture s)
              (p ++ ["textures.xml"%string])) as [f s2].
  cbn [snd] in E.
  eapply hot_grow_trans; [|apply IH].
  eapply hot_grow_trans; [apply hot_grow_hotload_insert|apply hot_grow_same, E].
Qed.

Lemma hot_grow_GetConverterSettings w s texture :
  hot_grow texture s (snd (GetConverterSettings w s texture)).
Proof.
  unfold GetConverterSettings.
  pose proof (hot_grow_GetConverterSettings_loop w texture (path_of s texture) [] [] s) as H.
  destruct (GetConverterSettings_loop w texture (path_of s texture) [] [] s). exact H.
Qed.

Lemma hot_grow_LooseCachePath w s texture :
  hot_grow texture s (snd (LooseCachePath w s texture)).
Proof.
  unfold LooseCachePath. destruct (GetFileInfo w (path_of s texture)); [|apply hot_grow_refl].
  pose proof (hot_grow_GetConverterSettings w s texture) as H.
  destruct (GetConverterSettings w s texture). exact H.
Qed.

Lemma hot_LoadTexture w s texture path :
  m_HotloadFiles (LoadTexture w s texture path) = m_HotloadFiles s.
Proof. unfold LoadTexture. now destruct (m_DisableGL s). Qed.

Lemma hot_grow_TryLoadingCached w s texture :
  hot_grow texture s (snd (TryLoadingCached w s texture)).
Proof.
  unfold TryLoadingCached.
  destruct (CanUseArchiveCache _ _ _); [apply hot_grow_same, hot_LoadTexture|].
  destruct (GetFileInfo w (path_of s texture)); [|now apply hot_grow_same].
  pose proof (hot_grow_LooseCachePath w s texture) as H.
  destruct (LooseCachePath w s texture) as [lp s1]. simpl in H.
  destruct (GetFileInfo w lp); simpl; [|exact H].
  eapply hot_grow_trans; [exact H|apply hot_grow_same, hot_LoadTexture].
Qed.

Lemma hot_grow_ConvertTexture w s texture : hot_grow texture s (ConvertTexture w s texture).
Proof.
  unfold ConvertTexture.
  pose proof (hot_grow_LooseCachePath w s texture) as H1.
  destruct (LooseCachePath w s texture) as [lp s1]. simpl in H1.
  pose proof (hot_grow_GetConverterSettings w s1 texture) as H2.
  destruct (GetConverterSettings w s1 texture) as [st s2]. simpl in H2.
  eapply hot_grow_trans; [exact H1|]. eapply hot_grow_trans; [exact H2|].
  now apply hot_grow_same.
Qed.

Lemma hot_live_grow p s s' :
  hot_live s -> is_Some (lock s p) -> hot_grow p s s' -> frame s s' -> hot_live s'.
Proof.
  intros HL Hp G F path files q H1 H2. apply (frame_live _ _ q F).
  destruct (G path files q H1 H2) as [->|(f0 & H3 & H4)]; [exact Hp|].
  exact (HL path f0 q H3 H4).
Qed.

Lemma hot_grow_MakeProgress w s :
  exists p, (is_Some (lock s p) \/ m_HotloadFiles (snd (MakeProgress w s)) = m_HotloadFiles s)
            /\ hot_grow p s (snd (MakeProgress w s)).
Proof.
  destruct (MakeProgress_cases w s)
    as [(texture & dest & ok & c' & HP & ->)
       |(_ & [(Hc & it & Hs & ->)|[(_ & it & Hs & ->)|[(Hc & _ & _ & it & Hs & ->)
                                                      |(_ & _ & _ & ->)]]])];
    cbn [snd].
  - exists texture.
    assert (E : m_HotloadFiles
                  (upd texture (set_State LOADED)
                     (if ok then LoadTexture w (set_converter c' s) texture dest
                      else upd texture (SetHandle (m_ErrorHandle s)) (set_converter c' s)))
                = m_HotloadFiles s).
    { destruct ok; simpl; [now rewrite hot_LoadTexture|reflexivity]. }
    split; [now right|now apply hot_grow_same].
  - apply scan_Some in Hs as [_ Hs]. destruct (state_of_Some _ _ _ Hs) as (t & Ht & _).
    exists it. split; [left; eauto|].
    eapply hot_grow_trans; [|apply hot_grow_ConvertTexture]. now apply hot_grow_same.
  - apply scan_Some in Hs as [_ Hs]. destruct (state_of_Some _ _ _ Hs) as (t & Ht & _).
    exists it. split; [left; eauto|].
    eapply hot_grow_trans; [apply hot_grow_TryLoadingCached|]. now apply hot_grow_same.
  - apply scan_Some in Hs as [_ Hs]. destruct (state_of_Some _ _ _ Hs) as (t & Ht & _).
    exists it. split; [left; eauto|].
    eapply hot_grow_trans; [|apply hot_grow_ConvertTexture]. now apply hot_grow_same.
  - exists O. split; [now right|apply hot_grow_refl].
Qed.

Lemma hot_live_same s s' :
  hot_live s -> m_HotloadFiles s' = m_HotloadFiles s -> frame s s' -> hot_live s'.
Proof.
  intros HL E F path files q H1 H2. apply (frame_live _ _ q F).
  rewrite E in H1. exact (HL path files q H1 H2).
Qed.

Lemma hot_grow_TryLoad w s this :
  exists p, (is_Some (lock s p) \/ m_HotloadFiles (snd (TryLoad w s this)) = m_HotloadFiles s)
            /\ hot_grow p s (snd (TryLoad w s this)).
Proof.
  unfold TryLoad. destruct (lock s this) as [t|]; simpl;
    [|exists O; split; [now right|apply hot_grow_refl]].
  destruct (_ || _); [|exists O; split; [now right|apply hot_grow_refl]].
  destruct (weak_lock s (m_Self t)) as [self|] eqn:E;
    [|exists O; split; [now right|apply hot_grow_refl]].
  assert (Hself : is_Some (lock s self)).
  { unfold weak_lock in E. destruct (m_Self t) as [p|]; [|discriminate].
    destruct (lock s p) eqn:E2; [|discriminate]. injection E as <-. eauto. }
  exists self. split; [now left|].
  destruct (bool_decide (m_State t = PREFETCH_NEEDS_CONVERTING)); [now apply hot_grow_same|].
  pose proof (hot_grow_TryLoadingCached w s self) as H.
  destruct (TryLoadingCached w s self) as [ok s1]. simpl in H.
  destruct ok; (eapply hot_grow_trans; [exact H|now apply hot_grow_same]).
Qed.

Lemma hot_Prefetch s this : m_HotloadFiles (Prefetch s this) = m_HotloadFiles s.
Proof.
  unfold Prefetch. destruct (lock s this) as [t|]; [|reflexivity].
  destruct (bool_decide _); [|reflexivity]. now destruct (weak_lock s (m_Self t)).
Qed.

Lemma hot_live_CreateTexture s props :
  Inv s -> hot_live s -> hot_live (snd (CreateTexture s props)).
Proof.
  intros HI HL.
  destruct (CreateTexture_cases s props) as [Hf HC].
  destruct HC as [(it & _ & ->)
                 |(_ & s' & E & Hh & _ & _ & _ & _ & _ & _ & _ & Hi)]; [exact HL|].
  assert (Hhot : hot_grow (fresh (dom (heap s))) s s').
  { eapply hot_grow_trans; [apply (hot_grow_hotload_insert (m_Path props))|].
    apply hot_grow_same, Hi. }
  rewrite E. simpl. intros path files q H1 H2.
  unfold lock. rewrite Hh.
  destruct (Hhot path files q H1 H2) as [->|(f0 & H3 & H4)].
  - rewrite lookup_insert_eq. eauto.
  - destruct (HL path f0 q H3 H4) as [t Ht].
    rewrite lookup_insert_ne; [eauto|]. intros <-. unfold lock in Hf, Ht. congruence.
Qed.

Lemma step_hot_live s op : Inv s -> hot_live s -> hot_live (step s op).
Proof.
  intros HI HL. destruct op as [props|w this|this|w|path]; simpl.
  - now apply hot_live_CreateTexture.
  - destruct (TryLoad_one_change w s this) as [F _].
    destruct (hot_grow_TryLoad w s this) as (p & [Hp|Hp] & G).
    + exact (hot_live_grow p s _ HL Hp G F).
    + exact (hot_live_same s _ HL Hp F).
  - destruct (Prefetch_one_change s this) as [F _].
    exact (hot_live_same s _ HL (hot_Prefetch s this) F).
  - destruct (MakeProgress_one_change w s) as [p0 [F _]].
    destruct (hot_grow_MakeProgress w s) as (p & [Hp|Hp] & G).
    + exact (hot_live_grow p s _ HL Hp G F).
    + exact (hot_live_same s _ HL Hp F).
  - destruct (ReloadChangedFile_spec s path) as (_ & _ & E & _).
    exact (hot_live_same s _ HL E (frame_ReloadChangedFile s path)).
Qed.

(** In the states the manager reaches by itself the index holds no
    expired reference: the cache keeps every registered texture alive. *)
Lemma reachable_hot_live s : reachable s -> hot_live s.
Proof.
  induction 1 as [d hd he ep|s op Hr IH].
  - intros path files p. unfold CTextureManagerImpl.
    destruct d; simpl; now rewrite lookup_empty.
  - apply step_hot_live; [now apply reachable_Inv|exact IH].
Qed.
End HotloadLive.

(** ** Expired references in the hotload index *)

Section PruneClaims.
Context {C : Collaborators}.


End PruneClaims.

(** * Further properties *)

(** ** The order of the cache *)

(** X1. [TextureCacheCmp] is a strict total order on keys, as an ordered
    set needs: no key is below itself, the order is asymmetric and
    transitive, of two different keys one is below the other, and the
    path decides first. *)
Theorem X1_TextureCacheCmp_is_a_strict_total_order :
  (forall a, TextureCacheCmp a a = false) /\
  (forall a b, TextureCacheCmp a b = true -> TextureCacheCmp b a = false) /\
  (forall a b c, TextureCacheCmp a b = true -> TextureCacheCmp b c = true ->
                 TextureCacheCmp a c = true) /\
  (forall a b, TextureCacheCmp a b = true \/ a = b \/ TextureCacheCmp b a = true) /\
  (forall a b, VfsPath_lt (m_Path a) (m_Path b) = true -> TextureCacheCmp a b = true).
Proof.
  split; [exact TextureCacheCmp_irrefl|].
  split; [intros a b; apply st_asym, TextureCacheCmp_strict|].
  split; [exact TextureCacheCmp_trans|]. split.
  - intros a b. destruct (TextureCacheCmp a b) eqn:E1; [now left|].
    destruct (TextureCacheCmp b a) eqn:E2; [now right; right|].
    right. left. now apply TextureCacheCmp_total.
  - intros a b H. unfold TextureCacheCmp. now rewrite H.
Qed.

Section CacheExtras.
Context {C : Collaborators}.

(** X2. Asking a reachable manager for the key of an entry it already
    holds returns that entry and leaves the whole manager as it was: the
    lookup creates nothing, registers nothing and resets nothing. *)
Theorem X2_CreateTexture_of_a_held_key_is_read_only (s : Manager) (p : ptr) :
  reachable s -> p ∈ m_TextureCache s ->
  CreateTexture s (props_of s p) = (p, s).
Proof.
  intros Hr Hp. apply CreateTexture_found; [now apply reachable_Inv|exact Hp|reflexivity].
Qed.

(** X3. The filter [LoadTexture] sets on a handle: with mipmaps in the
    file the requested filter is kept; without them a mipmapped filter is
    replaced by its plain counterpart (nearest stays nearest, linear
    stays linear), any other filter is kept, so that the filter that is
    set never asks for mipmaps the file does not have. *)
Theorem X3_upload_filter_never_asks_for_missing_mipmaps (flags filter : Z) :
  (Z.land flags TEX_MIPMAPS <> 0 -> upload_filter flags filter = filter) /\
  (Z.land flags TEX_MIPMAPS = 0 ->
     is_mipmap_filter (upload_filter flags filter) = false /\
     (is_mipmap_filter filter = false -> upload_filter flags filter = filter) /\
     (filter = GL_NEAREST_MIPMAP_NEAREST \/ filter = GL_NEAREST_MIPMAP_LINEAR ->
        upload_filter flags filter = GL_NEAREST) /\
     (filter = GL_LINEAR_MIPMAP_NEAREST \/ filter = GL_LINEAR_MIPMAP_LINEAR ->
        upload_filter flags filter = GL_LINEAR)) /\
  upload_filter flags (upload_filter flags filter) = upload_filter flags filter.
Proof.
  unfold upload_filter, is_mipmap_filter, GL_NEAREST, GL_LINEAR,
    GL_NEAREST_MIPMAP_NEAREST, GL_NEAREST_MIPMAP_LINEAR, GL_LINEAR_MIPMAP_NEAREST,
    GL_LINEAR_MIPMAP_LINEAR.
  destruct (Z.eqb_spec (Z.land flags TEX_MIPMAPS) 0) as [E|E].
  - split; [intros H; contradiction|]. split.
    + intros _.
      destruct (Z.eqb_spec filter 9984), (Z.eqb_spec filter 9986),
        (Z.eqb_spec filter 9985), (Z.eqb_spec filter 9987); simpl;
        repeat split; try reflexivity; try lia;
        repeat match goal with
               | |- context [?a =? ?b] => destruct (Z.eqb_spec a b); try lia
               end; simpl; try reflexivity; try discriminate; intros; try lia.
    + destruct (Z.eqb_spec filter 9984), (Z.eqb_spec filter 9986),
        (Z.eqb_spec filter 9985), (Z.eqb_spec filter 9987); simpl; try reflexivity;
        repeat match goal with
               | |- context [?a =? ?b] => destruct (Z.eqb_spec a b); try lia
               end; simpl; try reflexivity.
  - split; [reflexivity|]. split; [intros H; contradiction|reflexivity].
Qed.
End CacheExtras.
(** ** Calls that repeat *)

Section RepeatExtras.
Context {C : Collaborators}.

Lemma Manager_eq (s s' : Manager) :
  rest_eq s s' -> m_TextureConverter s' = m_TextureConverter s ->
  m_HotloadFiles s' = m_HotloadFiles s -> m_SettingsFiles s' = m_SettingsFiles s ->
  heap s' = heap s -> s' = s.
Proof.
  intros [H1 H2 H3 H4 H5] H6 H7 H8 H9. destruct s, s'. simpl in *. congruence.
Qed.

(** X4. A file-change notification touches only the textures registered
    under the path: every other texture, the cache, the converter, the
    hotload index and the memoized settings of other paths are as
    before; and a second notification for the same path changes nothing
    more. *)
Theorem X4_ReloadChangedFile_footprint_and_idempotence (s : Manager) (path : VfsPath) :
  let s' := ReloadChangedFile s path in
  (forall q, q ∉ default [] (m_HotloadFiles s !! path) -> lock s' q = lock s q) /\
  m_TextureCache s' = m_TextureCache s /\
  m_TextureConverter s' = m_TextureConverter s /\
  m_HotloadFiles s' = m_HotloadFiles s /\
  (forall other, other <> path -> m_SettingsFiles s' !! other = m_SettingsFiles s !! other) /\
  ReloadChangedFile s' path = s'.
Proof.
  intros s'. destruct (ReloadChangedFile_spec s path) as (R & Hc & Hh & Hs & L).
  fold s' in R, Hc, Hh, Hs, L.
  split; [|split; [|split; [|split; [|split]]]].
  - intros q Hq. rewrite L. now rewrite decide_False.
  - apply R.
  - exact Hc.
  - exact Hh.
  - intros other Hne. rewrite Hs. now apply lookup_delete_ne.
  - destruct (ReloadChangedFile_spec s' path) as (R2 & Hc2 & Hh2 & Hs2 & L2).
    apply Manager_eq; auto.
    + rewrite Hs2, Hs. apply delete_id, lookup_delete_eq.
    + apply map_eq. intros q.
      fold (lock (ReloadChangedFile s' path) q) (lock s' q).
      rewrite L2, Hh, L. destruct R as [_ _ Hd _ _]. rewrite Hd.
      case_decide; [|reflexivity].
      destruct (lock s q); simpl; [now rewrite reset_idem|reflexivity].
Qed.

Lemma TryLoad_settled w s this t :
  lock s this = Some t ->
  m_State t <> UNLOADED -> m_State t <> PREFETCH_NEEDS_LOADING ->
  m_State t <> PREFETCH_NEEDS_CONVERTING ->
  TryLoad w s this = (bool_decide (state_of s this = Some LOADED), s).
Proof.
  intros Hl H1 H2 H3. unfold TryLoad. rewrite Hl.
  destruct (m_State t); simpl; congruence.
Qed.

Lemma lock_after_set s s1 this st :
  is_Some (lock s this) -> sframe s s1 ->
  exists t', lock (upd this (set_State st) s1) this = Some t' /\ m_State t' = st.
Proof.
  intros Hl F. pose proof (state_after_set s s1 this st Hl F) as H.
  destruct (state_of_Some _ _ _ H) as (t' & H1 & H2). eauto.
Qed.

(** X5. [TryLoad] settles in one call: calling it again at once, under any
    state of the file system, changes nothing and gives the same answer.
    A renderer may call it (or [Bind]) every frame. *)
Theorem X5_TryLoad_twice_is_TryLoad_once (w1 w2 : World) (s : Manager) (this : ptr) :
  let r := TryLoad w1 s this in
  TryLoad w2 (snd r) this = r.
Proof.
  intros r. unfold r, TryLoad at 2 3.
  destruct (lock s this) as [t|] eqn:Hl; simpl.
  2:{ unfold TryLoad. now rewrite Hl. }
  assert (Hlive : is_Some (lock s this)) by eauto.
  assert (Hsettle : forall s' st,
             (exists t', lock s' this = Some t' /\ m_State t' = st) ->
             st <> UNLOADED -> st <> PREFETCH_NEEDS_LOADING ->
             st <> PREFETCH_NEEDS_CONVERTING ->
             TryLoad w2 s' this = (bool_decide (state_of s' this = Some LOADED), s')).
  { intros s' st (t' & Ht' & <-). now apply TryLoad_settled. }
  destruct (m_State t) eqn:Hst; simpl;
    try (apply (Hsettle s (m_State t)); [eauto|congruence..]).
  - (* UNLOADED *)
    destruct (weak_lock s (m_Self t)) as [self|] eqn:E.
    + pose proof (iframe_TryLoadingCached w1 s self) as F.
      destruct (TryLoadingCached w1 s self) as [[|] s1]; simpl in F.
      * eapply Hsettle; [apply (lock_after_set s); auto; now apply iframe_sframe|..];
          discriminate.
      * eapply Hsettle; [apply (lock_after_set s); auto; now apply iframe_sframe|..];
          discriminate.
    + unfold TryLoad. rewrite Hl, Hst. simpl. now rewrite E.
  - (* PREFETCH_NEEDS_LOADING *)
    destruct (weak_lock s (m_Self t)) as [self|] eqn:E.
    + pose proof (iframe_TryLoadingCached w1 s self) as F.
      destruct (TryLoadingCached w1 s self) as [[|] s1]; simpl in F.
      * eapply Hsettle; [apply (lock_after_set s); auto; now apply iframe_sframe|..];
          discriminate.
      * eapply Hsettle; [apply (lock_after_set s); auto; now apply iframe_sframe|..];
          discriminate.
    + unfold TryLoad. rewrite Hl, Hst. simpl. now rewrite E.
  - (* PREFETCH_NEEDS_CONVERTING *)
    destruct (weak_lock s (m_Self t)) as [self|] eqn:E.
    + eapply Hsettle; [apply (lock_after_set s); auto; apply sframe_refl|..]; discriminate.
    + unfold TryLoad. rewrite Hl, Hst. simpl. now rewrite E.
Qed.
End RepeatExtras.
(** ** The state machine *)

Section MachineExtras.
Context {C : Collaborators}.

Lemma TryLoad_state w s this t :
  lock s this = Some t ->
  exists b, state_of (snd (TryLoad w s this)) this = Some b /\
            (b = m_State t \/ tryload_moves (m_State t) b = true).
Proof.
  intros Hl. assert (Hlive : is_Some (lock s this)) by eauto.
  assert (Hsame : state_of s this = Some (m_State t)) by now apply state_of_lock.
  unfold TryLoad. rewrite Hl.
  destruct (m_State t) eqn:Hst; simpl; try (exists (m_State t); rewrite Hst; now split; [|left]).
  - destruct (weak_lock s (m_Self t)) as [self|]; [|eauto].
    pose proof (iframe_TryLoadingCached w s self) as F.
    destruct (TryLoadingCached w s self) as [[|] s1]; simpl in F.
    + exists LOADED. split; [|now right].
      apply (state_after_set s); auto. now apply iframe_sframe.
    + exists HIGH_NEEDS_CONVERTING. split; [|now right].
      apply (state_after_set s); auto. now apply iframe_sframe.
  - destruct (weak_lock s (m_Self t)) as [self|]; [|eauto].
    pose proof (iframe_TryLoadingCached w s self) as F.
    destruct (TryLoadingCached w s self) as [[|] s1]; simpl in F.
    + exists LOADED. split; [|now right].
      apply (state_after_set s); auto. now apply iframe_sframe.
    + exists HIGH_NEEDS_CONVERTING. split; [|now right].
      apply (state_after_set s); auto. now apply iframe_sframe.
  - destruct (weak_lock s (m_Self t)) as [self|]; [|eauto].
    exists HIGH_NEEDS_CONVERTING. split; [|now right].
    apply (state_after_set s); auto. apply sframe_refl.
Qed.

Lemma Prefetch_state s this t :
  lock s this = Some t ->
  exists b, state_of (Prefetch s this) this = Some b /\
            (b = m_State t \/ prefetch_moves (m_State t) b = true).
Proof.
  intros Hl. assert (Hlive : is_Some (lock s this)) by eauto.
  assert (Hsame : state_of s this = Some (m_State t)) by now apply state_of_lock.
  unfold Prefetch. rewrite Hl.
  destruct (m_State t) eqn:Hst; simpl; try (exists (m_State t); rewrite Hst; now split; [|left]).
  destruct (weak_lock s (m_Self t)) as [self|]; [|eauto].
  exists PREFETCH_NEEDS_LOADING. split; [|now right].
  apply (state_after_set s); auto. apply sframe_refl.
Qed.

Lemma progress_moves_LOADED a : progress_moves a LOADED = true.
Proof. now destruct a. Qed.

(** X6. The state machine, as the code runs it. No call destroys a
    texture, and a call changes the state of a texture only along these
    arrows: [TryLoad] from [UNLOADED] or [PREFETCH_NEEDS_LOADING] to
    [LOADED] or [HIGH_NEEDS_CONVERTING], and from
    [PREFETCH_NEEDS_CONVERTING] to [HIGH_NEEDS_CONVERTING]; [Prefetch]
    from [UNLOADED] to [PREFETCH_NEEDS_LOADING]; [MakeProgress] from any
    state to [LOADED], from [HIGH_NEEDS_CONVERTING] to
    [HIGH_IS_CONVERTING], from [PREFETCH_NEEDS_LOADING] to
    [PREFETCH_NEEDS_CONVERTING] and from there to
    [PREFETCH_IS_CONVERTING]; a file change from any state to
    [UNLOADED]; [CreateTexture] none. *)
Theorem X6_state_changes_follow_the_machine (s : Manager) (op : Op) (p : ptr) (a : State) :
  state_of s p = Some a ->
  exists b, state_of (step s op) p = Some b /\ (b = a \/ moves op a b = true).
Proof.
  intros Hst. destruct (state_of_Some _ _ _ Hst) as (t & Hl & Ht).
  destruct op as [props|w this|this|w|path]; simpl.
  - exists a. split; [|now left].
    destruct (CreateTexture_cases s props)
      as [Hf [(it & _ & ->)|(_ & s' & -> & Hh & _)]]; simpl; [exact Hst|].
    unfold state_of, lock. rewrite Hh, lookup_insert_ne; [exact Hst|].
    intros E. unfold lock in Hf, Hl. rewrite E in Hf. congruence.
  - destruct (decide (p = this)) as [->|Hne].
    + rewrite <- Ht. now apply TryLoad_state.
    + exists a. split; [|now left].
      destruct (TryLoad_one_change w s this) as [_ H]. now rewrite H.
  - destruct (decide (p = this)) as [->|Hne].
    + rewrite <- Ht. now apply Prefetch_state.
    + exists a. split; [|now left].
      destruct (Prefetch_one_change s this) as [_ H]. now rewrite H.
  - destruct (MakeProgress_cases w s)
      as [(texture & dest & ok & c' & HP & ->)
         |(_ & [(Hc & it & Hs & ->)|[(_ & it & Hs & ->)|[(Hc & _ & _ & it & Hs & ->)
                                                        |(_ & _ & _ & ->)]]])];
      cbn [snd]; [| | | |eauto].
    + destruct (poll_facts w s texture dest ok c' HP) as (_ & H1 & H2 & _).
      destruct (decide (p = texture)) as [->|Hne].
      * exists LOADED. rewrite H1, Hst. split; [reflexivity|right; apply progress_moves_LOADED].
      * exists a. rewrite H2 by exact Hne. auto.
    + apply scan_Some in Hs as [_ Hs].
      destruct (state_of_Some _ _ _ Hs) as (ti & Hli & _).
      destruct (submit_facts w s it HIGH_IS_CONVERTING (ex_intro _ ti Hli)) as (H1 & H2 & _).
      destruct (decide (p = it)) as [->|Hne].
      * exists HIGH_IS_CONVERTING. split; [exact H1|right].
        assert (Ha : a = HIGH_NEEDS_CONVERTING) by congruence. now rewrite Ha.
      * exists a. rewrite H2 by exact Hne. auto.
    + apply scan_Some in Hs as [_ Hs].
      destruct (state_of_Some _ _ _ Hs) as (ti & Hli & _).
      destruct (load_facts w s it (ex_intro _ ti Hli)) as (H1 & H2 & _).
      destruct (decide (p = it)) as [->|Hne].
      * eexists. split; [exact H1|right].
        assert (Ha : a = PREFETCH_NEEDS_LOADING) by congruence. rewrite Ha.
        now destruct (fst (TryLoadingCached w s it)).
      * exists a. rewrite H2 by exact Hne. auto.
    + apply scan_Some in Hs as [_ Hs].
      destruct (state_of_Some _ _ _ Hs) as (ti & Hli & _).
      destruct (submit_facts w s it PREFETCH_IS_CONVERTING (ex_intro _ ti Hli))
        as (H1 & H2 & _).
      destruct (decide (p = it)) as [->|Hne].
      * exists PREFETCH_IS_CONVERTING. split; [exact H1|right].
        assert (Ha : a = PREFETCH_NEEDS_CONVERTING) by congruence. now rewrite Ha.
      * exists a. rewrite H2 by exact Hne. auto.
  - destruct (ReloadChangedFile_spec s path) as (_ & _ & _ & _ & L).
    unfold state_of. rewrite L, Hl. case_decide.
    + exists UNLOADED. simpl. split; [|now right].
      f_equal. apply reset_spec.
    + exists a. simpl. split; [now rewrite Ht|now left].
Qed.
End MachineExtras.

(** ** The memo of the settings files *)

Section MemoExtras.
Context {C : Collaborators}.

(** X7. [GetSettingsFile] memoizes: after a call the answer, also the
    answer "no such file", is stored under the path, the memo of other
    paths is untouched, and a second call returns the same answer without
    looking at the file system again, whatever it holds by then. After
    [ReloadChangedFile] for the path the file system is asked again. *)
Theorem X7_GetSettingsFile_memoizes (w1 w2 : World) (s : Manager) (path : VfsPath) :
  let r := GetSettingsFile w1 s path in
  m_SettingsFiles (snd r) !! path = Some (fst r) /\
  (forall other, other <> path ->
     m_SettingsFiles (snd r) !! other = m_SettingsFiles s !! other) /\
  GetSettingsFile w2 (snd r) path = r /\
  fst (GetSettingsFile w2 (ReloadChangedFile (snd r) path) path)
  = match GetFileInfo w2 path with Some _ => LoadSettings w2 path | None => None end.
Proof.
  intros r.
  assert (H1 : m_SettingsFiles (snd r) !! path = Some (fst r)).
  { unfold r, GetSettingsFile.
    destruct (m_SettingsFiles s !! path) as [f|] eqn:E; [exact E|].
    destruct (GetFileInfo w1 path); simpl; apply lookup_insert_eq. }
  split; [exact H1|]. split; [|split].
  - intros other Hne. unfold r, GetSettingsFile.
    destruct (m_SettingsFiles s !! path) as [f|]; [reflexivity|].
    destruct (GetFileInfo w1 path); simpl; now apply lookup_insert_ne.
  - unfold GetSettingsFile at 1. rewrite H1. now destruct r.
  - destruct (ReloadChangedFile_spec (snd r) path) as (_ & _ & _ & Hs & _).
    unfold GetSettingsFile at 1. rewrite Hs, lookup_delete_eq.
    now destruct (GetFileInfo w2 path).
Qed.
End MemoExtras.

(** ** The textures a call touches *)

Section EffectFacts.
Context {C : Collaborators}.

Lemma alter_alter (g1 g2 : CTexture -> CTexture) (p : ptr) (h : gmap ptr CTexture) :
  alter g2 p (alter g1 p h) = alter (fun t => g2 (g1 t)) p h.
Proof.
  apply map_eq. intros q. rewrite !lookup_alter.
  destruct (decide (p = q)); destruct (decide (p = p)); try congruence.
  now destruct (h !! p).
Qed.

Lemma alter_fixed (g : CTexture -> CTexture) (p : ptr) (h : gmap ptr CTexture) (t : CTexture) :
  alter g p h = h -> h !! p = Some t -> g t = t.
Proof.
  intros E H. assert (E2 : alter g p h !! p = Some (g t)).
  { rewrite lookup_alter. destruct (decide (p = p)); [|congruence]. now rewrite H. }
  rewrite E, H in E2. congruence.
Qed.

Lemma alter_same (g : CTexture -> CTexture) (p : ptr) (h : gmap ptr CTexture) :
  (forall t, g t = t) -> alter g p h = h.
Proof. intros H. apply alter_id. intros x _. apply H. Qed.

Lemma loads_id s : loads s (fun t => t).
Proof. intros t. split; [reflexivity|now left]. Qed.

Lemma loads_SetHandle s : loads s (SetHandle (m_ErrorHandle s)).
Proof. intros t. split; [apply skel_SetHandle|right; left; apply SetHandle_handle]. Qed.

Lemma loads_rest s s' g : rest_eq s s' -> loads s' g -> loads s g.
Proof.
  intros R L t. destruct (L t) as [H1 H2]. split; [exact H1|].
  rewrite (re_he _ _ R), (re_gl _ _ R) in H2. exact H2.
Qed.

Lemma LoadTexture_heap w s texture path :
  exists g, loads s g /\ heap (LoadTexture w s texture path) = alter g texture (heap s).
Proof.
  unfold LoadTexture. destruct (m_DisableGL s) eqn:E.
  - exists (fun t => t). split; [apply loads_id|]. symmetry. now apply alter_same.
  - exists (LoadTexture_obj w (m_ErrorHandle s) path). split; [|reflexivity].
    intros t. split; [apply skel_LoadTexture_obj|tauto].
Qed.

Lemma TryLoadingCached_heap w s texture :
  let r := TryLoadingCached w s texture in
  exists g, loads s g /\ heap (snd r) = alter g texture (heap s) /\
            (fst r = false -> heap (snd r) = heap s).
Proof.
  unfold TryLoadingCached.
  destruct (CanUseArchiveCache _ _ _).
  { destruct (LoadTexture_heap w s texture
                (branch_path (path_of s texture) ++ [(leaf (path_of s texture) +:+ ".dds")%string]))
      as (g & Hg & E).
    exists g. cbn [fst snd]. split; [exact Hg|]. split; [exact E|discriminate]. }
  destruct (GetFileInfo w (path_of s texture)).
  2:{ exists (SetHandle (m_ErrorHandle s)). cbn [fst snd].
      split; [apply loads_SetHandle|]. split; [reflexivity|discriminate]. }
  pose proof (cfg_only_LooseCachePath w s texture) as Hc.
  destruct (LooseCachePath w s texture) as [lp s1]. cbn [snd] in Hc.
  destruct Hc as (Hh & Hr & _).
  destruct (GetFileInfo w lp).
  - destruct (LoadTexture_heap w s1 texture lp) as (g & Hg & E).
    exists g. cbn [fst snd]. split; [exact (loads_rest _ _ _ Hr Hg)|].
    split; [now rewrite E, Hh|discriminate].
  - exists (fun t => t). cbn [fst snd]. split; [apply loads_id|].
    split; [|intros _; exact Hh]. rewrite Hh. symmetry. now apply alter_same.
Qed.

Lemma advances_set_State s t g st :
  loads s g ->
  st = LOADED \/ (m_State t <> LOADED /\ g t = t) ->
  advances s t (set_State st (g t)).
Proof.
  intros L H. destruct (L t) as [H1 H2]. unfold skel_of in H1.
  split; [rewrite ident_set_State; congruence|]. split.
  - destruct H as [->|[Hn E]]; [now left|right]. split; [exact Hn|]. now rewrite E.
  - exact H2.
Qed.

Lemma Converter_Poll_job w c texture dest ok c' :
  Converter_Poll w c = (Some (texture, dest, ok), c') ->
  exists j, c = j :: c' /\ job_texture j = texture /\ job_dest j = dest.
Proof.
  unfold Converter_Poll. destruct c as [|j c0]; [discriminate|].
  destruct (worker_result w); [|discriminate]. intros [= <- <- <- <-]. eauto.
Qed.

Lemma heap_ConvertTexture w s texture : heap (ConvertTexture w s texture) = heap s.
Proof.
  destruct (ConvertTexture_spec w s texture) as (s2 & job & (Hh & _) & _ & ->). exact Hh.
Qed.

Lemma TryLoad_effect w s this : Inv s -> effect s (snd (TryLoad w s this)).
Proof.
  intros HI. destruct (lock s this) as [t|] eqn:Ht.
  2:{ left. unfold TryLoad. now rewrite Ht. }
  rewrite (TryLoad_eq w s this t Ht (inv_self s HI _ _ Ht)). cbn [snd].
  unfold TryLoad_next.
  destruct (m_State t) eqn:Est; try (left; reflexivity).
  - pose proof (TryLoadingCached_heap w s this) as (g & Hg & E & Em). cbv zeta in *.
    right. exists this, (fun t => set_State (if fst (TryLoadingCached w s this) then LOADED
                                             else HIGH_NEEDS_CONVERTING) (g t)).
    split; [cbn [upd heap set_heap]; now rewrite E, alter_alter|].
    split; [|left; exists t; split; [exact Ht|congruence]].
    intros t0 Ht0. assert (t0 = t) as -> by congruence.
    apply advances_set_State; [exact Hg|].
    destruct (fst (TryLoadingCached w s this)); [now left|right].
    split; [congruence|]. eapply alter_fixed; [|exact Ht]. rewrite <- E. now apply Em.
  - pose proof (TryLoadingCached_heap w s this) as (g & Hg & E & Em). cbv zeta in *.
    right. exists this, (fun t => set_State (if fst (TryLoadingCached w s this) then LOADED
                                             else HIGH_NEEDS_CONVERTING) (g t)).
    split; [cbn [upd heap set_heap]; now rewrite E, alter_alter|].
    split; [|left; exists t; split; [exact Ht|congruence]].
    intros t0 Ht0. assert (t0 = t) as -> by congruence.
    apply advances_set_State; [exact Hg|].
    destruct (fst (TryLoadingCached w s this)); [now left|right].
    split; [congruence|]. eapply alter_fixed; [|exact Ht]. rewrite <- E. now apply Em.
  - right. exists this, (fun t => set_State HIGH_NEEDS_CONVERTING t).
    split; [reflexivity|]. split; [|left; exists t; split; [exact Ht|congruence]].
    intros t0 Ht0. assert (t0 = t) as -> by congruence.
    apply (advances_set_State s t (fun t => t)); [apply loads_id|].
    right. split; [congruence|reflexivity].
Qed.

Lemma Prefetch_effect s this : effect s (Prefetch s this).
Proof.
  unfold Prefetch. destruct (lock s this) as [t|] eqn:Ht; [|now left].
  destruct (bool_decide (m_State t = UNLOADED)) eqn:E; [|now left].
  apply bool_decide_eq_true in E.
  destruct (weak_lock s (m_Self t)); [|now left].
  right. exists this, (fun t => set_State PREFETCH_NEEDS_LOADING t).
  split; [reflexivity|]. split; [|left; exists t; split; [exact Ht|congruence]].
  intros t0 Ht0. assert (t0 = t) as -> by congruence.
  apply (advances_set_State s t (fun t => t)); [apply loads_id|].
  right. split; [congruence|reflexivity].
Qed.

Lemma submit_effect w s it st0 st1 :
  state_of s it = Some st0 -> st0 <> LOADED ->
  effect s (ConvertTexture w (upd it (set_State st1) s) it).
Proof.
  intros Hs Hn. destruct (state_of_Some _ _ _ Hs) as (t & Ht & Est).
  right. exists it, (fun t => set_State st1 t).
  split; [now rewrite heap_ConvertTexture|].
  split; [|left; exists t; split; [exact Ht|congruence]].
  intros t0 Ht0. assert (t0 = t) as -> by congruence.
  apply (advances_set_State s t (fun t => t)); [apply loads_id|].
  right. split; [congruence|reflexivity].
Qed.

Lemma MakeProgress_effect w s : effect s (snd (MakeProgress w s)).
Proof.
  destruct (MakeProgress_cases w s)
    as [(texture & dest & ok & c' & HP & ->)
       |(_ & [(Hc & it & Hs & ->)|[(_ & it & Hs & ->)|[(Hc & _ & _ & it & Hs & ->)
                                                      |(_ & _ & _ & ->)]]])];
    cbn [snd].
  - destruct (Converter_Poll_job _ _ _ _ _ _ HP) as (j & Hj & Hjt & _).
    assert (Hg : exists g, loads s g /\
              heap (if ok then LoadTexture w (set_converter c' s) texture dest
                    else upd texture (SetHandle (m_ErrorHandle s)) (set_converter c' s))
              = alter g texture (heap s)).
    { destruct ok.
      - destruct (LoadTexture_heap w (set_converter c' s) texture dest) as (g & Hg & E).
        exists g. split; [|exact E]. exact Hg.
      - exists (SetHandle (m_ErrorHandle s)). split; [apply loads_SetHandle|reflexivity]. }
    destruct Hg as (g & Hg & E).
    right. exists texture, (fun t => set_State LOADED (g t)).
    split; [cbn [upd heap set_heap]; now rewrite E, alter_alter|].
    split; [|right; exists j; split; [rewrite Hj; apply elem_of_cons; now left|exact Hjt]].
    intros t _. apply advances_set_State; [exact Hg|now left].
  - apply scan_Some in Hs as [_ Hs]. now apply (submit_effect w s it HIGH_NEEDS_CONVERTING).
  - apply scan_Some in Hs as [_ Hs]. destruct (state_of_Some _ _ _ Hs) as (t & Ht & Est).
    pose proof (TryLoadingCached_heap w s it) as (g & Hg & E & Em). cbv zeta in *.
    right. exists it, (fun t => set_State (if fst (TryLoadingCached w s it) then LOADED
                                           else PREFETCH_NEEDS_CONVERTING) (g t)).
    split; [cbn [upd heap set_heap]; now rewrite E, alter_alter|].
    split; [|left; exists t; split; [exact Ht|congruence]].
    intros t0 Ht0. assert (t0 = t) as -> by congruence.
    apply advances_set_State; [exact Hg|].
    destruct (fst (TryLoadingCached w s it)); [now left|right].
    split; [congruence|]. eapply alter_fixed; [|exact Ht]. rewrite <- E. now apply Em.
  - apply scan_Some in Hs as [_ Hs]. now apply (submit_effect w s it PREFETCH_NEEDS_CONVERTING).
  - now left.
Qed.

(** What an effect leaves alone. *)
Lemma effect_lock s s' :
  effect s s' ->
  forall q t', lock s' q = Some t' ->
    exists t, lock s q = Some t /\ (t' = t \/ (advances s t t' /\
      (m_State t <> LOADED \/ exists j, j ∈ m_TextureConverter s /\ job_texture j = q))).
Proof.
  intros [E|(p & g & E & Hg & Hp)] q t' Hq; unfold lock in *.
  - rewrite E in Hq. eauto.
  - rewrite E, lookup_alter in Hq. destruct (decide (p = q)) as [->|Hne]; [|eauto].
    destruct (heap s !! q) as [t|] eqn:Ht; [|discriminate]. injection Hq as <-.
    exists t. split; [reflexivity|right]. split; [now apply Hg|].
    destruct Hp as [(t0 & Ht0 & Hn)|Hj]; [left; congruence|now right].
Qed.

Lemma effect_live s s' q : effect s s' -> is_Some (lock s' q) <-> is_Some (lock s q).
Proof.
  intros [E|(p & g & E & _)]; unfold lock; rewrite E; [tauto|].
  rewrite lookup_alter. destruct (decide (p = q)) as [->|]; [|tauto].
  now rewrite fmap_is_Some.
Qed.

End EffectFacts.

(** ** Who owns what *)

Section OwnerFacts.
Context {C : Collaborators}.

Lemma TryLoad_rest w s this : rest_eq s (snd (TryLoad w s this)).
Proof. now destruct (TryLoad_one_change w s this) as [[_ R] _]. Qed.

Lemma Prefetch_rest s this : rest_eq s (Prefetch s this).
Proof. now destruct (Prefetch_one_change s this) as [[_ R] _]. Qed.

Lemma MakeProgress_rest w s : rest_eq s (snd (MakeProgress w s)).
Proof. now destruct (MakeProgress_one_change w s) as (p & [_ R] & _). Qed.

(** The jobs after [MakeProgress] are jobs of before, or the job of an
    entry of the cache. *)
Lemma MakeProgress_jobs w s j :
  j ∈ m_TextureConverter (snd (MakeProgress w s)) ->
  j ∈ m_TextureConverter s \/ job_texture j ∈ m_TextureCache s.
Proof.
  destruct (MakeProgress_cases w s)
    as [(texture & dest & ok & c' & HP & ->)
       |(_ & [(Hc & it & Hs & ->)|[(_ & it & Hs & ->)|[(Hc & _ & _ & it & Hs & ->)
                                                      |(_ & _ & _ & ->)]]])];
    cbn [snd].
  - destruct (poll_facts w s texture dest ok c' HP) as (_ & _ & _ & E & j0 & E0).
    cbv zeta in E. rewrite E, E0. intros H. left. apply elem_of_cons. now right.
  - apply scan_Some in Hs as [Hin Hs]. destruct (state_of_Some _ _ _ Hs) as (t & Ht & _).
    destruct (submit_facts w s it HIGH_IS_CONVERTING (ltac:(eauto)))
      as (_ & _ & job & Hj & E).
    rewrite E, elem_of_app, list_elem_of_singleton. intros [H| ->]; [now left|right].
    now rewrite Hj.
  - apply scan_Some in Hs as [Hin Hs]. destruct (state_of_Some _ _ _ Hs) as (t & Ht & _).
    destruct (load_facts w s it (ltac:(eauto))) as (_ & _ & E).
    cbv zeta in E. rewrite E. now left.
  - apply scan_Some in Hs as [Hin Hs]. destruct (state_of_Some _ _ _ Hs) as (t & Ht & _).
    destruct (submit_facts w s it PREFETCH_IS_CONVERTING (ltac:(eauto)))
      as (_ & _ & job & Hj & E).
    rewrite E, elem_of_app, list_elem_of_singleton. intros [H| ->]; [now left|right].
    now rewrite Hj.
  - now left.
Qed.

(** What [MakeProgress] adds to the index is an entry of the cache. *)
Lemma MakeProgress_hot w s :
  exists p, (p ∈ m_TextureCache s \/ m_HotloadFiles (snd (MakeProgress w s)) = m_HotloadFiles s)
            /\ hot_grow p s (snd (MakeProgress w s)).
Proof.
  destruct (MakeProgress_cases w s)
    as [(texture & dest & ok & c' & HP & ->)
       |(_ & [(Hc & it & Hs & ->)|[(_ & it & Hs & ->)|[(Hc & _ & _ & it & Hs & ->)
                                                      |(_ & _ & _ & ->)]]])];
    cbn [snd].
  - exists texture.
    assert (E : m_HotloadFiles
                  (upd texture (set_State LOADED)
                     (if ok then LoadTexture w (set_converter c' s) texture dest
                      else upd texture (SetHandle (m_ErrorHandle s)) (set_converter c' s)))
                = m_HotloadFiles s).
    { destruct ok; simpl; [now rewrite hot_LoadTexture|reflexivity]. }
    split; [now right|now apply hot_grow_same].
  - apply scan_Some in Hs as [Hin _]. exists it. split; [now left|].
    eapply hot_grow_trans; [|apply hot_grow_ConvertTexture]. now apply hot_grow_same.
  - apply scan_Some in Hs as [Hin _]. exists it. split; [now left|].
    eapply hot_grow_trans; [apply hot_grow_TryLoadingCached|]. now apply hot_grow_same.
  - apply scan_Some in Hs as [Hin _]. exists it. split; [now left|].
    eapply hot_grow_trans; [|apply hot_grow_ConvertTexture]. now apply hot_grow_same.
  - exists O. split; [now right|apply hot_grow_refl].
Qed.

(** What [TryLoad] adds to the index is the texture itself, which was not
    loaded. *)
Lemma TryLoad_hot w s this :
  Inv s ->
  m_HotloadFiles (snd (TryLoad w s this)) = m_HotloadFiles s \/
  ((exists t, lock s this = Some t /\ m_State t <> LOADED) /\
   hot_grow this s (snd (TryLoad w s this))).
Proof.
  intros HI. destruct (lock s this) as [t|] eqn:Ht.
  2:{ left. unfold TryLoad. now rewrite Ht. }
  rewrite (TryLoad_eq w s this t Ht (inv_self s HI _ _ Ht)). cbn [snd].
  unfold TryLoad_next.
  destruct (m_State t) eqn:Est; try (left; reflexivity).
  - right. split; [exists t; split; [reflexivity|congruence]|].
    eapply hot_grow_trans; [apply hot_grow_TryLoadingCached|]. now apply hot_grow_same.
  - right. split; [exists t; split; [reflexivity|congruence]|].
    eapply hot_grow_trans; [apply hot_grow_TryLoadingCached|]. now apply hot_grow_same.
Qed.

Lemma Owns_keep s s' :
  Owns s -> rest_eq s s' ->
  (forall q, is_Some (lock s' q) -> is_Some (lock s q)) ->
  (forall e, m_ErrorTexture s = Some e -> lock s' e = lock s e) ->
  (forall j, j ∈ m_TextureConverter s' -> job_texture j ∈ m_TextureCache s) ->
  (forall path files p, m_HotloadFiles s' !! path = Some files -> p ∈ files ->
                        p ∈ m_TextureCache s) ->
  Owns s'.
Proof.
  intros HO [Rc Re Rd Rh Rg] Hl He Hj Hh. split.
  - intros p Hp. rewrite Rc, Re. apply (own_alive s HO), Hl, Hp.
  - intros e Hee. rewrite Re in Hee. rewrite Rc, Rh, (He e Hee).
    exact (own_error s HO e Hee).
  - rewrite Re, Rg. exact (own_gl s HO).
  - intros path files p H1 H2. rewrite Rc. eauto.
  - intros j H. rewrite Rc. eauto.
Qed.

Lemma effect_error s s' e :
  Owns s -> effect s s' -> m_ErrorTexture s = Some e -> lock s' e = lock s e.
Proof.
  intros HO [E|(p & g & E & _ & Hp)] He; unfold lock; rewrite E; [reflexivity|].
  rewrite lookup_alter. destruct (decide (p = e)) as [->|]; [exfalso|reflexivity].
  destruct (own_error s HO e He) as (Hn & t & Ht & Hs & _).
  destruct Hp as [(t0 & Ht0 & Hn0)|(j & Hj & Hjt)]; [congruence|].
  apply Hn. rewrite <- Hjt. exact (own_jobs s HO j Hj).
Qed.

Lemma hot_grow_cache p s s' :
  Owns s -> p ∈ m_TextureCache s \/ m_HotloadFiles s' = m_HotloadFiles s ->
  hot_grow p s s' ->
  forall path files q, m_HotloadFiles s' !! path = Some files -> q ∈ files ->
                       q ∈ m_TextureCache s.
Proof.
  intros HO Hp G path files q H1 H2.
  destruct Hp as [Hp|E].
  - destruct (G path files q H1 H2) as [->|(f0 & H3 & H4)]; [exact Hp|].
    exact (own_hot s HO path f0 q H3 H4).
  - rewrite E in H1. exact (own_hot s HO path files q H1 H2).
Qed.

Lemma Owns_new disableGL hDefault hError errorProps :
  Owns (CTextureManagerImpl disableGL hDefault hError errorProps).
Proof.
  unfold CTextureManagerImpl. destruct disableGL; split; simpl;
    try (intros path files p; rewrite lookup_empty; discriminate);
    try (intros j Hj; now apply elem_of_nil in Hj);
    try discriminate; try tauto.
  - intros p. unfold lock. simpl. rewrite lookup_empty. now intros [? ?].
  - intros p. unfold lock. simpl. intros [t Ht].
    apply lookup_singleton_Some in Ht as [<- _]. now right.
  - intros e [= <-]. split; [apply not_elem_of_nil|].
    unfold lock. simpl. rewrite lookup_singleton_eq. eauto.
  - split; discriminate.
Qed.

Lemma Owns_CreateTexture s props :
  Inv s -> Owns s -> Owns (snd (CreateTexture s props)).
Proof.
  intros HI HO.
  destruct (CreateTexture_cases s props) as [Hf HC]. cbv zeta in HC.
  destruct HC as [(it & _ & ->)|(Hn & s' & -> & Hh & Hc & Hj & _ & He & Hd & Hhe & Hg & Hhot)];
    [exact HO|]. cbn [snd].
  set (np := fresh (dom (heap s))) in *.
  assert (Hin : forall q, q ∈ m_TextureCache s' <-> q = np \/ q ∈ m_TextureCache s).
  { intros q. rewrite Hc. apply (set_insert_elem (props_of _) TextureCacheCmp). exact Hn. }
  assert (Hlk : forall q, q <> np -> lock s' q = lock s q).
  { intros q Hq. unfold lock. rewrite Hh. now apply lookup_insert_ne. }
  split.
  - intros p Hp. destruct (decide (p = np)) as [->|Hne].
    + left. apply Hin. now left.
    + rewrite (Hlk p Hne) in Hp. rewrite He.
      destruct (own_alive s HO p Hp); [left; apply Hin|]; tauto.
  - intros e Hee. rewrite He in Hee.
    destruct (own_error s HO e Hee) as (Hnc & t & Ht & Hs & Hhd).
    assert (e <> np) by (intros Heq; rewrite Heq in Ht; congruence).
    split.
    + rewrite Hin. tauto.
    + rewrite Hlk, Hhe by assumption. eauto.
  - rewrite He, Hg. exact (own_gl s HO).
  - intros path files p H1 H2. rewrite Hhot in H1. apply Hin.
    destruct (hot_grow_hotload_insert (m_Path props) np s path files p H1 H2)
      as [->|(f0 & H3 & H4)]; [now left|right].
    exact (own_hot s HO path f0 p H3 H4).
  - intros j H. rewrite Hj in H. apply Hin. right. exact (own_jobs s HO j H).
Qed.

Lemma Owns_step s op : Inv s -> Owns s -> Owns (step s op).
Proof.
  intros HI HO. destruct op as [props|w this|this|w|path]; simpl.
  - now apply Owns_CreateTexture.
  - pose proof (TryLoad_effect w s this HI) as HE.
    apply (Owns_keep s); [exact HO|apply TryLoad_rest| | | |].
    + intros q. exact (proj1 (effect_live s _ q HE)).
    + intros e. now apply effect_error.
    + intros j. rewrite conv_TryLoad. apply (own_jobs s HO).
    + destruct (TryLoad_hot w s this HI) as [E|[(t & Ht & Hn) G]].
      * apply (hot_grow_cache this s); [exact HO|now right|now apply hot_grow_same].
      * apply (hot_grow_cache this s); [exact HO| |exact G]. left.
        destruct (own_alive s HO this (ltac:(eauto))) as [Hc|He]; [exact Hc|].
        destruct (own_error s HO this He) as (_ & t0 & Ht0 & Hs & _). congruence.
  - pose proof (Prefetch_effect s this) as HE.
    apply (Owns_keep s); [exact HO|apply Prefetch_rest| | | |].
    + intros q. exact (proj1 (effect_live s _ q HE)).
    + intros e. now apply effect_error.
    + intros j. rewrite conv_Prefetch. apply (own_jobs s HO).
    + rewrite hot_Prefetch. apply (own_hot s HO).
  - pose proof (MakeProgress_effect w s) as HE.
    apply (Owns_keep s); [exact HO|apply MakeProgress_rest| | | |].
    + intros q. exact (proj1 (effect_live s _ q HE)).
    + intros e. now apply effect_error.
    + intros j Hj. destruct (MakeProgress_jobs w s j Hj) as [H|H]; [|exact H].
      exact (own_jobs s HO j H).
    + destruct (MakeProgress_hot w s) as (p & Hp & G).
      now apply (hot_grow_cache p s).
  - destruct (ReloadChangedFile_spec s path) as (R & Hc & Hh & _ & Hl). cbv zeta in *.
    apply (Owns_keep s); [exact HO|exact R| | | |].
    + intros q. rewrite Hl. destruct (decide _); [|tauto]. now rewrite fmap_is_Some.
    + intros e He. rewrite Hl. destruct (decide _) as [Hin|]; [exfalso|reflexivity].
      destruct (own_error s HO e He) as (Hn & _). apply Hn.
      destruct (m_HotloadFiles s !! path) as [files|] eqn:E; simpl in Hin;
        [|now apply elem_of_nil in Hin].
      exact (own_hot s HO path files e E Hin).
    + rewrite Hc. apply (own_jobs s HO).
    + rewrite Hh. apply (own_hot s HO).
Qed.

Lemma reachable_Owns s : reachable s -> Owns s.
Proof.
  induction 1 as [d hd he ep|s op Hr IH]; [apply Owns_new|].
  apply Owns_step; [now apply reachable_Inv|exact IH].
Qed.

End OwnerFacts.

(** ** Handles and jobs *)

Section HandleFacts.
Context {C : Collaborators}.

Lemma lock_CreateTexture_new s props s' :
  heap s' = <[fresh (dom (heap s)) :=
               set_Self (Some (fresh (dom (heap s)))) (CTexture_new (m_DefaultHandle s) props)]>
              (heap s) ->
  forall q t, lock s' q = Some t ->
    (q = fresh (dom (heap s)) /\
     t = set_Self (Some q) (CTexture_new (m_DefaultHandle s) props)) \/
    (q <> fresh (dom (heap s)) /\ lock s q = Some t).
Proof.
  intros Hh q t. unfold lock. rewrite Hh.
  destruct (decide (fresh (dom (heap s)) = q)) as [<-|Hne].
  - rewrite lookup_insert_eq. intros [= <-]. now left.
  - rewrite lookup_insert_ne by exact Hne. intros H. right. split; congruence.
Qed.

Lemma placeholder_effect s s' :
  placeholder_inv s -> effect s s' -> m_DefaultHandle s' = m_DefaultHandle s ->
  placeholder_inv s'.
Proof.
  intros HP HE Hd p t' Ht' Hn. rewrite Hd.
  destruct (effect_lock s s' HE p t' Ht') as (t & Ht & [->|[(_ & [Hl|[Hnl Hh]] & _) _]]).
  - exact (HP p t Ht Hn).
  - contradiction.
  - rewrite Hh. exact (HP p t Ht Hnl).
Qed.

Lemma placeholder_step s op : Inv s -> placeholder_inv s -> placeholder_inv (step s op).
Proof.
  intros HI HP. destruct op as [props|w this|this|w|path]; simpl.
  - destruct (CreateTexture_cases s props) as [Hf HC]. cbv zeta in HC.
    destruct HC as [(it & _ & ->)|(Hn & s' & -> & Hh & _ & _ & _ & _ & Hd & _)];
      [exact HP|]. cbn [snd].
    intros q t Ht Hnl. rewrite Hd.
    destruct (lock_CreateTexture_new s props s' Hh q t Ht) as [[_ ->]|[_ Ht0]];
      [reflexivity|exact (HP q t Ht0 Hnl)].
  - apply (placeholder_effect s); [exact HP|now apply TryLoad_effect|].
    apply (re_hd _ _ (TryLoad_rest w s this)).
  - apply (placeholder_effect s); [exact HP|apply Prefetch_effect|].
    apply (re_hd _ _ (Prefetch_rest s this)).
  - apply (placeholder_effect s); [exact HP|apply MakeProgress_effect|].
    apply (re_hd _ _ (MakeProgress_rest w s)).
  - destruct (ReloadChangedFile_spec s path) as (R & _ & _ & _ & Hl). cbv zeta in *.
    intros q t' Ht' Hnl. rewrite (re_hd _ _ R). rewrite Hl in Ht'.
    destruct (decide _); [|exact (HP q t' Ht' Hnl)].
    destruct (lock s q) as [t|]; [|discriminate]. injection Ht' as <-.
    now destruct (reset_spec (m_DefaultHandle s) t) as (_ & H & _).
Qed.

Lemma placeholder_new disableGL hDefault hError errorProps :
  placeholder_inv (CTextureManagerImpl disableGL hDefault hError errorProps).
Proof.
  unfold CTextureManagerImpl. destruct disableGL; intros p t; unfold lock; simpl.
  - now rewrite lookup_empty.
  - rewrite lookup_singleton_Some. intros [_ <-]. simpl. congruence.
Qed.

Lemma reachable_placeholder s : reachable s -> placeholder_inv s.
Proof.
  induction 1 as [d hd he ep|s op Hr IH]; [apply placeholder_new|].
  apply placeholder_step; [now apply reachable_Inv|exact IH].
Qed.

Lemma headless_effect s s' :
  headless_inv s -> effect s s' -> rest_eq s s' -> headless_inv s'.
Proof.
  intros HH HE [_ _ Rd Rh Rg] Hg. rewrite Rg in Hg. destruct (HH Hg) as (H1 & H2 & H3).
  rewrite Rd, Rh. split; [exact H1|]. split; [exact H2|].
  intros p t' Ht'.
  destruct (effect_lock s s' HE p t' Ht') as (t & Ht & [->|[(_ & _ & [Hh|[Hh|Hh]]) _]]).
  - exact (H3 p t Ht).
  - rewrite Hh. exact (H3 p t Ht).
  - congruence.
  - congruence.
Qed.

Lemma headless_step s op : Inv s -> headless_inv s -> headless_inv (step s op).
Proof.
  intros HI HH. destruct op as [props|w this|this|w|path]; simpl.
  - destruct (CreateTexture_cases s props) as [Hf HC]. cbv zeta in HC.
    destruct HC as [(it & _ & ->)|(Hn & s' & -> & Hh & _ & _ & _ & _ & Hd & He & Hg & _)];
      [exact HH|]. cbn [snd].
    intros G. rewrite Hg in G. destruct (HH G) as (H1 & H2 & H3).
    rewrite Hd, He. split; [exact H1|]. split; [exact H2|].
    intros q t Ht.
    destruct (lock_CreateTexture_new s props s' Hh q t Ht) as [[_ ->]|[_ Ht0]];
      [exact H1|exact (H3 q t Ht0)].
  - apply (headless_effect s); [exact HH|now apply TryLoad_effect|apply TryLoad_rest].
  - apply (headless_effect s); [exact HH|apply Prefetch_effect|apply Prefetch_rest].
  - apply (headless_effect s); [exact HH|apply MakeProgress_effect|apply MakeProgress_rest].
  - destruct (ReloadChangedFile_spec s path) as (R & _ & _ & _ & Hl). cbv zeta in *.
    intros G. rewrite (re_gl _ _ R) in G. destruct (HH G) as (H1 & H2 & H3).
    rewrite (re_hd _ _ R), (re_he _ _ R). split; [exact H1|]. split; [exact H2|].
    intros q t' Ht'. rewrite Hl in Ht'.
    destruct (decide _); [|exact (H3 q t' Ht')].
    destruct (lock s q) as [t|]; [|discriminate]. injection Ht' as <-.
    destruct (reset_spec (m_DefaultHandle s) t) as (_ & H & _). congruence.
Qed.

Lemma headless_new disableGL hDefault hError errorProps :
  headless_inv (CTextureManagerImpl disableGL hDefault hError errorProps).
Proof.
  unfold CTextureManagerImpl. destruct disableGL; intros G; simpl in *; [|discriminate].
  split; [reflexivity|]. split; [reflexivity|]. intros p t. unfold lock. simpl.
  now rewrite lookup_empty.
Qed.

Lemma reachable_headless s : reachable s -> headless_inv s.
Proof.
  induction 1 as [d hd he ep|s op Hr IH]; [apply headless_new|].
  apply headless_step; [now apply reachable_Inv|exact IH].
Qed.

Lemma tryload_not_converting a b : tryload_moves a b = true -> converting b = false.
Proof. now destruct a, b. Qed.

Lemma prefetch_not_converting a b : prefetch_moves a b = true -> converting b = false.
Proof. now destruct a, b. Qed.

Lemma converting_step s op : Inv s -> converting_inv s -> converting_inv (step s op).
Proof.
  intros HI HC. destruct op as [props|w this|this|w|path]; simpl.
  - destruct (CreateTexture_cases s props) as [Hf HCs]. cbv zeta in HCs.
    destruct HCs as [(it & _ & ->)|(Hn & s' & -> & Hh & _ & Hj & _)];
      [exact HC|]. cbn [snd].
    intros q st Hs Hcv. rewrite Hj.
    destruct (state_of_Some _ _ _ Hs) as (t & Ht & Est).
    destruct (lock_CreateTexture_new s props s' Hh q t Ht) as [[_ ->]|[_ Ht0]].
    + simpl in Est. subst st. discriminate.
    + apply (HC q st); [|exact Hcv]. now rewrite (state_of_lock _ _ _ Ht0), Est.
  - intros q st Hs Hcv. rewrite conv_TryLoad.
    destruct (TryLoad_one_change w s this) as [F Ho].
    destruct (decide (q = this)) as [->|Hne]; [|rewrite Ho in Hs by exact Hne; eauto].
    destruct (state_of_Some _ _ _ Hs) as (t' & Ht' & _).
    destruct (proj1 (frame_live _ _ this F) (ltac:(eauto))) as [t Ht].
    destruct (TryLoad_state w s this t Ht) as (b & Hb & [->|Hm]).
    + apply (HC this st); [|exact Hcv]. rewrite (state_of_lock _ _ _ Ht). congruence.
    + apply tryload_not_converting in Hm. congruence.
  - intros q st Hs Hcv. rewrite conv_Prefetch.
    destruct (Prefetch_one_change s this) as [F Ho].
    destruct (decide (q = this)) as [->|Hne]; [|rewrite Ho in Hs by exact Hne; eauto].
    destruct (state_of_Some _ _ _ Hs) as (t' & Ht' & _).
    destruct (proj1 (frame_live _ _ this F) (ltac:(eauto))) as [t Ht].
    destruct (Prefetch_state s this t Ht) as (b & Hb & [->|Hm]).
    + apply (HC this st); [|exact Hcv]. rewrite (state_of_lock _ _ _ Ht). congruence.
    + apply prefetch_not_converting in Hm. congruence.
  - pose proof (inv_jobs s HI) as Hlen.
    destruct (MakeProgress_cases w s)
      as [(texture & dest & ok & c' & HP & ->)
         |(_ & [(Hc & it & Hs & ->)|[(_ & it & Hs & ->)|[(Hc & _ & _ & it & Hs & ->)
                                                        |(_ & _ & _ & ->)]]])];
      cbn [snd]; [| | | |exact HC].
    + destruct (poll_facts w s texture dest ok c' HP) as (_ & H1 & H2 & _ & _).
      cbv zeta in H1, H2.
      destruct (Converter_Poll_job _ _ _ _ _ _ HP) as (j & Hj & Hjt & _).
      intros q st Hs Hcv. exfalso.
      destruct (decide (q = texture)) as [->|Hne].
      * rewrite H1 in Hs. destruct (state_of s texture); simpl in Hs; [|discriminate].
        injection Hs as <-. discriminate.
      * rewrite H2 in Hs by exact Hne.
        destruct (HC q st Hs Hcv) as (j0 & Hj0 & Hq). rewrite Hj in Hj0, Hlen.
        destruct c'; [|simpl in Hlen; lia].
        apply list_elem_of_singleton in Hj0. congruence.
    + apply scan_Some in Hs as [Hin Hs]. destruct (state_of_Some _ _ _ Hs) as (t & Ht & _).
      destruct (submit_facts w s it HIGH_IS_CONVERTING (ltac:(eauto)))
        as (H1 & H2 & job & Hj & E). cbv zeta in H1, H2.
      intros q st Hq Hcv. rewrite E.
      destruct (decide (q = it)) as [->|Hne].
      * exists job. split; [|exact Hj]. rewrite elem_of_app, list_elem_of_singleton. tauto.
      * rewrite H2 in Hq by exact Hne. destruct (HC q st Hq Hcv) as (j0 & Hj0 & _).
        rewrite Hc in Hj0. now apply elem_of_nil in Hj0.
    + apply scan_Some in Hs as [Hin Hs]. destruct (state_of_Some _ _ _ Hs) as (t & Ht & _).
      destruct (load_facts w s it (ltac:(eauto))) as (H1 & H2 & E). cbv zeta in H1, H2, E.
      intros q st Hq Hcv. rewrite E.
      destruct (decide (q = it)) as [->|Hne]; [|rewrite H2 in Hq by exact Hne; eauto].
      rewrite H1 in Hq. injection Hq as <-.
      now destruct (fst (TryLoadingCached w s it)).
    + apply scan_Some in Hs as [Hin Hs]. destruct (state_of_Some _ _ _ Hs) as (t & Ht & _).
      destruct (submit_facts w s it PREFETCH_IS_CONVERTING (ltac:(eauto)))
        as (H1 & H2 & job & Hj & E). cbv zeta in H1, H2.
      intros q st Hq Hcv. rewrite E.
      destruct (decide (q = it)) as [->|Hne].
      * exists job. split; [|exact Hj]. rewrite elem_of_app, list_elem_of_singleton. tauto.
      * rewrite H2 in Hq by exact Hne. destruct (HC q st Hq Hcv) as (j0 & Hj0 & _).
        rewrite Hc in Hj0. now apply elem_of_nil in Hj0.
  - destruct (ReloadChangedFile_spec s path) as (_ & Hc & _ & _ & Hl). cbv zeta in *.
    intros q st Hs Hcv. rewrite Hc. unfold state_of in Hs. rewrite Hl in Hs.
    destruct (decide _); [|exact (HC q st Hs Hcv)].
    destruct (lock s q) as [t|]; [|discriminate].
    change (Some (m_State (reset (m_DefaultHandle s) t)) = Some st) in Hs.
    destruct (reset_spec (m_DefaultHandle s) t) as (E & _). rewrite E in Hs.
    injection Hs as <-. discriminate.
Qed.

Lemma converting_new disableGL hDefault hError errorProps :
  converting_inv (CTextureManagerImpl disableGL hDefault hError errorProps).
Proof.
  unfold CTextureManagerImpl.
  destruct disableGL; intros p st Hs; apply state_of_Some in Hs as (t & Ht & Est);
    unfold lock in Ht; simpl in Ht.
  - now rewrite lookup_empty in Ht.
  - apply lookup_singleton_Some in Ht as [_ <-]. simpl in Est. subst st. discriminate.
Qed.

Lemma reachable_converting s : reachable s -> converting_inv s.
Proof.
  induction 1 as [d hd he ep|s op Hr IH]; [apply converting_new|].
  apply converting_step; [now apply reachable_Inv|exact IH].
Qed.

End HandleFacts.

(** ** Placeholders, the error texture and the jobs in flight *)

Section HandleExtras.
Context {C : Collaborators}.

Lemma reachable_TryLoad w s this : reachable s -> reachable (snd (TryLoad w s this)).
Proof. intros H. exact (reachable_step s (OpTryLoad w this) H). Qed.

Lemma Bind_alive w s p :
  reachable s -> is_Some (lock s p) ->
  exists t', lock (snd (Bind w s p)) p = Some t' /\ fst (Bind w s p) = Some (m_Handle t').
Proof.
  intros Hr Hp. unfold Bind. cbn [fst snd].
  destruct (TryLoad_one_change w s p) as [F _].
  destruct (proj2 (frame_live _ _ p F) Hp) as [t' Ht'].
  exists t'. split; [exact Ht'|]. unfold handle_of. now rewrite Ht'.
Qed.

(** X8. In every state the manager reaches, a texture that is not [LOADED]
    holds the default handle; so [Bind], which binds the handle left after
    its [TryLoad], binds the default placeholder whenever the texture is
    still not loaded afterwards. *)
Theorem X8_unloaded_textures_show_the_placeholder (s : Manager) (p : ptr) (t : CTexture) :
  reachable s -> lock s p = Some t ->
  (m_State t <> LOADED -> m_Handle t = m_DefaultHandle s) /\
  (forall w, exists h, fst (Bind w s p) = Some h /\
      (IsLoaded (snd (Bind w s p)) p = false -> h = m_DefaultHandle s)).
Proof.
  intros Hr Ht. split; [exact (reachable_placeholder s Hr p t Ht)|].
  intros w. destruct (Bind_alive w s p Hr (ltac:(eauto))) as (t' & Ht' & Hb).
  exists (m_Handle t'). split; [exact Hb|].
  unfold IsLoaded. intros Hl. apply bool_decide_eq_false in Hl.
  unfold Bind in *. cbn [fst snd] in *.
  rewrite <- (re_hd _ _ (TryLoad_rest w s p)).
  apply (reachable_placeholder _ (reachable_TryLoad w s p Hr) p t' Ht').
  intros E. apply Hl. rewrite (state_of_lock _ _ _ Ht'). now rewrite E.
Qed.

(** X9. The error texture: with GL disabled there is none; with GL enabled
    it is, in every state the manager reaches, alive, [LOADED], bound to
    the error handle and no entry of the cache, no changed file resets
    it, and binding it binds the error handle and changes nothing. *)
Theorem X9_the_error_texture_is_permanent (s : Manager) :
  reachable s ->
  (m_DisableGL s = true -> GetErrorTexture s = None) /\
  (m_DisableGL s = false ->
   exists e t, GetErrorTexture s = Some e /\ lock s e = Some t /\
     m_State t = LOADED /\ m_Handle t = m_ErrorHandle s /\
     (e ∉ m_TextureCache s) /\
     (forall path, lock (ReloadChangedFile s path) e = Some t) /\
     (forall w, Bind w s e = (Some (m_ErrorHandle s), s))).
Proof.
  intros Hr. pose proof (reachable_Owns s Hr) as HO. unfold GetErrorTexture.
  split; [exact (proj2 (own_gl s HO))|].
  intros Hg. destruct (m_ErrorTexture s) as [e|] eqn:He.
  2:{ pose proof (proj1 (own_gl s HO) He). congruence. }
  destruct (own_error s HO e He) as (Hn & t & Ht & Hs & Hh).
  exists e, t. repeat split; try assumption.
  - intros path. destruct (ReloadChangedFile_spec s path) as (_ & _ & _ & _ & Hl).
    cbv zeta in Hl. rewrite Hl. destruct (decide _) as [Hin|]; [exfalso|exact Ht].
    apply Hn. destruct (m_HotloadFiles s !! path) as [files|] eqn:E; simpl in Hin;
      [|now apply elem_of_nil in Hin].
    exact (own_hot s HO path files e E Hin).
  - intros w. unfold Bind. rewrite (TryLoad_LOADED w s e t Ht Hs). cbn [snd].
    unfold handle_of. rewrite Ht. simpl. now rewrite Hh.
Qed.

(** X10. At most one texture is being converted: in every state the manager
    reaches, a texture in [HIGH_IS_CONVERTING] or [PREFETCH_IS_CONVERTING]
    is an entry of the cache and the texture of the one job the converter
    holds. *)
Theorem X10_one_conversion_at_a_time (s : Manager) (p : ptr) (a : State) :
  reachable s -> state_of s p = Some a -> converting a = true ->
  p ∈ m_TextureCache s /\
  (exists j, m_TextureConverter s = [j] /\ job_texture j = p) /\
  (forall q b, state_of s q = Some b -> converting b = true -> q = p).
Proof.
  intros Hr Hs Hc. pose proof (reachable_Inv s Hr) as HI.
  pose proof (reachable_converting s Hr) as HC.
  pose proof (inv_jobs s HI) as Hlen.
  destruct (HC p a Hs Hc) as (j & Hj & Hjt).
  assert (E : m_TextureConverter s = [j]).
  { destruct (m_TextureConverter s) as [|j0 [|j1 c]]; simpl in Hlen; [|..|lia].
    - now apply elem_of_nil in Hj.
    - apply list_elem_of_singleton in Hj. now subst. }
  split; [|split].
  - rewrite <- Hjt. exact (own_jobs s (reachable_Owns s Hr) j Hj).
  - exists j. split; [exact E|exact Hjt].
  - intros q b Hq Hb. destruct (HC q b Hq Hb) as (j' & Hj' & Hjt').
    rewrite E in Hj'. apply list_elem_of_singleton in Hj'. congruence.
Qed.

(** X11. With GL disabled nothing ever gets a handle: in every state the
    manager reaches all the handles are 0, the two placeholders too, and
    [Bind] binds 0. *)
Theorem X11_without_GL_there_are_no_handles (s : Manager) :
  reachable s -> m_DisableGL s = true ->
  m_DefaultHandle s = 0 /\ m_ErrorHandle s = 0 /\
  (forall p t, lock s p = Some t -> m_Handle t = 0) /\
  (forall w p, is_Some (lock s p) -> fst (Bind w s p) = Some 0).
Proof.
  intros Hr Hg. destruct (reachable_headless s Hr Hg) as (H1 & H2 & H3).
  repeat split; try assumption.
  intros w p Hp. destruct (Bind_alive w s p Hr Hp) as (t' & Ht' & ->).
  f_equal. unfold Bind in Ht'. cbn [snd] in Ht'.
  assert (Hg' : m_DisableGL (snd (TryLoad w s p)) = true)
    by now rewrite (re_gl _ _ (TryLoad_rest w s p)).
  destruct (reachable_headless _ (reachable_TryLoad w s p Hr) Hg') as (_ & _ & H).
  exact (H p t' Ht').
Qed.

End HandleExtras.

(** ** The entries of the cache *)

Section EntryExtras.
Context {C : Collaborators}.

Lemma find_first_sorted {A : Type} (R : A -> A -> Prop) (f : A -> bool) (l : list A) (x : A) :
  StronglySorted R l -> List.find f l = Some x ->
  forall y, y ∈ l -> f y = true -> y = x \/ R x y.
Proof.
  induction 1 as [|a l Hs IH Ha]; simpl; [discriminate|].
  destruct (f a) eqn:Ea.
  - intros [= <-] y Hy _. apply elem_of_cons in Hy as [->|Hy]; [now left|right].
    rewrite Forall_forall in Ha. apply Ha. exact Hy.
  - intros Hf y Hy Ey. apply elem_of_cons in Hy as [->|Hy]; [congruence|].
    now apply IH.
Qed.

Lemma scan_first s st it :
  Inv s -> scan s st = Some it ->
  forall q, q ∈ m_TextureCache s -> state_of s q = Some st ->
    q = it \/ TextureCacheCmp (props_of s it) (props_of s q) = true.
Proof.
  intros HI Hs q Hq Hst.
  apply (find_first_sorted (cache_below s) _ _ _ (inv_sorted s HI) Hs q Hq).
  now apply bool_decide_eq_true.
Qed.

(** X12. The cache never evicts and holds no key twice: in every state the
    manager reaches two entries with the same key are the same texture,
    and after any calls whatever an entry is still an entry, still alive,
    and still has its key. *)
Theorem X12_cache_entries_are_unique_and_stay (s : Manager) :
  reachable s ->
  (forall p q, p ∈ m_TextureCache s -> q ∈ m_TextureCache s ->
               props_of s p = props_of s q -> p = q) /\
  (forall ops p, p ∈ m_TextureCache s ->
     p ∈ m_TextureCache (run s ops) /\ is_Some (lock (run s ops) p) /\
     props_of (run s ops) p = props_of s p).
Proof.
  intros Hr. pose proof (reachable_Inv s Hr) as HI. split.
  - intros p q Hp Hq E.
    exact (sorted_key_inj (props_of s) TextureCacheCmp TextureCacheCmp_strict
             (m_TextureCache s) (inv_sorted s HI) p q Hp Hq E).
  - intros ops p Hp. destruct (run_Inv_ext ops s HI) as [_ [Hc Hl]].
    destruct (Hl p (inv_live s HI p Hp)) as [Ha Hk]. auto.
Qed.

(** X13. Among the entries waiting in one state [MakeProgress] serves the
    one with the smallest key: when a call that got no finished job from
    the converter moves an entry out of its state, that entry is in the
    cache and every other entry of the cache in that state has a greater
    key for [TextureCacheCmp]. *)
Theorem X13_MakeProgress_serves_the_smallest_key (w : World) (s : Manager) (p : ptr)
    (a : State) :
  reachable s ->
  fst (Converter_Poll w (m_TextureConverter s)) = None ->
  state_of s p = Some a ->
  state_of (snd (MakeProgress w s)) p <> Some a ->
  p ∈ m_TextureCache s /\
  forall q, q ∈ m_TextureCache s -> state_of s q = Some a ->
    q = p \/ TextureCacheCmp (props_of s p) (props_of s q) = true.
Proof.
  intros Hr HP Ha Hch. pose proof (reachable_Inv s Hr) as HI.
  destruct (MakeProgress_cases w s)
    as [(texture & dest & ok & c' & HP' & _)
       |(_ & [(Hc & it & Hs & E)|[(_ & it & Hs & E)|[(Hc & _ & _ & it & Hs & E)
                                                    |(_ & _ & _ & E)]]])];
    [rewrite HP' in HP; discriminate| | | |rewrite E in Hch; contradiction];
    rewrite E in Hch; cbn [snd] in Hch;
    pose proof (scan_first s _ it HI Hs) as Hfirst;
    destruct (scan_Some _ _ _ Hs) as [Hin Hst];
    destruct (state_of_Some _ _ _ Hst) as (t & Ht & _).
  - destruct (submit_facts w s it HIGH_IS_CONVERTING (ltac:(eauto))) as (_ & H2 & _).
    cbv zeta in H2. destruct (decide (p = it)) as [->|Hne];
      [|rewrite H2 in Hch by exact Hne; contradiction].
    assert (a = HIGH_NEEDS_CONVERTING) as -> by congruence. auto.
  - destruct (load_facts w s it (ltac:(eauto))) as (_ & H2 & _).
    cbv zeta in H2. destruct (decide (p = it)) as [->|Hne];
      [|rewrite H2 in Hch by exact Hne; contradiction].
    assert (a = PREFETCH_NEEDS_LOADING) as -> by congruence. auto.
  - destruct (submit_facts w s it PREFETCH_IS_CONVERTING (ltac:(eauto))) as (_ & H2 & _).
    cbv zeta in H2. destruct (decide (p = it)) as [->|Hne];
      [|rewrite H2 in Hch by exact Hne; contradiction].
    assert (a = PREFETCH_NEEDS_CONVERTING) as -> by congruence. auto.
Qed.

End EntryExtras.

(** ** The index grows *)

Section IndexFacts.
Context {C : Collaborators}.

Lemma set_insert_keeps {A : Type} (lt : A -> A -> bool) (x z : A) (l : list A) :
  z ∈ l -> z ∈ set_insert lt x l.
Proof.
  induction l as [|a l IH]; simpl; [intros H; now apply elem_of_nil in H|].
  destruct (lt a x).
  - rewrite !elem_of_cons. intros [->|H]; [now left|right; now apply IH].
  - destruct (lt x a); rewrite !elem_of_cons; tauto.
Qed.

Lemma set_insert_has {A : Type} (lt : A -> A -> bool) (x : A) (l : list A) :
  StrictTotal lt -> x ∈ set_insert lt x l.
Proof.
  intros Hst. induction l as [|a l IH]; simpl; [now apply list_elem_of_singleton|].
  destruct (lt a x) eqn:E1; [apply elem_of_cons; now right|].
  destruct (lt x a) eqn:E2; apply elem_of_cons; left; [reflexivity|].
  now apply (st_total lt Hst).
Qed.

Lemma hot_mono_refl s : hot_mono s s.
Proof. now intros path p. Qed.

Lemma hot_mono_trans s1 s2 s3 : hot_mono s1 s2 -> hot_mono s2 s3 -> hot_mono s1 s3.
Proof. intros H1 H2 path p H. apply H2, H1, H. Qed.

Lemma hot_mono_same s s' : m_HotloadFiles s' = m_HotloadFiles s -> hot_mono s s'.
Proof. intros E path p. now rewrite E. Qed.

Lemma hot_mono_hotload_insert path p s : hot_mono s (hotload_insert path p s).
Proof.
  intros path' q. unfold hotload_insert. simpl.
  destruct (decide (path = path')) as [<-|Hne].
  - rewrite lookup_insert_eq. simpl. apply set_insert_keeps.
  - now rewrite lookup_insert_ne by exact Hne.
Qed.

Lemma registered_hotload_insert path p s : registered (hotload_insert path p s) path p.
Proof.
  unfold registered, hotload_insert. simpl. rewrite lookup_insert_eq. simpl.
  apply set_insert_has, weak_lt_strict.
Qed.

Lemma registered_mono s s' path p : hot_mono s s' -> registered s path p -> registered s' path p.
Proof. intros H. apply H. Qed.

Lemma GetSettingsFile_other w s path other :
  other <> path ->
  m_SettingsFiles (snd (GetSettingsFile w s path)) !! other = m_SettingsFiles s !! other.
Proof.
  intros Hne. unfold GetSettingsFile.
  destruct (m_SettingsFiles s !! path); [reflexivity|].
  destruct (GetFileInfo w path); simpl; now rewrite lookup_insert_ne by congruence.
Qed.

Lemma GetSettingsFile_fst w s s' path :
  m_SettingsFiles s' !! path = m_SettingsFiles s !! path ->
  fst (GetSettingsFile w s' path) = fst (GetSettingsFile w s path).
Proof.
  intros E. unfold GetSettingsFile. rewrite E.
  destruct (m_SettingsFiles s !! path); [reflexivity|]. now destruct (GetFileInfo w path).
Qed.

Lemma settings_path_ne (p : VfsPath) (it : string) (rest : VfsPath) (k : nat) :
  p ++ [it] ++ settings_path rest k <> p ++ ["textures.xml"%string].
Proof.
  intros E. apply app_inv_head in E. unfold settings_path in E. simpl in E.
  injection E as _ E. now destruct (take k rest).
Qed.

Lemma omap_seq_shift {A : Type} (f : nat -> option A) (n : nat) :
  forall a, omap f (seq (S a) n) = omap (fun k => f (S k)) (seq a n).
Proof.
  induction n as [|n IH]; intros a; [reflexivity|].
  cbn [seq omap list_omap]. now rewrite IH.
Qed.

Lemma omap_seq_ext {A : Type} (f g : nat -> option A) (n a : nat) :
  (forall k, f k = g k) -> omap f (seq a n) = omap g (seq a n).
Proof.
  intros H. revert a. induction n as [|n IH]; intros a; [reflexivity|].
  cbn [seq omap list_omap]. now rewrite H, IH.
Qed.

(** The loop of [GetConverterSettings]: the files found, from the root
    down, and the registrations made. *)
Lemma GetConverterSettings_loop_spec w texture its :
  forall p files s,
    let r := GetConverterSettings_loop w texture its p files s in
    fst r = files ++ omap (fun k => fst (GetSettingsFile w s (p ++ settings_path its k)))
                          (seq 0 (length its)) /\
    (forall other, (forall k, other <> p ++ settings_path its k) ->
       m_SettingsFiles (snd r) !! other = m_SettingsFiles s !! other) /\
    (forall k, (k < length its)%nat -> registered (snd r) (p ++ settings_path its k) texture) /\
    hot_mono s (snd r).
Proof.
  induction its as [|it rest IH]; intros p files s; cbn [GetConverterSettings_loop].
  - cbn [fst snd length seq omap list_omap]. rewrite app_nil_r.
    split; [reflexivity|]. split; [reflexivity|]. split; [intros k Hk; simpl in Hk; lia|].
    apply hot_mono_refl.
  - pose proof (hot_GetSettingsFile w
                  (hotload_insert (p ++ ["textures.xml"%string]) texture s)
                  (p ++ ["textures.xml"%string])) as Hhot.
    pose proof (fun other => GetSettingsFile_other w
                  (hotload_insert (p ++ ["textures.xml"%string]) texture s)
                  (p ++ ["textures.xml"%string]) other) as Hoth.
    assert (Hf : fst (GetSettingsFile w
                        (hotload_insert (p ++ ["textures.xml"%string]) texture s)
                        (p ++ ["textures.xml"%string]))
                 = fst (GetSettingsFile w s (p ++ ["textures.xml"%string])))
      by (apply GetSettingsFile_fst; reflexivity).
    destruct (GetSettingsFile w (hotload_insert (p ++ ["textures.xml"%string]) texture s)
                (p ++ ["textures.xml"%string])) as [f s2].
    cbn [fst snd] in Hhot, Hoth, Hf.
    destruct (IH (p ++ [it])
                (match f with Some f0 => files ++ [f0] | None => files end) s2)
      as (H1 & H2 & H3 & H4).
    cbv zeta in H1, H2, H3, H4.
    assert (Hm : hot_mono s s2).
    { apply (hot_mono_trans _ (hotload_insert (p ++ ["textures.xml"%string]) texture s));
        [apply hot_mono_hotload_insert|apply hot_mono_same, Hhot]. }
    assert (Hpath : forall k, (p ++ [it]) ++ settings_path rest k
                              = p ++ settings_path (it :: rest) (S k)).
    { intros k. unfold settings_path. simpl. now rewrite <- !app_assoc. }
    assert (Hne : forall k, p ++ settings_path (it :: rest) (S k)
                            <> p ++ ["textures.xml"%string]).
    { intros k. rewrite <- Hpath, <- app_assoc. apply settings_path_ne. }
    split; [|split; [|split]].
    + rewrite H1. cbn [length seq omap list_omap]. rewrite omap_seq_shift.
      change (p ++ settings_path (it :: rest) 0) with (p ++ ["textures.xml"%string]).
      rewrite <- Hf.
      rewrite (omap_seq_ext
                 (fun k => fst (GetSettingsFile w s2 ((p ++ [it]) ++ settings_path rest k)))
                 (fun k => fst (GetSettingsFile w s (p ++ settings_path (it :: rest) (S k))))).
      2:{ intros k. rewrite Hpath. apply GetSettingsFile_fst.
          rewrite Hoth by apply Hne. reflexivity. }
      destruct f; [now rewrite <- app_assoc|reflexivity].
    + intros other Ho. rewrite H2.
      * rewrite Hoth; [reflexivity|]. exact (Ho 0%nat).
      * intros k. rewrite Hpath. apply Ho.
    + intros [|k] Hk.
      * apply (registered_mono s2); [exact H4|].
        apply (registered_mono (hotload_insert (p ++ ["textures.xml"%string]) texture s));
          [now apply hot_mono_same|].
        apply registered_hotload_insert.
      * rewrite <- Hpath. apply H3. simpl in Hk. lia.
    + eapply hot_mono_trans; [exact Hm|exact H4].
Qed.

End IndexFacts.

(** ** What is registered for hotloading *)

Section IndexExtras.
Context {C : Collaborators}.

(** X14. [GetConverterSettings] walks down from the root: it asks
    [GetSettingsFile] for the [textures.xml] of every directory above the
    texture, the root first, hands the files that exist to
    [ComputeSettings] in that order, registers the texture under each of
    these paths, whether the file exists or not, and leaves the memoized
    settings of all other paths and the textures alone. *)
Theorem X14_GetConverterSettings_walks_down_from_the_root (w : World) (s : Manager)
    (texture : ptr) :
  let src := path_of s texture in
  let r := GetConverterSettings w s texture in
  fst r = ComputeSettings (leaf src)
            (omap (fun k => fst (GetSettingsFile w s (settings_path src k)))
                  (seq 0 (length src))) /\
  (forall k, (k < length src)%nat -> registered (snd r) (settings_path src k) texture) /\
  (forall other, (forall k, other <> settings_path src k) ->
     m_SettingsFiles (snd r) !! other = m_SettingsFiles s !! other) /\
  heap (snd r) = heap s /\ m_TextureCache (snd r) = m_TextureCache s /\
  m_TextureConverter (snd r) = m_TextureConverter s.
Proof.
  intros src r.
  destruct (cfg_only_GetConverterSettings w s texture) as (Hh & Hr & Hc).
  destruct (GetConverterSettings_loop_spec w texture src [] [] s) as (H1 & H2 & H3 & _).
  cbv zeta in H1, H2, H3. unfold r. revert Hh Hr Hc. unfold GetConverterSettings. fold src.
  destruct (GetConverterSettings_loop w texture src [] [] s) as [files s'].
  cbn [fst snd] in *. intros Hh Hr Hc. subst files.
  split; [reflexivity|]. split; [exact H3|]. split; [exact H2|].
  split; [exact Hh|]. split; [apply Hr|exact Hc].
Qed.

Lemma GetConverterSettings_registers w s texture k :
  (k < length (path_of s texture))%nat ->
  registered (snd (GetConverterSettings w s texture))
    (settings_path (path_of s texture) k) texture.
Proof.
  intros Hk.
  destruct (GetConverterSettings_loop_spec w texture (path_of s texture) [] [] s)
    as (_ & _ & H3 & _).
  cbv zeta in H3. unfold GetConverterSettings.
  destruct (GetConverterSettings_loop w texture (path_of s texture) [] [] s) as [files s'].
  now apply H3.
Qed.

Lemma hot_mono_GetConverterSettings w s texture :
  hot_mono s (snd (GetConverterSettings w s texture)).
Proof.
  destruct (GetConverterSettings_loop_spec w texture (path_of s texture) [] [] s)
    as (_ & _ & _ & H4).
  cbv zeta in H4. unfold GetConverterSettings.
  now destruct (GetConverterSettings_loop w texture (path_of s texture) [] [] s).
Qed.

Lemma hot_mono_LooseCachePath w s texture : hot_mono s (snd (LooseCachePath w s texture)).
Proof.
  unfold LooseCachePath. destruct (GetFileInfo w (path_of s texture)); [|apply hot_mono_refl].
  pose proof (hot_mono_GetConverterSettings w s texture) as H.
  now destruct (GetConverterSettings w s texture).
Qed.

Lemma LooseCachePath_registers w s texture k :
  is_Some (GetFileInfo w (path_of s texture)) ->
  (k < length (path_of s texture))%nat ->
  registered (snd (LooseCachePath w s texture)) (settings_path (path_of s texture) k) texture.
Proof.
  intros [fi Hfi] Hk. unfold LooseCachePath. rewrite Hfi.
  pose proof (GetConverterSettings_registers w s texture k Hk) as H.
  now destruct (GetConverterSettings w s texture).
Qed.

Lemma hot_mono_TryLoadingCached w s texture :
  hot_mono s (snd (TryLoadingCached w s texture)).
Proof.
  unfold TryLoadingCached.
  destruct (CanUseArchiveCache _ _ _); [apply hot_mono_same, hot_LoadTexture|].
  destruct (GetFileInfo w (path_of s texture)); [|now apply hot_mono_same].
  pose proof (hot_mono_LooseCachePath w s texture) as H.
  destruct (LooseCachePath w s texture) as [lp s1]. cbn [snd] in H.
  destruct (GetFileInfo w lp); cbn [snd]; [|exact H].
  eapply hot_mono_trans; [exact H|apply hot_mono_same, hot_LoadTexture].
Qed.

Lemma TryLoadingCached_registers w s texture k :
  fst (TryLoadingCached w s texture) = false ->
  (k < length (path_of s texture))%nat ->
  registered (snd (TryLoadingCached w s texture))
    (settings_path (path_of s texture) k) texture.
Proof.
  unfold TryLoadingCached.
  destruct (CanUseArchiveCache _ _ _); [discriminate|].
  destruct (GetFileInfo w (path_of s texture)) as [fi|] eqn:Hfi; [|discriminate].
  pose proof (LooseCachePath_registers w s texture k (ltac:(eauto))) as H.
  destruct (LooseCachePath w s texture) as [lp s1]. cbn [snd] in H.
  destruct (GetFileInfo w lp); [discriminate|]. intros _. exact H.
Qed.

Lemma hot_mono_ConvertTexture w s texture : hot_mono s (ConvertTexture w s texture).
Proof.
  unfold ConvertTexture.
  pose proof (hot_mono_LooseCachePath w s texture) as H1.
  destruct (LooseCachePath w s texture) as [lp s1]. cbn [snd] in H1.
  pose proof (hot_mono_GetConverterSettings w s1 texture) as H2.
  destruct (GetConverterSettings w s1 texture) as [st s2]. cbn [snd] in H2.
  eapply hot_mono_trans; [exact H1|]. eapply hot_mono_trans; [exact H2|].
  now apply hot_mono_same.
Qed.

Lemma hot_mono_TryLoad w s this : hot_mono s (snd (TryLoad w s this)).
Proof.
  unfold TryLoad. destruct (lock s this) as [t|]; cbn [snd]; [|apply hot_mono_refl].
  destruct (_ || _); [|apply hot_mono_refl].
  destruct (weak_lock s (m_Self t)) as [self|]; [|apply hot_mono_refl].
  destruct (bool_decide (m_State t = PREFETCH_NEEDS_CONVERTING)); [now apply hot_mono_same|].
  pose proof (hot_mono_TryLoadingCached w s self) as H.
  destruct (TryLoadingCached w s self) as [ok s1]. cbn [snd] in H.
  destruct ok; (eapply hot_mono_trans; [exact H|now apply hot_mono_same]).
Qed.

Lemma hot_mono_MakeProgress w s : hot_mono s (snd (MakeProgress w s)).
Proof.
  destruct (MakeProgress_cases w s)
    as [(texture & dest & ok & c' & HP & ->)
       |(_ & [(Hc & it & Hs & ->)|[(_ & it & Hs & ->)|[(Hc & _ & _ & it & Hs & ->)
                                                      |(_ & _ & _ & ->)]]])];
    cbn [snd].
  - apply hot_mono_same. destruct ok; simpl; [now rewrite hot_LoadTexture|reflexivity].
  - eapply hot_mono_trans; [|apply hot_mono_ConvertTexture]. now apply hot_mono_same.
  - eapply hot_mono_trans; [apply hot_mono_TryLoadingCached|]. now apply hot_mono_same.
  - eapply hot_mono_trans; [|apply hot_mono_ConvertTexture]. now apply hot_mono_same.
  - apply hot_mono_refl.
Qed.

Lemma hot_mono_step s op : hot_mono s (step s op).
Proof.
  destruct op as [props|w this|this|w|path]; simpl.
  - destruct (CreateTexture_cases s props) as [Hf HC]. cbv zeta in HC.
    destruct HC as [(it & _ & ->)|(_ & s' & -> & _ & _ & _ & _ & _ & _ & _ & _ & Hhot)];
      [apply hot_mono_refl|]. cbn [snd].
    eapply hot_mono_trans; [apply hot_mono_hotload_insert|apply hot_mono_same, Hhot].
  - apply hot_mono_TryLoad.
  - apply hot_mono_same, hot_Prefetch.
  - apply hot_mono_MakeProgress.
  - destruct (ReloadChangedFile_spec s path) as (_ & _ & E & _). now apply hot_mono_same.
Qed.

Lemma path_of_step s op p : Inv s -> is_Some (lock s p) -> path_of (step s op) p = path_of s p.
Proof.
  intros HI Hp. destruct (step_Inv_ext s op HI) as [_ [_ Hl]].
  destruct (Hl p Hp) as [_ E]. unfold path_of. now rewrite E.
Qed.

Lemma registered_step s op : Inv s -> registered_inv s -> registered_inv (step s op).
Proof.
  intros HI HR p Hp.
  assert (Hold : p ∈ m_TextureCache s -> registered (step s op) (path_of (step s op) p) p).
  { intros Hin. rewrite (path_of_step s op p HI (inv_live s HI p Hin)).
    apply (hot_mono_step s op). exact (HR p Hin). }
  destruct op as [props|w this|this|w|path]; cbn [step] in *.
  - destruct (CreateTexture_cases s props) as [Hf HC]. cbv zeta in HC.
    destruct HC as [(it & _ & E)|(Hn & s' & E & Hh & Hc & _ & _ & _ & _ & _ & _ & Hhot)];
      rewrite E in *; cbn [snd] in *; [now apply Hold|].
    rewrite Hc in Hp.
    apply (set_insert_elem (props_of _) TextureCacheCmp _ _ _ Hn) in Hp as [->|Hp];
      [|now apply Hold].
    assert (Hpath : path_of s' (fresh (dom (heap s))) = m_Path props).
    { unfold path_of, props_of, lock. rewrite Hh, lookup_insert_eq. reflexivity. }
    rewrite Hpath. unfold registered. rewrite Hhot. apply registered_hotload_insert.
  - apply Hold. now rewrite (re_cache _ _ (TryLoad_rest w s this)) in Hp.
  - apply Hold. now rewrite (re_cache _ _ (Prefetch_rest s this)) in Hp.
  - apply Hold. now rewrite (re_cache _ _ (MakeProgress_rest w s)) in Hp.
  - apply Hold. destruct (ReloadChangedFile_spec s path) as (R & _).
    now rewrite (re_cache _ _ R) in Hp.
Qed.

Lemma reachable_registered s : reachable s -> registered_inv s.
Proof.
  induction 1 as [d hd he ep|s op Hr IH].
  - intros p Hp. unfold CTextureManagerImpl in Hp.
    destruct d; simpl in Hp; now apply elem_of_nil in Hp.
  - apply registered_step; [now apply reachable_Inv|exact IH].
Qed.

(** X15. Every entry of the cache is registered under its own source
    path, in every state the manager reaches: a change of the source file
    sends the texture back to [UNLOADED] and to the default handle,
    whatever its state was. Its key stays, and so does the colour
    [GetBaseColour] reports, until the file is loaded again. *)
Theorem X15_a_changed_source_resets_its_textures (s : Manager) (p : ptr) :
  reachable s -> p ∈ m_TextureCache s ->
  let s' := ReloadChangedFile s (path_of s p) in
  registered s (path_of s p) p /\
  state_of s' p = Some UNLOADED /\ handle_of s' p = Some (m_DefaultHandle s) /\
  props_of s' p = props_of s p /\ GetBaseColour s' p = GetBaseColour s p.
Proof.
  intros Hr Hp s'. pose proof (reachable_Inv s Hr) as HI.
  pose proof (reachable_registered s Hr p Hp) as Hreg.
  destruct (inv_live s HI p Hp) as [t Ht].
  destruct (ReloadChangedFile_spec s (path_of s p)) as (_ & _ & _ & _ & Hl).
  fold s' in Hl. specialize (Hl p). rewrite decide_True in Hl by exact Hreg.
  rewrite Ht in Hl. cbn in Hl.
  destruct (reset_spec (m_DefaultHandle s) t) as (H1 & H2 & H3 & H4).
  split; [exact Hreg|].
  unfold state_of, handle_of, props_of, GetBaseColour. rewrite Hl, Ht. cbn.
  rewrite H1, H2, H4. unfold ident in H3. repeat split; congruence.
Qed.

End IndexExtras.

(** ** Settings files and the textures that depend on them *)

Section SettingsExtras.
Context {C : Collaborators}.

Lemma path_of_upd_state p st s q : path_of (upd p (set_State st) s) q = path_of s q.
Proof.
  unfold path_of, props_of. rewrite lock_upd.
  destruct (decide (p = q)) as [->|]; [|reflexivity]. now destruct (lock s q).
Qed.

Lemma path_of_iframe s s' q : iframe s s' -> path_of s' q = path_of s q.
Proof. intros F. unfold path_of. now rewrite (frame_props _ _ q (iframe_frame _ _ F)). Qed.

(** An entry whose settings are known after a step had them known before,
    or the step has just registered it. *)
Lemma known_case s op p a' :
  Inv s -> state_of (step s op) p = Some a' -> settings_known a' = true ->
  (exists a, state_of s p = Some a /\ settings_known a = true) \/
  (forall k, (k < length (path_of s p))%nat ->
     registered (step s op) (settings_path (path_of s p) k) p).
Proof.
  intros HI Hs Hk. destruct op as [props|w this|this|w|path]; cbn [step] in *.
  - destruct (CreateTexture_cases s props) as [Hf HC]. cbv zeta in HC.
    destruct HC as [(it & _ & E)|(Hn & s' & E & Hh & _)];
      rewrite E in *; cbn [snd] in *; [left; eauto|].
    destruct (state_of_Some _ _ _ Hs) as (t & Ht & Est).
    destruct (lock_CreateTexture_new s props s' Hh p t Ht) as [[_ ->]|[_ Ht0]].
    + simpl in Est. subst a'. discriminate.
    + left. exists a'. split; [|exact Hk]. now rewrite (state_of_lock _ _ _ Ht0), Est.
  - destruct (TryLoad_one_change w s this) as [F Ho].
    destruct (decide (p = this)) as [->|Hne];
      [|left; exists a'; split; [now rewrite <- Ho|exact Hk]].
    destruct (state_of_Some _ _ _ Hs) as (t' & Ht' & _).
    destruct (proj1 (frame_live _ _ this F) (ltac:(eauto))) as [t Ht].
    pose proof (state_of_lock _ _ _ Ht) as Hst.
    rewrite (TryLoad_eq w s this t Ht (inv_self s HI _ _ Ht)) in Hs |- *.
    cbn [snd] in *. unfold TryLoad_next in *.
    destruct (m_State t) eqn:Est;
      try (left; exists a'; split; [congruence|exact Hk]);
      try (left; eexists; split; [exact Hst|reflexivity]).
    + right. intros k Hlt.
      rewrite (state_after_set s _ this _ (ltac:(eauto))
                 (iframe_sframe _ _ (iframe_TryLoadingCached w s this))) in Hs.
      injection Hs as <-.
      destruct (fst (TryLoadingCached w s this)) eqn:Ec; [discriminate|].
      exact (TryLoadingCached_registers w s this k Ec Hlt).
    + right. intros k Hlt.
      rewrite (state_after_set s _ this _ (ltac:(eauto))
                 (iframe_sframe _ _ (iframe_TryLoadingCached w s this))) in Hs.
      injection Hs as <-.
      destruct (fst (TryLoadingCached w s this)) eqn:Ec; [discriminate|].
      exact (TryLoadingCached_registers w s this k Ec Hlt).
  - destruct (Prefetch_one_change s this) as [F Ho].
    destruct (decide (p = this)) as [->|Hne];
      [|left; exists a'; split; [now rewrite <- Ho|exact Hk]].
    destruct (state_of_Some _ _ _ Hs) as (t' & Ht' & _).
    destruct (proj1 (frame_live _ _ this F) (ltac:(eauto))) as [t Ht].
    destruct (Prefetch_state s this t Ht) as (b & Hb & [->|Hm]).
    + left. exists a'. split; [|exact Hk]. rewrite (state_of_lock _ _ _ Ht). congruence.
    + assert (a' = b) as -> by congruence. now destruct (m_State t), b.
  - destruct (MakeProgress_cases w s)
      as [(texture & dest & ok & c' & HP & E)
         |(_ & [(Hc & it & Hsc & E)|[(_ & it & Hsc & E)|[(Hc & _ & _ & it & Hsc & E)
                                                        |(_ & _ & _ & E)]]])];
      rewrite E in *; cbn [snd] in *; [| | | |left; eauto].
    + destruct (poll_facts w s texture dest ok c' HP) as (_ & H1 & H2 & _).
      cbv zeta in H1, H2. left.
      destruct (decide (p = texture)) as [->|Hne].
      * rewrite H1 in Hs. destruct (state_of s texture); simpl in Hs; [|discriminate].
        injection Hs as <-. discriminate.
      * exists a'. split; [now rewrite <- H2|exact Hk].
    + apply scan_Some in Hsc as [_ Hsc]. destruct (state_of_Some _ _ _ Hsc) as (t & Ht & _).
      destruct (submit_facts w s it HIGH_IS_CONVERTING (ltac:(eauto))) as (_ & H2 & _).
      cbv zeta in H2. left. destruct (decide (p = it)) as [->|Hne].
      * eexists. split; [exact Hsc|reflexivity].
      * exists a'. split; [now rewrite <- H2|exact Hk].
    + apply scan_Some in Hsc as [_ Hsc]. destruct (state_of_Some _ _ _ Hsc) as (t & Ht & _).
      destruct (load_facts w s it (ltac:(eauto))) as (H1 & H2 & _). cbv zeta in H1, H2.
      destruct (decide (p = it)) as [->|Hne];
        [|left; exists a'; split; [now rewrite <- H2|exact Hk]].
      right. intros k Hlt. rewrite H1 in Hs. injection Hs as <-.
      destruct (fst (TryLoadingCached w s it)) eqn:Ec; [discriminate|].
      exact (TryLoadingCached_registers w s it k Ec Hlt).
    + apply scan_Some in Hsc as [_ Hsc]. destruct (state_of_Some _ _ _ Hsc) as (t & Ht & _).
      destruct (submit_facts w s it PREFETCH_IS_CONVERTING (ltac:(eauto))) as (_ & H2 & _).
      cbv zeta in H2. left. destruct (decide (p = it)) as [->|Hne].
      * eexists. split; [exact Hsc|reflexivity].
      * exists a'. split; [now rewrite <- H2|exact Hk].
  - destruct (ReloadChangedFile_spec s path) as (_ & _ & _ & _ & Hl). cbv zeta in Hl.
    unfold state_of in Hs. rewrite Hl in Hs.
    destruct (decide _); [|left; eauto].
    destruct (lock s p) as [t|]; [|discriminate].
    change (Some (m_State (reset (m_DefaultHandle s) t)) = Some a') in Hs.
    destruct (reset_spec (m_DefaultHandle s) t) as (E & _). rewrite E in Hs.
    injection Hs as <-. discriminate.
Qed.

Lemma known_step s op : Inv s -> known_inv s -> known_inv (step s op).
Proof.
  intros HI HK p a' Hs Hk k Hlt.
  destruct (step_Inv_ext s op HI) as [_ [_ Hext]].
  assert (Hp : is_Some (lock s p)).
  { destruct (state_of_Some _ _ _ Hs) as (t' & Ht' & _).
    destruct op as [props|w this|this|w|path]; cbn [step] in *.
    - destruct (CreateTexture_cases s props) as [Hf HC]. cbv zeta in HC.
      destruct HC as [(it & _ & E)|(Hn & s' & E & Hh & _)];
        rewrite E in *; cbn [snd] in *; [eauto|].
      destruct (lock_CreateTexture_new s props s' Hh p t' Ht') as [[_ ->]|[_ Ht0]]; [|eauto].
      unfold state_of in Hs. rewrite Ht' in Hs. simpl in Hs. injection Hs as <-. discriminate.
    - destruct (TryLoad_one_change w s this) as [F _]. apply (frame_live _ _ p F). eauto.
    - destruct (Prefetch_one_change s this) as [F _]. apply (frame_live _ _ p F). eauto.
    - destruct (MakeProgress_one_change w s) as (p0 & F & _). apply (frame_live _ _ p F). eauto.
    - apply (frame_live _ _ p (frame_ReloadChangedFile s path)). eauto. }
  pose proof (path_of_step s op p HI Hp) as Hpath. rewrite Hpath in Hlt |- *.
  destruct (known_case s op p a' HI Hs Hk) as [(a & Ha & Hka)|H]; [|now apply H].
  apply (hot_mono_step s op). exact (HK p a Ha Hka k Hlt).
Qed.

Lemma reachable_known s : reachable s -> known_inv s.
Proof.
  induction 1 as [d hd he ep|s op Hr IH].
  - intros p a Hs Hk. exfalso. apply state_of_Some in Hs as (t & Ht & Est).
    unfold CTextureManagerImpl, lock in Ht. destruct d; simpl in Ht.
    + now rewrite lookup_empty in Ht.
    + apply lookup_singleton_Some in Ht as [_ <-]. simpl in Est. subst a. discriminate.
  - apply known_step; [now apply reachable_Inv|exact IH].
Qed.

(** X16. In every state the manager reaches, a texture that waits for its
    conversion or is being converted is registered under the
    [textures.xml] of every directory above it: when one of these files
    changes, or appears, the texture goes back to [UNLOADED] and to the
    default handle, and the memoized answer for the file is dropped. *)
Theorem X16_a_changed_settings_file_resets_the_textures_below (s : Manager) (p : ptr)
    (a : State) (k : nat) :
  reachable s -> state_of s p = Some a -> settings_known a = true ->
  (k < length (path_of s p))%nat ->
  let file := settings_path (path_of s p) k in
  let s' := ReloadChangedFile s file in
  registered s file p /\
  state_of s' p = Some UNLOADED /\ handle_of s' p = Some (m_DefaultHandle s) /\
  m_SettingsFiles s' !! file = None.
Proof.
  intros Hr Hs Hk Hlt file s'.
  pose proof (reachable_known s Hr p a Hs Hk k Hlt) as Hreg. fold file in Hreg.
  destruct (state_of_Some _ _ _ Hs) as (t & Ht & _).
  destruct (ReloadChangedFile_spec s file) as (_ & _ & _ & Hset & Hl).
  fold s' in Hl, Hset. specialize (Hl p). rewrite decide_True in Hl by exact Hreg.
  rewrite Ht in Hl. cbn in Hl.
  destruct (reset_spec (m_DefaultHandle s) t) as (H1 & H2 & _).
  split; [exact Hreg|].
  unfold state_of, handle_of. rewrite Hl. cbn. rewrite H1, H2.
  repeat split. rewrite Hset. apply lookup_delete_eq.
Qed.

End SettingsExtras.

(** ** Cached files and conversion jobs *)

Section CachedExtras.
Context {C : Collaborators}.

(** X17. [TryLoadingCached] misses in one case only: the archive cache is
    not usable, the source exists and the loose cache file does not. A
    miss leaves every texture as it was; a hit touches no texture but the
    one asked for, and keeps its state, its key and its self reference.
    The cache and the converter are never touched. *)
Theorem X17_TryLoadingCached_misses_in_one_case (w : World) (s : Manager) (texture : ptr) :
  let src := path_of s texture in
  let archive := branch_path src ++ [(leaf src +:+ ".dds")%string] in
  let r := TryLoadingCached w s texture in
  (fst r = false <->
     CanUseArchiveCache w src archive = false /\ is_Some (GetFileInfo w src) /\
     GetFileInfo w (fst (LooseCachePath w s texture)) = None) /\
  (fst r = false -> heap (snd r) = heap s) /\
  (forall q, q <> texture -> lock (snd r) q = lock s q) /\
  (forall t, lock s texture = Some t ->
     exists t', lock (snd r) texture = Some t' /\ skel_of t' = skel_of t) /\
  m_TextureCache (snd r) = m_TextureCache s /\
  m_TextureConverter (snd r) = m_TextureConverter s.
Proof.
  intros src archive r.
  destruct (TryLoadingCached_heap w s texture) as (g & Hg & E & Em). fold r in E, Em.
  destruct (iframe_TryLoadingCached w s texture) as (_ & R & Hc). fold r in R, Hc.
  split; [|split; [exact Em|split; [|split; [|split; [apply R|exact Hc]]]]].
  - unfold r, TryLoadingCached. fold src. fold archive.
    destruct (CanUseArchiveCache w src archive).
    { cbn [fst]. split; [discriminate|]. now intros [? _]. }
    destruct (GetFileInfo w src) as [fi|].
    2:{ cbn [fst]. split; [discriminate|]. intros (_ & [? ?] & _). discriminate. }
    destruct (LooseCachePath w s texture) as [lp s1]. cbn [fst].
    destruct (GetFileInfo w lp); cbn [fst]; split.
    + discriminate.
    + intros (_ & _ & ?). discriminate.
    + intros _. repeat split. eauto.
    + reflexivity.
  - intros q Hq. unfold lock. rewrite E. now apply lookup_alter_ne.
  - intros t Ht. exists (g t). split; [|apply Hg].
    unfold lock in *. rewrite E, lookup_alter_eq, Ht. reflexivity.
Qed.

Lemma GetSettingsFile_memo w s path :
  m_SettingsFiles (snd (GetSettingsFile w s path)) !! path
  = Some (fst (GetSettingsFile w s path)).
Proof.
  unfold GetSettingsFile. destruct (m_SettingsFiles s !! path) as [f|] eqn:E; [exact E|].
  destruct (GetFileInfo w path); cbn [fst snd]; simpl; apply lookup_insert_eq.
Qed.

Lemma GetSettingsFile_memoized w s path f :
  m_SettingsFiles s !! path = Some f -> fst (GetSettingsFile w s path) = f.
Proof. intros E. unfold GetSettingsFile. now rewrite E. Qed.

(** After the loop every file it asked for is memoized with the answer
    it got. *)
Lemma GetConverterSettings_loop_memo w texture its :
  forall p files s k, (k < length its)%nat ->
    m_SettingsFiles (snd (GetConverterSettings_loop w texture its p files s))
      !! (p ++ settings_path its k)
    = Some (fst (GetSettingsFile w s (p ++ settings_path its k))).
Proof.
  induction its as [|it rest IH]; intros p files s k Hk; [simpl in Hk; lia|].
  cbn [GetConverterSettings_loop].
  pose proof (GetSettingsFile_memo w
                (hotload_insert (p ++ ["textures.xml"%string]) texture s)
                (p ++ ["textures.xml"%string])) as Hmemo.
  pose proof (fun other => GetSettingsFile_other w
                (hotload_insert (p ++ ["textures.xml"%string]) texture s)
                (p ++ ["textures.xml"%string]) other) as Hoth.
  assert (Hf : fst (GetSettingsFile w
                      (hotload_insert (p ++ ["textures.xml"%string]) texture s)
                      (p ++ ["textures.xml"%string]))
               = fst (GetSettingsFile w s (p ++ ["textures.xml"%string])))
    by (apply GetSettingsFile_fst; reflexivity).
  destruct (GetSettingsFile w (hotload_insert (p ++ ["textures.xml"%string]) texture s)
              (p ++ ["textures.xml"%string])) as [f s2].
  cbn [fst snd] in Hmemo, Hoth, Hf.
  assert (Hpath : forall j, (p ++ [it]) ++ settings_path rest j
                            = p ++ settings_path (it :: rest) (S j)).
  { intros j. unfold settings_path. simpl. now rewrite <- !app_assoc. }
  assert (Hne : forall j, p ++ settings_path (it :: rest) (S j)
                          <> p ++ ["textures.xml"%string]).
  { intros j. rewrite <- Hpath, <- app_assoc. apply settings_path_ne. }
  destruct k as [|k].
  - change (p ++ settings_path (it :: rest) 0) with (p ++ ["textures.xml"%string]).
    destruct (GetConverterSettings_loop_spec w texture rest (p ++ [it])
                (match f with Some f0 => files ++ [f0] | None => files end) s2)
      as (_ & H2 & _).
    cbv zeta in H2. rewrite H2; [rewrite <- Hf; exact Hmemo|].
    intros j. rewrite Hpath. intros E. symmetry in E. now apply Hne in E.
  - rewrite <- Hpath, IH by (simpl in Hk; lia). f_equal.
    apply GetSettingsFile_fst. rewrite Hpath. now apply Hoth.
Qed.

Lemma omap_seq_ext_lt {A : Type} (f g : nat -> option A) (n : nat) :
  forall a, (forall k, (a <= k < a + n)%nat -> f k = g k) ->
            omap f (seq a n) = omap g (seq a n).
Proof.
  induction n as [|n IH]; intros a H; [reflexivity|].
  cbn [seq omap list_omap]. rewrite H by lia. rewrite (IH (S a)); [reflexivity|].
  intros k Hk. apply H. lia.
Qed.

(** Asked again, in any world, [GetConverterSettings] gives the settings
    it gave. *)
Lemma GetConverterSettings_again w w' s texture :
  fst (GetConverterSettings w' (snd (GetConverterSettings w s texture)) texture)
  = fst (GetConverterSettings w s texture).
Proof.
  pose proof (cfg_only_GetConverterSettings w s texture) as (Hh & _).
  assert (Hp : path_of (snd (GetConverterSettings w s texture)) texture = path_of s texture).
  { unfold path_of, props_of, lock. now rewrite Hh. }
  pose proof (fun k => GetConverterSettings_loop_memo w texture (path_of s texture)
                         [] [] s k) as Hm.
  revert Hp Hm. unfold GetConverterSettings at 1 3 4.
  destruct (GetConverterSettings_loop_spec w texture (path_of s texture) [] [] s)
    as (H1 & _).
  cbv zeta in H1.
  destruct (GetConverterSettings_loop w texture (path_of s texture) [] [] s)
    as [files s1].
  cbn [fst snd] in *. intros Hp Hm. unfold GetConverterSettings. rewrite Hp.
  destruct (GetConverterSettings_loop_spec w' texture (path_of s texture) [] [] s1)
    as (H1' & _).
  cbv zeta in H1'.
  destruct (GetConverterSettings_loop w' texture (path_of s texture) [] [] s1)
    as [files' s2].
  cbn [fst snd] in *. f_equal. rewrite H1, H1'. f_equal.
  apply omap_seq_ext_lt. intros k Hk.
  apply GetSettingsFile_memoized. apply Hm. lia.
Qed.

(** X18. The job [ConvertTexture] submits: it is appended to the
    converter's queue, for the texture and its source path; its
    destination is the loose cache path, and its settings are the very
    settings hashed into that path, although they are computed a second
    time. When the source file has disappeared the job is submitted all
    the same, with the empty path as its destination. No texture
    changes. *)
Theorem X18_ConvertTexture_submits_a_consistent_job (w : World) (s : Manager)
    (texture : ptr) :
  let src := path_of s texture in
  let settings := fst (GetConverterSettings w s texture) in
  let dest := fst (LooseCachePath w s texture) in
  (exists s2,
     ConvertTexture w s texture
     = set_converter (m_TextureConverter s ++ [mkJob texture src dest settings]) s2 /\
     heap s2 = heap s /\ m_TextureCache s2 = m_TextureCache s) /\
  (forall fi, GetFileInfo w src = Some fi ->
     dest = ["cache"%string] ++ branch_path src
              ++ [(leaf src +:+ "." +:+ digestPrefix (MD5 (loose_hash_input fi settings))
                   +:+ ".dds")%string]) /\
  (GetFileInfo w src = None -> dest = []).
Proof.
  intros src settings dest. split; [|split].
  - unfold ConvertTexture. fold src.
    pose proof (cfg_only_LooseCachePath w s texture) as Hc1.
    assert (Hset : fst (GetConverterSettings w (snd (LooseCachePath w s texture)) texture)
                   = settings).
    { unfold LooseCachePath. fold src. destruct (GetFileInfo w src); [|reflexivity].
      pose proof (GetConverterSettings_again w w s texture) as H.
      now destruct (GetConverterSettings w s texture). }
    unfold dest. destruct (LooseCachePath w s texture) as [lp s1]. cbn [fst snd] in *.
    pose proof (cfg_only_GetConverterSettings w s1 texture) as Hc2.
    destruct (GetConverterSettings w s1 texture) as [st s2]. cbn [fst snd] in *.
    subst st. exists s2.
    destruct Hc1 as (Hh1 & R1 & Hj1). destruct Hc2 as (Hh2 & R2 & Hj2).
    split; [now rewrite Hj2, Hj1|]. split; [congruence|].
    rewrite (re_cache _ _ R2). apply R1.
  - intros fi Hfi. exact (LooseCachePath_fst w s texture fi Hfi).
  - intros Hfi. unfold dest, LooseCachePath. fold src. now rewrite Hfi.
Qed.

End CachedExtras.

(** ** The text of the digest *)

Section DigestExtras.
Context {C : Collaborators}.

(** X19. The digest is written without loss: a byte is written as two
    lower-case hexadecimal digits, the high one first and with a leading
    zero, and two digests give the same text exactly when their first
    eight bytes are equal. So loose cache files of one source differ in
    name exactly when the first eight bytes of their digests differ. *)
Theorem X19_the_digest_text_is_faithful (d1 d2 : list Z) :
  (forall x, hex_byte (u8 x)
             = String (hex_digit (u8 x / 16))
                 (String (hex_digit (u8 x mod 16)) EmptyString)) /\
  (digestPrefix d1 = digestPrefix d2 <->
   forall i, (i < 8)%nat -> u8 (nth i d1 0) = u8 (nth i d2 0)).
Proof.
  split; [apply hex_byte_format|]. unfold digestPrefix. cbn [seq foldr]. split.
  - intros E i Hi.
    assert (Hall : forall k, (k < 8)%nat ->
              hex_byte (u8 (nth k d1 0)) = hex_byte (u8 (nth k d2 0))).
    { rewrite !hex_byte_format in E. cbn [String.append] in E.
      injection E as E0 E0' E1 E1' E2 E2' E3 E3' E4 E4' E5 E5' E6 E6' E7 E7'.
      intros k Hk. rewrite !hex_byte_format.
      do 8 (destruct k as [|k]; [congruence|]). lia. }
    apply hex_byte_inj, Hall, Hi.
  - intros H. now rewrite !H by lia.
Qed.

End DigestExtras.

(** ** Who writes what *)

Section WriterExtras.
Context {C : Collaborators}.

(** X20. Who writes what: the handles of the two placeholders, the GL
    switch and the error texture never change; only [CreateTexture] adds
    to the cache, and nothing is ever taken out of it; only [MakeProgress]
    touches the converter, and it takes the oldest job out or puts one
    in, never both; and no call takes a reference out of the index. *)
Theorem X20_who_writes_what (s : Manager) (op : Op) :
  let s' := step s op in
  (m_DefaultHandle s' = m_DefaultHandle s /\ m_ErrorHandle s' = m_ErrorHandle s /\
   m_DisableGL s' = m_DisableGL s /\ m_ErrorTexture s' = m_ErrorTexture s) /\
  ((forall props, op <> OpCreateTexture props) -> m_TextureCache s' = m_TextureCache s) /\
  (forall p, p ∈ m_TextureCache s -> p ∈ m_TextureCache s') /\
  ((forall w, op <> OpMakeProgress w) -> m_TextureConverter s' = m_TextureConverter s) /\
  (m_TextureConverter s' = m_TextureConverter s \/
   (exists j, m_TextureConverter s = j :: m_TextureConverter s') \/
   (exists j, m_TextureConverter s' = m_TextureConverter s ++ [j])) /\
  (forall path p, registered s path p -> registered s' path p).
Proof.
  intros s'. pose proof (hot_mono_step s op) as Hm. fold s' in Hm.
  assert (Hrest : (forall props, op <> OpCreateTexture props) -> rest_eq s s').
  { unfold s'. destruct op as [props|w this|this|w|path]; cbn [step]; intros Hn.
    - now specialize (Hn props).
    - apply TryLoad_rest.
    - apply Prefetch_rest.
    - apply MakeProgress_rest.
    - now destruct (ReloadChangedFile_spec s path) as (R & _). }
  assert (Hcreate : forall props,
            let r := snd (CreateTexture s props) in
            (m_DefaultHandle r = m_DefaultHandle s /\ m_ErrorHandle r = m_ErrorHandle s /\
             m_DisableGL r = m_DisableGL s /\ m_ErrorTexture r = m_ErrorTexture s) /\
            (forall p, p ∈ m_TextureCache s -> p ∈ m_TextureCache r) /\
            m_TextureConverter r = m_TextureConverter s).
  { intros props. destruct (CreateTexture_cases s props) as [Hf HC]. cbv zeta in HC.
    destruct HC as [(it & _ & ->)|(Hn & r & -> & _ & Hc & Hj & _ & He & Hd & Hhe & Hg & _)];
      cbn [snd]; [tauto|].
    split; [tauto|]. split; [|exact Hj].
    intros p Hp. rewrite Hc.
    apply (set_insert_elem (props_of _) TextureCacheCmp _ _ _ Hn). now right. }
  assert (Hconv : m_TextureConverter s' = m_TextureConverter s \/
                  (exists j, m_TextureConverter s = j :: m_TextureConverter s') \/
                  (exists j, m_TextureConverter s' = m_TextureConverter s ++ [j])).
  { unfold s'. destruct op as [props|w this|this|w|path]; cbn [step].
    - left. apply Hcreate.
    - left. apply conv_TryLoad.
    - left. apply conv_Prefetch.
    - destruct (MakeProgress_cases w s)
        as [(texture & dest & ok & c' & HP & ->)
           |(_ & [(Hc & it & Hs & ->)|[(_ & it & Hs & ->)|[(Hc & _ & _ & it & Hs & ->)
                                                          |(_ & _ & _ & ->)]]])];
        cbn [snd]; [| | | |now left].
      + destruct (poll_facts w s texture dest ok c' HP) as (_ & _ & _ & E & j0 & E0).
        cbv zeta in E. right. left. exists j0. now rewrite E.
      + apply scan_Some in Hs as [_ Hs]. destruct (state_of_Some _ _ _ Hs) as (t & Ht & _).
        destruct (submit_facts w s it HIGH_IS_CONVERTING (ltac:(eauto)))
          as (_ & _ & job & _ & E). right. right. eauto.
      + apply scan_Some in Hs as [_ Hs]. destruct (state_of_Some _ _ _ Hs) as (t & Ht & _).
        destruct (load_facts w s it (ltac:(eauto))) as (_ & _ & E). now left.
      + apply scan_Some in Hs as [_ Hs]. destruct (state_of_Some _ _ _ Hs) as (t & Ht & _).
        destruct (submit_facts w s it PREFETCH_IS_CONVERTING (ltac:(eauto)))
          as (_ & _ & job & _ & E). right. right. eauto.
    - left. now destruct (ReloadChangedFile_spec s path) as (_ & E & _). }
  split; [|split; [|split; [|split; [|split; [exact Hconv|exact Hm]]]]].
  - unfold s' in *. destruct op as [props|w this|this|w|path];
      try (destruct Hrest as [_ H1 H2 H3 H4]; [intros ?; discriminate|]; tauto).
    apply Hcreate.
  - intros Hn. apply (re_cache _ _ (Hrest Hn)).
  - unfold s' in *. destruct op as [props|w this|this|w|path];
      try (destruct Hrest as [H0 _ _ _ _]; [intros ?; discriminate|];
           intros p; now rewrite H0).
    apply Hcreate.
  - intros Hn. unfold s'. destruct op as [props|w this|this|w|path]; cbn [step].
    + apply Hcreate.
    + apply conv_TryLoad.
    + apply conv_Prefetch.
    + now specialize (Hn w).
    + now destruct (ReloadChangedFile_spec s path) as (_ & E & _).
Qed.

End WriterExtras.

(** * Examples *)

Lemma ex_reachable_new : reachable ex_new.
Proof. exact (reachable_new false 1 2 ex_errprops). Qed.

Lemma ex_reachable_created : reachable ex_created.
Proof. exact (reachable_step _ _ ex_reachable_new). Qed.

Lemma ex_reachable_needs : reachable ex_needs.
Proof. exact (reachable_step _ _ ex_reachable_created). Qed.

Lemma ex_reachable_converting : reachable ex_converting.
Proof. exact (reachable_step _ _ ex_reachable_needs). Qed.

Lemma ex_reachable_loaded : reachable ex_loaded.
Proof. exact (reachable_step _ _ ex_reachable_converting). Qed.

(** Two requests with one key share the entry, also after other calls; a
    key with another anisotropy gets another entry. *)
Lemma C1_witness :
  fst (CreateTexture ex_new ex_key)
  = fst (CreateTexture (run (snd (CreateTexture ex_new ex_key)) ex_ops) ex_key) /\
  fst (CreateTexture ex_new ex_key)
  <> fst (CreateTexture (run (snd (CreateTexture ex_new ex_key)) ex_ops) ex_key_aniso).
Proof.
  pose proof (C1_CreateTexture_shares_iff_equivalent ex_new ex_key ex_key ex_ops
                ex_reachable_new) as H1.
  pose proof (C1_CreateTexture_shares_iff_equivalent ex_new ex_key ex_key_aniso ex_ops
                ex_reachable_new) as H2.
  cbv zeta in H1, H2. destruct H1 as [H1 _]. destruct H2 as [H2 _].
  split.
  - apply H1. reflexivity.
  - intros E. apply H2 in E. discriminate E.
Defined.

(** The spec's table of the validity policy. *)
Lemma C3_witness :
  CanUseArchiveCache (ex_world [(ex_archive, (2%N, mkFileInfo 97 9))] 7 None)
    ex_src ex_archive = true /\
  CanUseArchiveCache (ex_w_both 5 2 0 0 7) ex_src ex_archive = false /\
  CanUseArchiveCache (ex_w_both 1 1 100 97 7) ex_src ex_archive = false /\
  CanUseArchiveCache (ex_w_both 1 1 99 97 7) ex_src ex_archive = true.
Proof.
  split; [|split; [|split]].
  - destruct (C3_CanUseArchiveCache_table
                (ex_world [(ex_archive, (2%N, mkFileInfo 97 9))] 7 None) ex_src ex_archive)
      as (_ & H & _).
    apply H; [exists 2%N; reflexivity|reflexivity].
  - destruct (C3_CanUseArchiveCache_table (ex_w_both 5 2 0 0 7) ex_src ex_archive)
      as (_ & _ & H & _).
    apply (H 2%N 5%N); reflexivity.
  - destruct (C3_CanUseArchiveCache_table (ex_w_both 1 1 100 97 7) ex_src ex_archive)
      as (_ & _ & _ & H & _).
    apply (H (mkFileInfo 100 5) (mkFileInfo 97 9));
      [exists 1%N; reflexivity|exists 1%N; reflexivity|reflexivity|reflexivity|reflexivity].
  - destruct (C3_CanUseArchiveCache_table (ex_w_both 1 1 99 97 7) ex_src ex_archive)
      as (_ & _ & _ & _ & _ & H).
    apply (H 1%N 1%N (mkFileInfo 99 5) (mkFileInfo 97 9)); reflexivity.
Defined.

(** With a job waiting and an idle converter, the tick submits it. *)
Lemma C2_witness :
  fst (MakeProgress (ex_w_source 100 None) ex_needs) = true /\
  state_of (snd (MakeProgress (ex_w_source 100 None) ex_needs)) 1%nat
  = Some HIGH_IS_CONVERTING.
Proof.
  destruct (C2_MakeProgress_one_step_by_priority (ex_w_source 100 None) ex_needs)
    as (_ & _ & _ & H & _).
  assert (Hw : waiting ex_needs HIGH_NEEDS_CONVERTING).
  { exists 1%nat. split; [apply list_elem_of_In; left; reflexivity|reflexivity]. }
  destruct (H eq_refl eq_refl Hw) as (Ht & it & job & Hin & _ & Hst & _).
  split; [exact Ht|].
  apply list_elem_of_In in Hin. destruct Hin as [<-|[]]. exact Hst.
Defined.

(** A failed conversion leaves the entry loaded with the error handle. *)
Lemma C4_witness :
  let w := ex_w_source 100 (Some false) in
  let r := MakeProgress w ex_converting in
  state_of (snd r) 1%nat = Some LOADED /\
  handle_of (snd r) 1%nat = Some 2 /\
  state_of (run (snd r) [OpMakeProgress w; OpTryLoad w 1%nat; OpPrefetch 1%nat]) 1%nat
  = Some LOADED.
Proof.
  intros w r.
  assert (HP : Converter_Poll w (m_TextureConverter ex_converting)
               = (Some (1%nat, ["cache"; "art"; "skin.png.6a6b6c6d6e6f7071.dds"]%string,
                        false), [])) by reflexivity.
  assert (Hl : lock ex_converting 1%nat = Some (ex_texture HIGH_IS_CONVERTING 1))
    by reflexivity.
  destruct (C4_completion_ends_in_LOADED w ex_converting 1%nat _ false [] _
              [OpMakeProgress w; OpTryLoad w 1%nat; OpPrefetch 1%nat] HP Hl eq_refl)
    as (_ & H1 & _ & H2 & _ & _ & H3 & _).
  split; [exact H1|]. split; [exact (H2 eq_refl)|exact H3].
Defined.

(** On demand, with neither source nor cache, the entry ends loaded. *)
Lemma C5_witness :
  fst (TryLoad ex_w_absent ex_created 1%nat) = true /\
  state_of (snd (TryLoad ex_w_absent ex_created 1%nat)) 1%nat = Some LOADED.
Proof.
  assert (Hl : lock ex_created 1%nat = Some (ex_texture UNLOADED 1)) by reflexivity.
  destruct (C5_TryLoad_transitions ex_w_absent ex_created 1%nat _
              ex_reachable_created Hl) as (H1 & _ & _ & H4).
  destruct (H1 (or_introl eq_refl)) as [_ Hst].
  split; [apply H4|]; exact Hst.
Defined.

(** A reload puts a loaded entry back to [UNLOADED] with the default
    handle. *)
Lemma C6_witness :
  exists t', lock (ReloadChangedFile ex_loaded ex_src) 1%nat = Some t' /\
             m_State t' = UNLOADED /\ m_Handle t' = 1.
Proof.
  destruct (C6_ReloadChangedFile_resets ex_loaded ex_src) as (_ & H & _).
  assert (Hin : 1%nat ∈ [1%nat]) by (apply list_elem_of_In; left; reflexivity).
  destruct (H [1%nat] 1%nat (ex_texture LOADED 7) eq_refl Hin eq_refl)
    as (t' & H1 & H2 & H3 & _).
  exists t'. split; [exact H1|]. split; [exact H2|exact H3].
Defined.

(** A missing source is absorbed. *)
Lemma C7_witness :
  let r := TryLoad ex_w_absent ex_created 1%nat in
  fst r = true /\ state_of (snd r) 1%nat = Some LOADED /\
  handle_of (snd r) 1%nat = Some 2 /\ m_TextureConverter (snd r) = [].
Proof.
  assert (Hl : lock ex_created 1%nat = Some (ex_texture UNLOADED 1)) by reflexivity.
  destruct (C7_failures_are_absorbed ex_w_absent ex_created 1%nat _
              ex_reachable_created Hl) as (H & _).
  destruct (H eq_refl eq_refl) as [_ Habs].
  exact (Habs (or_introl eq_refl)).
Defined.

(** Modification times 100 and 101 give one path, and its digits are the
    first eight bytes of the digest. *)
Lemma C8_witness :
  fst (LooseCachePath (ex_w_source 100 None) ex_created 1%nat)
  = fst (LooseCachePath (ex_w_source 101 None) ex_created 1%nat) /\
  fst (LooseCachePath (ex_w_source 100 None) ex_created 1%nat)
  = ["cache"; "art"; "skin.png.6a6b6c6d6e6f7071.dds"]%string /\
  bytes_of_hex "6a6b6c6d6e6f7071" = Some [106; 107; 108; 109; 110; 111; 112; 113].
Proof.
  destruct (C8_LooseCachePath_deterministic
              (ex_w_source 100 None) (ex_w_source 101 None) ex_created ex_created
              1%nat 1%nat (mkFileInfo 100 5) (mkFileInfo 101 5)
              eq_refl eq_refl eq_refl eq_refl (or_intror eq_refl) eq_refl)
    as (H1 & H2 & _ & _ & H5 & _).
  split; [exact H1|]. split; [exact H2|exact H5].
Defined.

(** The on-demand entry is converted first although the prefetched one
    comes first in the cache; while its job is in flight the tick has
    nothing to do. *)
Example ex_high_preempts_prefetch :
  let w := ex_w_source 100 None in
  let r := MakeProgress w ex_two in
  m_TextureCache ex_two = [1%nat; 2%nat] /\
  state_of ex_two 1%nat = Some PREFETCH_NEEDS_CONVERTING /\
  state_of ex_two 2%nat = Some HIGH_NEEDS_CONVERTING /\
  fst r = true /\
  state_of (snd r) 1%nat = Some PREFETCH_NEEDS_CONVERTING /\
  state_of (snd r) 2%nat = Some HIGH_IS_CONVERTING /\
  map job_texture (m_TextureConverter (snd r)) = [2%nat] /\
  fst (MakeProgress w (snd r)) = false.
Proof. vm_compute. repeat split. Qed.

(** Once the job is done the prefetched entry gets its turn. *)
Example ex_prefetch_after_high :
  let w := ex_w_source 100 None in
  let done := ex_w_source 100 (Some true) in
  let s := run ex_two [OpMakeProgress w; OpMakeProgress done; OpMakeProgress w] in
  state_of s 2%nat = Some LOADED /\
  state_of s 1%nat = Some PREFETCH_IS_CONVERTING /\
  map job_texture (m_TextureConverter s) = [1%nat].
Proof. vm_compute. repeat split. Qed.


(** On a manager built by hand, whose index holds the reference [5] to a
    texture that is gone, the reference is skipped and stays registered;
    the manager itself never gets into such a state. *)
Example ex_stale_is_skipped :
  5%nat ∈ default [] (m_HotloadFiles ex_stale !! ex_src) /\
  lock ex_stale 5%nat = None /\
  5%nat ∈ default [] (m_HotloadFiles (ReloadChangedFile ex_stale ex_src) !! ex_src).
Proof.
  split; [|split].
  - apply list_elem_of_In. left. reflexivity.
  - reflexivity.
  - apply list_elem_of_In. left. reflexivity.
Qed.

Example ex_stale_unreachable : ~ reachable ex_stale.
Proof.
  intros Hr.
  destruct (reachable_hot_live ex_stale Hr ex_src [5%nat] 5%nat) as [t Ht].
  - reflexivity.
  - apply list_elem_of_In. left. reflexivity.
  - discriminate Ht.
Qed.

(** A second prefetch, or a prefetch of a loaded entry, is a no-op. *)
Lemma C10_witness :
  state_of ex_loaded 1%nat = Some LOADED /\ Prefetch ex_loaded 1%nat = ex_loaded.
Proof.
  split; [reflexivity|].
  assert (Hne : state_of ex_loaded 1%nat <> Some UNLOADED) by discriminate.
  destruct (C10_Prefetch_only_from_UNLOADED ex_loaded 1%nat Hne) as [H _]. exact H.
Defined.

(** ** Examples of the further properties *)

Lemma ex_reachable_headless : reachable ex_headless.
Proof.
  exact (reachable_step _ _ (reachable_step _ _ (reachable_new true 7 8 ex_errprops))).
Qed.

(** Asking for the key of the one entry returns it and changes nothing. *)
Lemma X2_witness : CreateTexture ex_created (props_of ex_created 1%nat) = (1%nat, ex_created).
Proof.
  apply (X2_CreateTexture_of_a_held_key_is_read_only ex_created 1%nat ex_reachable_created).
  apply (bool_decide_unpack _). vm_compute. exact I.
Defined.

(** [Prefetch] of a fresh entry makes the one move it can. *)
Lemma X6_witness :
  exists b, state_of (step ex_created (OpPrefetch 1%nat)) 1%nat = Some b /\
            (b = UNLOADED \/ moves (C := ex_collab) (OpPrefetch 1%nat) UNLOADED b = true).
Proof.
  apply (X6_state_changes_follow_the_machine ex_created (OpPrefetch 1%nat) 1%nat UNLOADED).
  vm_compute. reflexivity.
Defined.

(** An entry that waits for its conversion shows the placeholder. *)
Lemma X8_witness :
  m_Handle (ex_texture HIGH_NEEDS_CONVERTING 1) = m_DefaultHandle ex_needs /\
  exists h, fst (Bind (ex_w_source 100 None) ex_needs 1%nat) = Some h /\
    (IsLoaded (snd (Bind (ex_w_source 100 None) ex_needs 1%nat)) 1%nat = false ->
     h = m_DefaultHandle ex_needs).
Proof.
  destruct (X8_unloaded_textures_show_the_placeholder ex_needs 1%nat
              (ex_texture HIGH_NEEDS_CONVERTING 1) ex_reachable_needs)
    as [H1 H2]; [vm_compute; reflexivity|].
  split; [apply H1; discriminate|apply H2].
Defined.

(** The error texture of the small installation. *)
Lemma X9_witness :
  exists e t, GetErrorTexture ex_loaded = Some e /\ lock ex_loaded e = Some t /\
    m_State t = LOADED /\ m_Handle t = m_ErrorHandle ex_loaded /\
    (e ∉ m_TextureCache ex_loaded) /\
    (forall path, lock (ReloadChangedFile ex_loaded path) e = Some t) /\
    (forall w, Bind w ex_loaded e = (Some (m_ErrorHandle ex_loaded), ex_loaded)).
Proof.
  apply (X9_the_error_texture_is_permanent ex_loaded ex_reachable_loaded). reflexivity.
Defined.

(** The entry that is being converted is the one of the converter's job. *)
Lemma X10_witness :
  1%nat ∈ m_TextureCache ex_converting /\
  (exists j, m_TextureConverter ex_converting = [j] /\ job_texture j = 1%nat) /\
  (forall q b, state_of ex_converting q = Some b -> converting b = true -> q = 1%nat).
Proof.
  apply (X10_one_conversion_at_a_time ex_converting 1%nat HIGH_IS_CONVERTING
           ex_reachable_converting); vm_compute; reflexivity.
Defined.

(** Without GL the entry that was asked for has the handle 0. *)
Lemma X11_witness :
  m_DefaultHandle ex_headless = 0 /\ m_ErrorHandle ex_headless = 0 /\
  (forall p t, lock ex_headless p = Some t -> m_Handle t = 0) /\
  (forall w p, is_Some (lock ex_headless p) -> fst (Bind w ex_headless p) = Some 0).
Proof.
  apply (X11_without_GL_there_are_no_handles ex_headless ex_reachable_headless).
  reflexivity.
Defined.

Lemma X12_witness :
  (forall p q, p ∈ m_TextureCache ex_created -> q ∈ m_TextureCache ex_created ->
               props_of ex_created p = props_of ex_created q -> p = q) /\
  (forall ops p, p ∈ m_TextureCache ex_created ->
     p ∈ m_TextureCache (run ex_created ops) /\ is_Some (lock (run ex_created ops) p) /\
     props_of (run ex_created ops) p = props_of ex_created p).
Proof.
  exact (X12_cache_entries_are_unique_and_stay ex_created ex_reachable_created).
Defined.

(** The entry a tick submits is the first of its state. *)
Lemma X13_witness :
  1%nat ∈ m_TextureCache ex_needs /\
  forall q, q ∈ m_TextureCache ex_needs -> state_of ex_needs q = Some HIGH_NEEDS_CONVERTING ->
    q = 1%nat \/ TextureCacheCmp (props_of ex_needs 1%nat) (props_of ex_needs q) = true.
Proof.
  apply (X13_MakeProgress_serves_the_smallest_key (ex_w_source 100 None) ex_needs 1%nat
           HIGH_NEEDS_CONVERTING ex_reachable_needs).
  - vm_compute. reflexivity.
  - vm_compute. reflexivity.
  - vm_compute. discriminate.
Defined.

(** A change of the source resets the loaded entry. *)
Lemma X15_witness :
  registered ex_loaded (path_of ex_loaded 1%nat) 1%nat /\
  state_of (ReloadChangedFile ex_loaded (path_of ex_loaded 1%nat)) 1%nat = Some UNLOADED /\
  handle_of (ReloadChangedFile ex_loaded (path_of ex_loaded 1%nat)) 1%nat
  = Some (m_DefaultHandle ex_loaded) /\
  props_of (ReloadChangedFile ex_loaded (path_of ex_loaded 1%nat)) 1%nat
  = props_of ex_loaded 1%nat /\
  GetBaseColour (ReloadChangedFile ex_loaded (path_of ex_loaded 1%nat)) 1%nat
  = GetBaseColour ex_loaded 1%nat.
Proof.
  apply (X15_a_changed_source_resets_its_textures ex_loaded 1%nat ex_reachable_loaded).
  apply (bool_decide_unpack _). vm_compute. exact I.
Defined.

(** A change of [art/textures.xml] resets the entry that waits for its
    conversion. *)
Lemma X16_witness :
  registered ex_needs (settings_path (path_of ex_needs 1%nat) 1) 1%nat /\
  state_of (ReloadChangedFile ex_needs (settings_path (path_of ex_needs 1%nat) 1)) 1%nat
  = Some UNLOADED /\
  handle_of (ReloadChangedFile ex_needs (settings_path (path_of ex_needs 1%nat) 1)) 1%nat
  = Some (m_DefaultHandle ex_needs) /\
  m_SettingsFiles (ReloadChangedFile ex_needs (settings_path (path_of ex_needs 1%nat) 1))
    !! settings_path (path_of ex_needs 1%nat) 1 = None.
Proof.
  apply (X16_a_changed_settings_file_resets_the_textures_below ex_needs 1%nat
           HIGH_NEEDS_CONVERTING 1 ex_reachable_needs).
  - vm_compute. reflexivity.
  - reflexivity.
  - vm_compute. lia.
Defined.
